(** * mionweb: the telemetry streaming pipeline

    A shallow embedding of the streaming core of the JYTEK DAQ demo:
    - the waveform synthesizer [GenerateHighPerformanceData]
      (service/Services/DAQDataService.cs),
    - the gRPC service [Subscribe] / [Control] (DAQStreamService.cs),
    - the pacer of [GenerateDataForClient] and of the browser-side
      [HighPerformanceStreamer] (web/src/utils/mockDataGenerator.ts),
    - the browser ring buffer [CircularBuffer] and the level-of-detail step
      of [WaveformChart],
    - [PerformanceMetrics] of PerformanceMonitorService.cs.

    Conventions.  A C# [uint]/[int]/[short] is a [Z] with its wrap-around
    written out ([Int.to_uint32], [Int.to_int32]).  A byte is a [Z] in
    [0, 256).  A C# [double] that goes through [Math.Sin] is an ideal real
    ([R]); a [double] or JS number that only goes through [+ - * / max] is an
    exact rational ([Q]).  A JS number used as an array index or as a loop
    step is a [JS.jsnum]: an integer, an infinity or [NaN].  Thrown
    exceptions are values of [option] or of a sum type.  Wall-clock readings,
    the random source and the interleaving of the producer task are inputs of
    the functions. *)

From Stdlib Require Import ZArith List String Reals QArith Qminmax Qround Psatz.
From stdpp Require Import base list strings gmap pretty.

Local Open Scope Z_scope.

(** ** Machine integers *)

Module Int.

Definition to_uint32 (z : Z) : Z := z mod 2 ^ 32.

Definition to_int32 (z : Z) : Z := (z + 2 ^ 31) mod 2 ^ 32 - 2 ^ 31.

Definition to_int64 (z : Z) : Z := (z + 2 ^ 63) mod 2 ^ 64 - 2 ^ 63.

Definition max_int32 : Z := 2 ^ 31 - 1.

End Int.

(** ** Protocol messages (daq.proto) *)

Record DataRequest := mkDataRequest {
  Channels : Z;                      (* uint32 channels = 1 *)
  SampleRate : Z;                    (* uint32 sample_rate = 2 *)
  BufferSize : Z;                    (* uint32 buffer_size = 3 *)
  Config : gmap string string        (* map<string,string> config = 4 *)
}.

Record DataChunk := mkDataChunk {
  Payload : list Z;                  (* bytes payload = 1 *)
  Seq : Z;                           (* uint32 seq = 2 *)
  TickNs : Z;                        (* uint64 tick_ns = 3 *)
  Tags : gmap string string          (* map<string,string> tags = 4 *)
}.

Record ControlCmd := mkControlCmd {
  Cmd : Z;                           (* enum Command, an open proto3 enum *)
  Params : gmap string string
}.

Record Ack := mkAck {
  Success : bool;
  Message : string;
  Timestamp : Z
}.

(** ** Loops that can throw *)

Fixpoint for_each {S A : Type} (body : S -> A -> option S) (xs : list A)
    (s : S) : option S :=
  match xs with
  | [] => Some s
  | x :: xs' =>
      match body s x with
      | Some s' => for_each body xs' s'
      | None => None
      end
  end.

(** ** The waveform synthesizer: DAQDataService.GenerateHighPerformanceData *)

Module Synth.

Local Open Scope R_scope.

Definition baseFrequency : R := 1000.

Definition amplitude : R := 32767 * 0.8.

(** [(sequenceNumber * samplesPerChannel + sample) / (double)sampleRate]:
    [uint * int] is computed in [long], where it cannot overflow. *)
Definition sample_time (sequenceNumber samplesPerChannel sample sampleRate : Z)
    : R :=
  IZR (sequenceNumber * samplesPerChannel + sample) / IZR sampleRate.

Definition channel_phase (time : R) (channel : Z) : R :=
  let channelFreq := baseFrequency * (1 + IZR channel * 0.1) in
  2 * PI * channelFreq * time.

Definition mixed_wave (phase : R) : R :=
  amplitude * (0.6 * sin phase + 0.3 * sin (2 * phase) + 0.1 * sin (3 * phase)).

(** The sample before conversion; [noise] is [Random.Shared.NextDouble()]. *)
Definition sample_value (time : R) (channel : Z) (noise : R) : R :=
  mixed_wave (channel_phase time channel) + (noise - 0.5) * amplitude * 0.02.

(** [Math.Clamp(value, min, max)]. *)
Definition clamp (value lo hi : R) : R :=
  if Rlt_dec value lo then lo else if Rlt_dec hi value then hi else value.

(** Conversion [double -> short] of a value in the range of [short]:
    truncation toward zero. *)
Definition truncate (x : R) : Z :=
  if Rle_dec 0 x then Int_part x else (- Int_part (- x))%Z.

Definition to_sample16 (value : R) : Z :=
  truncate (clamp value (-32768) 32767).

Local Open Scope Z_scope.

(** [BitConverter.GetBytes(short)] on a little-endian host. *)
Definition low_byte (s : Z) : Z := Z.land s 255.

Definition high_byte (s : Z) : Z := Z.land (Z.shiftr s 8) 255.

(** Reading two bytes back as a little-endian signed 16-bit number. *)
Definition decode_int16_le (b0 b1 : Z) : Z :=
  let u := Z.lor b0 (Z.shiftl b1 8) in
  if u <? 2 ^ 15 then u else u - 2 ^ 16.

(** [bufferSpan[i] = b]: an index outside the span throws. *)
Definition write_byte (buffer : list Z) (i b : Z) : option (list Z) :=
  if (0 <=? i) && (i <? Z.of_nat (length buffer))
  then Some (<[Z.to_nat i := b]> buffer)
  else None.

Section Generator.

(** The [k]-th call of [Random.Shared.NextDouble()] while one chunk is
    generated; the generator draws once per written sample, in order. *)
Variable rnd : Z -> R.

Definition sample16_at (time : R) (channel sampleIndex : Z) : Z :=
  to_sample16 (sample_value time channel (rnd sampleIndex)).

(** Body of the inner [for (channel ...)] loop; the state is the buffer and
    [sampleIndex]. *)
Definition channel_body (time : R) (st : list Z * Z) (channel : Z)
    : option (list Z * Z) :=
  let '(buffer, sampleIndex) := st in
  let sample16 := sample16_at time channel sampleIndex in
  match write_byte buffer (Int.to_int32 (sampleIndex * 2))
                   (low_byte sample16) with
  | None => None
  | Some buffer1 =>
      match write_byte buffer1
                       (Int.to_int32 (Int.to_int32 (sampleIndex * 2) + 1))
                       (high_byte sample16) with
      | None => None
      | Some buffer2 => Some (buffer2, Int.to_int32 (sampleIndex + 1))
      end
  end.

(** Body of the outer [for (sample ...)] loop. *)
Definition sample_body (sequenceNumber samplesPerChannel sampleRate channels : Z)
    (st : list Z * Z) (sample : Z) : option (list Z * Z) :=
  let time := sample_time sequenceNumber samplesPerChannel sample sampleRate in
  for_each (channel_body time) (seqZ 0 channels) st.

(** [None] stands for a thrown exception: [OverflowException] for a negative
    array length, [IndexOutOfRangeException] for a write outside the buffer.
    Exhaustion of memory is not modelled.  The request's [Config] is not
    read. *)
Definition GenerateHighPerformanceData (request : DataRequest)
    (sequenceNumber : Z) : option (list Z) :=
  let channels := Int.to_int32 (Channels request) in
  let samplesPerChannel := Int.to_int32 (BufferSize request) in
  let sampleRate := SampleRate request in
  let size := Int.to_int32 (Int.to_int32 (channels * samplesPerChannel) * 2) in
  if size <? 0 then None
  else
    let buffer := replicate (Z.to_nat size) 0 in
    match for_each
            (sample_body sequenceNumber samplesPerChannel sampleRate channels)
            (seqZ 0 samplesPerChannel) (buffer, 0) with
    | Some (buffer', _) => Some buffer'
    | None => None
    end.

(** The 16-bit sample the generator computes for slot [(sample, channel)] of
    chunk [sequenceNumber]: the slot is written as sample number
    [sample * channels + channel] of the chunk. *)
Definition sample16_of (request : DataRequest) (sequenceNumber sample channel : Z)
    : Z :=
  sample16_at
    (sample_time sequenceNumber (Int.to_int32 (BufferSize request)) sample
                 (SampleRate request))
    channel (sample * Int.to_int32 (Channels request) + channel).

(** The two bytes of one sample, and the samples a chunk holds in buffer
    order: row after row, each row one sample slot of every channel. *)
Definition slot_bytes (s : Z) : list Z := [low_byte s; high_byte s].

Fixpoint row_samples (time : R) (channels : list Z) (sampleIndex : Z)
    : list Z :=
  match channels with
  | [] => []
  | channel :: rest =>
      sample16_at time channel sampleIndex
      :: row_samples time rest (sampleIndex + 1)
  end.

Fixpoint chunk_samples (sequenceNumber samplesPerChannel sampleRate : Z)
    (channels samples : list Z) (sampleIndex : Z) : list Z :=
  match samples with
  | [] => []
  | sample :: rest =>
      row_samples
        (sample_time sequenceNumber samplesPerChannel sample sampleRate)
        channels sampleIndex
      ++ chunk_samples sequenceNumber samplesPerChannel sampleRate channels
           rest (sampleIndex + Z.of_nat (length channels))
  end.

End Generator.

(** The request of the specification's scenario, with the waveform options
    in its configuration map. *)
Definition scenario_request : DataRequest :=
  {| Channels := 1;
     SampleRate := 1000;
     BufferSize := 4;
     Config := {[ "waveformKind" := "sine"; "amplitude" := "1.0";
                  "baseFrequency" := "250" ]}%string |}.

(** The decoded samples of a payload, in buffer order. *)
Fixpoint decode_samples (payload : list Z) : list Z :=
  match payload with
  | b0 :: b1 :: rest => decode_int16_le b0 b1 :: decode_samples rest
  | _ => []
  end.

End Synth.

(** ** The browser-side generator: MockDataGenerator (mockDataGenerator.ts) *)

Module Mock.

Local Open Scope R_scope.

Inductive WaveformType := sine | square | triangle | noise | mixed.

Record MockConfig := mkMockConfig {
  channels : Z;
  sampleRate : Z;
  bufferSize : Z;
  waveformType : WaveformType;
  amplitude : R;
  frequency : R;
  noiseLevel : R
}.

(** [Math.sign]. *)
Definition sign (x : R) : R :=
  if Rlt_dec 0 x then 1 else if Rlt_dec x 0 then -1 else 0.

(** [generateSample(time, channel)]; [random] is the value [Math.random()]
    returns when the [noise] waveform asks for it. *)
Definition generateSample (config : MockConfig) (random : R) (time : R)
    (channel : Z) : R :=
  let channelFreq := frequency config * (1 + IZR channel * 0.1) in
  let phase := 2 * PI * channelFreq * time in
  match waveformType config with
  | sine => amplitude config * sin phase
  | square => amplitude config * sign (sin phase)
  | triangle => amplitude config * (2 / PI) * asin (sin phase)
  | noise => amplitude config * (random - 0.5) * 2
  | mixed =>
      amplitude config *
      (0.6 * sin phase + 0.3 * sin (2 * phase) + 0.1 * sin (3 * phase))
  end.

(** Sample [i] of channel [ch] in [generateChunk], before it is stored:
    [random1] feeds [generateSample], [random2] the additive noise. *)
Definition chunk_sample (config : MockConfig) (sampleCounter : Z)
    (random1 random2 : R) (ch i : Z) : R :=
  let sampleIndex := (sampleCounter + i)%Z in
  let time := IZR sampleIndex / IZR (sampleRate config) in
  let value := generateSample config random1 time ch in
  if Rlt_dec 0 (noiseLevel config)
  then value + (random2 - 0.5) * noiseLevel config * amplitude config
  else value.

(** The configuration of the specification's scenario: one channel sampled
    at 1000 Hz, four samples per chunk, a sine of amplitude 1.0 at 250 Hz and
    no added noise. *)
Definition scenario_config : MockConfig :=
  {| channels := 1;
     sampleRate := 1000;
     bufferSize := 4;
     waveformType := sine;
     amplitude := 1;
     frequency := 250;
     noiseLevel := 0 |}.

End Mock.

(** ** JavaScript numbers used as indices, lengths and steps *)

Module JS.

Inductive jsnum := Fin (z : Z) | PosInf | NegInf | NaN.

Definition add (x y : jsnum) : jsnum :=
  match x, y with
  | Fin a, Fin b => Fin (a + b)
  | NaN, _ | _, NaN => NaN
  | PosInf, NegInf | NegInf, PosInf => NaN
  | PosInf, _ | _, PosInf => PosInf
  | NegInf, _ | _, NegInf => NegInf
  end.

(** [x % n] for an integer [n]: the remainder has the sign of [x]. *)
Definition rem (x : jsnum) (n : Z) : jsnum :=
  match x with
  | Fin a => if n =? 0 then NaN else Fin (Z.rem a n)
  | _ => NaN
  end.

(** [x < n] and [x > n] for an integer [n]. *)
Definition lt_int (x : jsnum) (n : Z) : bool :=
  match x with
  | Fin a => a <? n
  | NegInf => true
  | PosInf | NaN => false
  end.

Definition gt_int (x : jsnum) (n : Z) : bool :=
  match x with
  | Fin a => n <? a
  | PosInf => true
  | NegInf | NaN => false
  end.

(** [x === 0]. *)
Definition is_zero (x : jsnum) : bool :=
  match x with
  | Fin a => a =? 0
  | _ => false
  end.

(** [Math.max(1, x)]. *)
Definition max1 (x : jsnum) : jsnum :=
  match x with
  | Fin a => Fin (Z.max 1 a)
  | PosInf => PosInf
  | NegInf => Fin 1
  | NaN => NaN
  end.

(** [Math.floor(a / b)] for an integer [a] and a number [b]. *)
Definition floor_div (a : Z) (b : Q) : jsnum :=
  if Qeq_bool b 0 then
    if 0 <? a then PosInf else if a <? 0 then NegInf else NaN
  else Fin (Qfloor (inject_Z a / b)).

End JS.

(** ** Level of detail: WaveformChart *)

Module LOD.

Import JS.

(** [calculateOptimalStep(dataLength, targetPoints)] of the chart with the
    circular buffer. *)
Definition calculateOptimalStep (dataLength : Z) (targetPoints : Q) : jsnum :=
  if Qle_bool (inject_Z dataLength) targetPoints then Fin 1
  else
    let baseStep := floor_div dataLength targetPoints in
    max1 baseStep.

(** The step of [convertDataToPlot] in components/WaveformChart.tsx and the
    [displayStep] of the chart with the circular buffer:
    [Math.max(1, Math.floor(length / maxPoints))]. *)
Definition plot_step (length : Z) (maxPoints : Q) : jsnum :=
  max1 (floor_div length maxPoints).

(** [for (let i = start; i < length; i += step) keep i].  [fuel] bounds the
    number of iterations; [None] means that it ran out. *)
Fixpoint kept_from (fuel : nat) (i : jsnum) (length : Z) (step : jsnum)
    : option (list jsnum) :=
  if lt_int i length then
    match fuel with
    | O => None
    | S fuel' =>
        match kept_from fuel' (add i step) length step with
        | Some rest => Some (i :: rest)
        | None => None
        end
    end
  else Some [].

Definition kept_indices (fuel : nat) (length : Z) (step : jsnum)
    : option (list jsnum) :=
  kept_from fuel (Fin 0) length step.

(** The formula as the specification words it:
    [max(1, floor(sourceLength / targetPointCount))]. *)
Definition lod_step_formula (sourceLength : Z) (targetPointCount : Q) : Z :=
  Z.max 1 (Qfloor (inject_Z sourceLength / targetPointCount)).

End LOD.

(** ** The ring buffer: class CircularBuffer of WaveformChart *)

Module Ring.

Import JS.

Section CircularBuffer.

(** JS numbers and the elements of a [Float32Array]; [fround] is the rounding
    a store into a [Float32Array] applies, [f32_zero] the initial content of a
    fresh array and [f32_nan] what storing [undefined] leaves. *)
Variables number float32 : Type.
Variable fround : number -> float32.
Variables f32_zero f32_nan : float32.

Record CircularBuffer := mkCircularBuffer {
  buffer : list float32;
  timeBuffer : list float32;
  writeIndex : jsnum;
  size : Z;
  isFull : bool
}.

(** [new CircularBuffer(size)] for an integer [size]; a negative length
    makes [new Float32Array] throw a [RangeError]. *)
Definition create (size : Z) : option CircularBuffer :=
  if size <? 0 then None
  else Some {| buffer := replicate (Z.to_nat size) f32_zero;
               timeBuffer := replicate (Z.to_nat size) f32_zero;
               writeIndex := Fin 0;
               size := size;
               isFull := false |}.

(** [array[index] = value]: a store outside the array is ignored. *)
Definition store (array : list float32) (index : jsnum) (value : number)
    : list float32 :=
  match index with
  | Fin i =>
      if (0 <=? i) && (i <? Z.of_nat (length array))
      then <[Z.to_nat i := fround value]> array
      else array
  | _ => array
  end.

(** [array[index]] copied into another [Float32Array]: a read outside the
    array gives [undefined], stored as [NaN]. *)
Definition load (array : list float32) (index : jsnum) : float32 :=
  match index with
  | Fin i =>
      if 0 <=? i then default f32_nan (array !! Z.to_nat i) else f32_nan
  | _ => f32_nan
  end.

(** [array.slice(0, end)]. *)
Definition slice0 (array : list float32) (end_ : jsnum) : list float32 :=
  match end_ with
  | Fin e =>
      if e <? 0 then take (Z.to_nat (Z.of_nat (length array) + e)) array
      else take (Z.to_nat e) array
  | PosInf => array
  | NegInf | NaN => []
  end.

Definition push (b : CircularBuffer) (value time : number) : CircularBuffer :=
  let buffer' := store (buffer b) (writeIndex b) value in
  let timeBuffer' := store (timeBuffer b) (writeIndex b) time in
  let writeIndex' := rem (add (writeIndex b) (Fin 1)) (size b) in
  {| buffer := buffer';
     timeBuffer := timeBuffer';
     writeIndex := writeIndex';
     size := size b;
     isFull := if is_zero writeIndex' then true else isFull b |}.

Record Snapshot := mkSnapshot {
  values : list float32;
  times : list float32;
  length_ : jsnum
}.

Definition getData (b : CircularBuffer) : Snapshot :=
  let length := if isFull b then Fin (size b) else writeIndex b in
  if isFull b then
    let index i := rem (add (writeIndex b) (Fin i)) (size b) in
    {| values := (fun i => load (buffer b) (index i)) <$> seqZ 0 (size b);
       times := (fun i => load (timeBuffer b) (index i)) <$> seqZ 0 (size b);
       length_ := length |}
  else
    {| values := slice0 (buffer b) length;
       times := slice0 (timeBuffer b) length;
       length_ := length |}.

Definition clear (b : CircularBuffer) : CircularBuffer :=
  {| buffer := buffer b;
     timeBuffer := timeBuffer b;
     writeIndex := Fin 0;
     size := size b;
     isFull := false |}.

(** A sequence of [push(value, time)] calls, oldest first. *)
Definition push_all (b : CircularBuffer) (pushes : list (number * number))
    : CircularBuffer :=
  foldl (fun b p => push b (fst p) (snd p)) b pushes.

(** What the buffers hold after the pushes whose stored values are
    [stored], oldest first: the array has [capacity] slots and each of the
    last [capacity] values sits in the slot of its position modulo
    [capacity]. *)
Definition holds_recent (capacity : Z) (stored array : list float32) : Prop :=
  length array = Z.to_nat capacity
  /\ forall p : nat,
       (p < length stored)%nat ->
       Z.of_nat (length stored) <= Z.of_nat p + capacity ->
       array !! Z.to_nat (Z.of_nat p mod capacity) = stored !! p.

(** The state of the buffer after [pushes], for a capacity of at least 1. *)
Definition ring_inv (c : Z) (pushes : list (number * number))
    (b : CircularBuffer) : Prop :=
  size b = c
  /\ writeIndex b = Fin (Z.of_nat (length pushes) mod c)
  /\ isFull b = bool_decide (c <= Z.of_nat (length pushes))
  /\ holds_recent c ((fun p => fround p.1) <$> pushes) (buffer b)
  /\ holds_recent c ((fun p => fround p.2) <$> pushes) (timeBuffer b).

(** The buffer of capacity 0: nothing is ever stored, and the write index is
    [NaN] from the first push on. *)
Definition empty_inv (pushes : list (number * number))
    (b : CircularBuffer) : Prop :=
  buffer b = [] /\ timeBuffer b = [] /\ size b = 0 /\ isFull b = false
  /\ writeIndex b = match pushes with [] => Fin 0 | _ => NaN end.

End CircularBuffer.

Arguments buffer {float32} _.
Arguments timeBuffer {float32} _.
Arguments writeIndex {float32} _.
Arguments size {float32} _.
Arguments isFull {float32} _.
Arguments values {float32} _.
Arguments times {float32} _.
Arguments length_ {float32} _.
Arguments create {float32} f32_zero size.
Arguments store {number float32} fround array index value.
Arguments load {float32} f32_nan array index.
Arguments slice0 {float32} array end_.
Arguments push {number float32} fround b value time.
Arguments getData {float32} f32_nan b.
Arguments clear {float32} b.
Arguments push_all {number float32} fround b pushes.
Arguments holds_recent {float32} capacity stored array.
Arguments ring_inv {number float32} fround c pushes b.
Arguments empty_inv {number float32} pushes b.

End Ring.

(** ** The data service and the gRPC service
       (DAQDataService.cs, DAQStreamService.cs) *)

Module Service.

Record ClientSession := mkClientSession {
  ClientId : string;
  Request : DataRequest;
  CancellationRequested : bool;      (* state of its CancellationTokenSource *)
  IsActive : bool
}.

Record DAQDataService := mkDAQDataService {
  _sessions : gmap string ClientSession;
  _subscribers : gset string;        (* the client ids with a callback *)
  _globalDataGeneration : bool
}.

Definition StartDataGeneration (request : DataRequest) (clientId : string)
    (s : DAQDataService) : DAQDataService :=
  let session := {| ClientId := clientId;
                    Request := request;
                    CancellationRequested := false;
                    IsActive := true |} in
  {| _sessions := <[clientId := session]> (_sessions s);
     _subscribers := _subscribers s;
     _globalDataGeneration := _globalDataGeneration s |}.

Definition StopDataGeneration (clientId : string) (s : DAQDataService)
    : DAQDataService :=
  {| _sessions := delete clientId (_sessions s);
     _subscribers := _subscribers s;
     _globalDataGeneration := _globalDataGeneration s |}.

(** [DAQDataService.Subscribe(clientId, onData)]. *)
Definition RegisterSubscriber (clientId : string) (s : DAQDataService)
    : DAQDataService :=
  {| _sessions := _sessions s;
     _subscribers := {[clientId]} ∪ _subscribers s;
     _globalDataGeneration := _globalDataGeneration s |}.

Definition set_global (flag : bool) (s : DAQDataService) : DAQDataService :=
  {| _sessions := _sessions s;
     _subscribers := _subscribers s;
     _globalDataGeneration := flag |}.

Definition cancel_session (session : ClientSession) : ClientSession :=
  {| ClientId := ClientId session;
     Request := Request session;
     CancellationRequested := true;
     IsActive := false |}.

Definition StartGlobalDataGeneration (s : DAQDataService)
    : bool * DAQDataService :=
  (true, set_global true s).

Definition StopGlobalDataGeneration (s : DAQDataService)
    : bool * DAQDataService :=
  (true,
   {| _sessions := cancel_session <$> _sessions s;
      _subscribers := _subscribers s;
      _globalDataGeneration := false |}).

Definition PauseGlobalDataGeneration (s : DAQDataService)
    : bool * DAQDataService :=
  (true, set_global false s).

Definition ResumeGlobalDataGeneration (s : DAQDataService)
    : bool * DAQDataService :=
  (true, set_global true s).

Definition ResetGlobalDataGeneration (s : DAQDataService)
    : bool * DAQDataService :=
  let '(_, s1) := StopGlobalDataGeneration s in
  let '(_, s2) := StartGlobalDataGeneration s1 in
  (true, s2).

(** [ControlCmd.Types.Command]: the declared values and how an enum value
    prints (an undeclared value prints as its number). *)
Definition Start : Z := 0.
Definition Stop : Z := 1.
Definition Pause : Z := 2.
Definition Resume : Z := 3.
Definition Reset : Z := 4.

Definition known_command (cmd : Z) : Prop :=
  cmd = Start \/ cmd = Stop \/ cmd = Pause \/ cmd = Resume \/ cmd = Reset.

Definition command_name (cmd : Z) : string :=
  match cmd with
  | 0 => "Start"
  | 1 => "Stop"
  | 2 => "Pause"
  | 3 => "Resume"
  | 4 => "Reset"
  | _ => pretty cmd
  end.

(** [DAQStreamService.Control]; [now] is the clock reading of the reply.  The
    five global operations do not throw when they run alone, so the
    [catch] branch is not reached. *)
Definition Control (now : Z) (request : ControlCmd) (s : DAQDataService)
    : Ack * DAQDataService :=
  let '(success, s') :=
    match Cmd request with
    | 0 => StartGlobalDataGeneration s
    | 1 => StopGlobalDataGeneration s
    | 2 => PauseGlobalDataGeneration s
    | 3 => ResumeGlobalDataGeneration s
    | 4 => ResetGlobalDataGeneration s
    | _ => (false, s)
    end in
  let name := command_name (Cmd request) in
  ({| Success := success;
      Message := if success
                 then ("命令 " ++ name ++ " 执行成功")%string
                 else ("命令 " ++ name ++ " 执行失败")%string;
      Timestamp := now |}, s').

Inductive StatusCode := InvalidArgument | Internal.

Inductive Exception :=
  | RpcException (code : StatusCode) (detail : string)
  | OperationCanceledException
  | OtherException (message : string).

Definition status_name (code : StatusCode) : string :=
  match code with
  | InvalidArgument => "InvalidArgument"
  | Internal => "Internal"
  end.

(** [ex.Message]; for an [RpcException] it prints the status (the quotation
    marks it puts around the two fields are left out). *)
Definition exception_message (ex : Exception) : string :=
  match ex with
  | RpcException code detail =>
      ("Status(StatusCode=" ++ status_name code ++ ", Detail=" ++ detail ++ ")")%string
  | OperationCanceledException => "The operation was canceled."
  | OtherException message => message
  end.

(** The target rate [Subscribe] computes and logs, in bytes per second:
    [request.Channels * request.SampleRate * bytesPerSample], a [uint]
    product widened to [long] by the [int] factor. *)
Definition targetDataRate (request : DataRequest) : Z :=
  Int.to_int64 (Int.to_uint32 (Channels request * SampleRate request) * 2).

(** What the [catch (Exception ex)] of [Subscribe] makes of the exception
    its own validation throws. *)
Definition invalid_argument_as_internal : Exception :=
  RpcException Internal
    "数据流传输错误: Status(StatusCode=InvalidArgument, Detail=无效的请求参数)".

(** State of the transport loop of [Subscribe]. *)
Record Transport := mkTransport {
  sequenceNumber : Z;                (* uint *)
  chunksSent : Z;                    (* int, at most 10 *)
  written : list DataChunk           (* what WriteAsync has sent, oldest first *)
}.

Definition transport_start : Transport :=
  {| sequenceNumber := 0; chunksSent := 0; written := [] |}.

(** One evaluation of the condition
    [dataQueue.TryDequeue(out var chunk) && chunksSent < 10] and, when it
    holds, of the loop body.  [dequeued] is what [TryDequeue] returned;
    [clock k] is the value of the [TickNs] expression at the [k]-th write.
    [TryDequeue] runs before the test of [chunksSent]: a chunk dequeued when
    the batch is full is not written.  When the condition fails the outer
    loop starts a new batch. *)
Definition dequeue_step (clock : nat -> Z) (t : Transport)
    (dequeued : option DataChunk) : Transport :=
  match dequeued with
  | Some chunk =>
      if chunksSent t <? 10 then
        let chunk' := {| Payload := Payload chunk;
                         Seq := sequenceNumber t;
                         TickNs := clock (length (written t));
                         Tags := Tags chunk |} in
        {| sequenceNumber := Int.to_uint32 (sequenceNumber t + 1);
           chunksSent := chunksSent t + 1;
           written := written t ++ [chunk'] |}
      else
        {| sequenceNumber := sequenceNumber t;
           chunksSent := 0;
           written := written t |}
  | None =>
      {| sequenceNumber := sequenceNumber t;
         chunksSent := 0;
         written := written t |}
  end.

(** The transport loop over the successive results of [TryDequeue], up to the
    point where the loop is left. *)
Definition transport_loop (clock : nat -> Z) (dequeues : list (option DataChunk))
    : Transport :=
  foldl (dequeue_step clock) transport_start dequeues.

(** What holds of the loop state at every point: the counter is the number
    of chunks written, modulo [2 ^ 32], and the chunks written carry the
    successive values of the counter and of the clock. *)
Definition transport_inv (clock : nat -> Z) (t : Transport) : Prop :=
  sequenceNumber t = Z.of_nat (length (written t)) mod 2 ^ 32
  /\ Seq <$> written t
     = (fun n => Z.of_nat n mod 2 ^ 32) <$> seq 0 (length (written t))
  /\ TickNs <$> written t = clock <$> seq 0 (length (written t)).

(** A long session: the producer is slow, so that every chunk is dequeued
    alone and the next [TryDequeue] finds the queue empty, [2 ^ 32 + 1] times
    over. *)
Definition empty_chunk : DataChunk :=
  {| Payload := []; Seq := 0; TickNs := 0; Tags := ∅ |}.

Definition one_by_one (count : nat) : list (option DataChunk) :=
  mjoin (replicate count [Some empty_chunk; None]).

Definition long_session : list (option DataChunk) :=
  one_by_one (Z.to_nat (2 ^ 32 + 1)).

Record SubscribeResult := mkSubscribeResult {
  thrown : option Exception;         (* what the call throws to gRPC *)
  session_started : bool;            (* StartDataGeneration was called *)
  stream : list DataChunk;           (* the chunks written to responseStream *)
  service : DAQDataService
}.

(** [DAQStreamService.Subscribe].  [clientId] is the fresh GUID,
    [dequeues] the results of [TryDequeue] until the loop is left, and
    [ending] how it is left: [None] when the loop condition sees the
    cancellation, [Some ex] when [WriteAsync] or [Task.Delay] throws [ex]. *)
Definition Subscribe (clientId : string) (clock : nat -> Z)
    (dequeues : list (option DataChunk)) (ending : option Exception)
    (request : DataRequest) (s : DAQDataService) : SubscribeResult :=
  (* try *)
  let '(raised, started, sent, s1) :=
    if (Channels request =? 0) || (SampleRate request =? 0)
       || (BufferSize request =? 0)
    then (Some (RpcException InvalidArgument "无效的请求参数"), false, [], s)
    else
      let s1 := StartDataGeneration request clientId s in
      let s2 := RegisterSubscriber clientId s1 in
      (ending, true, written (transport_loop clock dequeues), s2) in
  (* catch (OperationCanceledException) / catch (Exception ex) *)
  let rethrown :=
    match raised with
    | None => None
    | Some OperationCanceledException => None
    | Some ex =>
        Some (RpcException Internal
                ("数据流传输错误: " ++ exception_message ex)%string)
    end in
  (* finally *)
  {| thrown := rethrown;
     session_started := started;
     stream := sent;
     service := StopDataGeneration clientId s1 |}.

End Service.

(** ** Pacing: GenerateDataForClient and HighPerformanceStreamer *)

Module Pacer.

Local Open Scope Q_scope.

(** The interval [GenerateDataForClient] computes once per session.  [None]
    stands for a quotient that is not finite (a division by zero). *)
Definition samplesPerChunk (request : DataRequest) : Z :=
  Int.to_int32 (BufferSize request).

Definition bytesPerChunk (request : DataRequest) : Z :=
  Int.to_int32 (Channels request * samplesPerChunk request * 2).

Definition samplesPerSecond (request : DataRequest) : Z :=
  Int.to_uint32 (SampleRate request * Channels request).

Definition targetIntervalMs (request : DataRequest) : option Q :=
  if (samplesPerChunk request =? 0)%Z then
    (* x / 0 is an infinity, or NaN for 0 / 0; 1000 / infinity is 0 *)
    if (samplesPerSecond request =? 0)%Z then None else Some 0
  else if (samplesPerSecond request =? 0)%Z then None
  else
    let chunksPerSecond :=
      inject_Z (samplesPerSecond request) / inject_Z (samplesPerChunk request) in
    Some (1000 / chunksPerSecond).

(** [Math.Max(0, targetIntervalMs - generationDuration.TotalMilliseconds)]. *)
Definition targetDelay (targetIntervalMs generationDurationMs : Q) : Q :=
  Qmax 0 (targetIntervalMs - generationDurationMs).

(** What one turn of the [while] loop does: wait 10 ms without generating
    when generation is disabled; otherwise generate one chunk and then
    either call [Task.Delay] or go on at once. *)
Inductive Cycle :=
  | Idle (delayMs : Q)
  | Generate (delayMs : option Q).

Definition cycle (shouldGenerate : bool)
    (targetIntervalMs generationDurationMs : Q) : Cycle :=
  if shouldGenerate then
    let d := targetDelay targetIntervalMs generationDurationMs in
    if Qlt_le_dec 0 d then Generate (Some d) else Generate None
  else Idle 10.

(** [HighPerformanceStreamer]: the interval its constructor computes,
    [Math.max(8, 1000 / chunksPerSecond)].  [None] stands for a result that is
    not finite. *)
Definition chunkInterval (config : Mock.MockConfig) (targetDataRateMBps : Q)
    : option Q :=
  let bytesPerChunk := inject_Z (Mock.channels config * Mock.bufferSize config * 2) in
  let bytesPerSecond := targetDataRateMBps * 1024 * 1024 in
  if Qeq_bool bytesPerChunk 0 then
    (* x / 0 is an infinity, or NaN for 0 / 0; 1000 / infinity is 0 *)
    if Qeq_bool bytesPerSecond 0 then None else Some 8
  else if Qeq_bool bytesPerSecond 0 then
    (* 1000 / 0 is +Infinity; 1000 / -0 is -Infinity, below 8 *)
    if Qle_bool 0 bytesPerChunk then None else Some 8
  else
    let chunksPerSecond := bytesPerSecond / bytesPerChunk in
    Some (Qmax 8 (1000 / chunksPerSecond)).

(** The other copy of mockDataGenerator.ts holds an earlier
    [HighPerformanceStreamer], whose constructor sets the interval to
    [1000 / chunksPerSecond] without a floor and hands it to [setInterval]. *)
Definition chunkInterval_earlier (config : Mock.MockConfig)
    (targetDataRateMBps : Q) : option Q :=
  let bytesPerChunk := inject_Z (Mock.channels config * Mock.bufferSize config * 2) in
  let bytesPerSecond := targetDataRateMBps * 1024 * 1024 in
  if Qeq_bool bytesPerChunk 0 then
    if Qeq_bool bytesPerSecond 0 then None else Some 0
  else if Qeq_bool bytesPerSecond 0 then None
  else
    let chunksPerSecond := bytesPerSecond / bytesPerChunk in
    Some (1000 / chunksPerSecond).

(** The card of the specification's pacing example: 4 channels and 100000
    samples per channel and chunk ([CARD_CONFIGS['PXIe-69846H']]). *)
Definition card_PXIe_69846H : Mock.MockConfig :=
  {| Mock.channels := 4;
     Mock.sampleRate := 40000000;
     Mock.bufferSize := 100000;
     Mock.waveformType := Mock.mixed;
     Mock.amplitude := 1;
     Mock.frequency := 1000;
     Mock.noiseLevel := 0.05 |}.

(** The test of [animationLoop]: a chunk is generated on a frame when the
    interval has elapsed since the last one. *)
Definition due (now lastUpdateTime chunkInterval : Q) : bool :=
  Qle_bool chunkInterval (now - lastUpdateTime).

End Pacer.

(** ** Telemetry: PerformanceMetrics (PerformanceMonitorService.cs) *)

Module Metrics.

Record PerformanceMetrics := mkPerformanceMetrics {
  StartTime : Z;
  LastUpdateTime : Z;
  TotalBytesSent : Z;                (* long *)
  TotalPacketsSent : Z;              (* long *)
  LatencyCount : Z;                  (* long *)
  LatencySum : Q;
  MinLatency : Q;
  MaxLatency : Q;
  LatencyDistribution : list Z       (* long[6] *)
}.

(** [new PerformanceMetrics()] at clock reading [now]. *)
Definition create (now : Z) : PerformanceMetrics :=
  {| StartTime := now;
     LastUpdateTime := now;
     TotalBytesSent := 0;
     TotalPacketsSent := 0;
     LatencyCount := 0;
     LatencySum := 0;
     MinLatency := 0;
     MaxLatency := 0;
     LatencyDistribution := replicate 6 0 |}.

(** The update [RecordDataSent] applies to one metrics object. *)
Definition RecordDataSent (now : Z) (bytes : Z) (m : PerformanceMetrics)
    : PerformanceMetrics :=
  {| StartTime := StartTime m;
     LastUpdateTime := now;
     TotalBytesSent := Int.to_int64 (TotalBytesSent m + bytes);
     TotalPacketsSent := Int.to_int64 (TotalPacketsSent m + 1);
     LatencyCount := LatencyCount m;
     LatencySum := LatencySum m;
     MinLatency := MinLatency m;
     MaxLatency := MaxLatency m;
     LatencyDistribution := LatencyDistribution m |}.

(** The bucket [UpdateLatencyStats] increments. *)
Definition bucket (latencyMs : Q) : nat :=
  if Qle_bool latencyMs 1 then 0%nat
  else if Qle_bool latencyMs 5 then 1%nat
  else if Qle_bool latencyMs 10 then 2%nat
  else if Qle_bool latencyMs 50 then 3%nat
  else if Qle_bool latencyMs 100 then 4%nat
  else 5%nat.

Definition Qlt_bool (a b : Q) : bool := negb (Qle_bool b a).

Definition UpdateLatencyStats (m : PerformanceMetrics) (latencyMs : Q)
    : PerformanceMetrics :=
  {| StartTime := StartTime m;
     LastUpdateTime := LastUpdateTime m;
     TotalBytesSent := TotalBytesSent m;
     TotalPacketsSent := TotalPacketsSent m;
     LatencyCount := Int.to_int64 (LatencyCount m + 1);
     LatencySum := (LatencySum m + latencyMs)%Q;
     MinLatency := if Qlt_bool latencyMs (MinLatency m)
                      || Qeq_bool (MinLatency m) 0
                   then latencyMs else MinLatency m;
     MaxLatency := if Qlt_bool (MaxLatency m) latencyMs
                   then latencyMs else MaxLatency m;
     LatencyDistribution :=
       alter (fun n => Int.to_int64 (n + 1)) (bucket latencyMs)
             (LatencyDistribution m) |}.

(** [Reset] is four steps, each atomic on its own: two
    [Interlocked.Exchange], the block under [lock (LatencyLock)], and the
    write of [LastUpdateTime]. *)
Inductive ResetStep :=
  | ExchangeBytes
  | ExchangePackets
  | ClearLatencyUnderLock
  | WriteLastUpdate.

Definition reset_step (now : Z) (m : PerformanceMetrics) (step : ResetStep)
    : PerformanceMetrics :=
  match step with
  | ExchangeBytes =>
      {| StartTime := StartTime m; LastUpdateTime := LastUpdateTime m;
         TotalBytesSent := 0; TotalPacketsSent := TotalPacketsSent m;
         LatencyCount := LatencyCount m; LatencySum := LatencySum m;
         MinLatency := MinLatency m; MaxLatency := MaxLatency m;
         LatencyDistribution := LatencyDistribution m |}
  | ExchangePackets =>
      {| StartTime := StartTime m; LastUpdateTime := LastUpdateTime m;
         TotalBytesSent := TotalBytesSent m; TotalPacketsSent := 0;
         LatencyCount := LatencyCount m; LatencySum := LatencySum m;
         MinLatency := MinLatency m; MaxLatency := MaxLatency m;
         LatencyDistribution := LatencyDistribution m |}
  | ClearLatencyUnderLock =>
      {| StartTime := StartTime m; LastUpdateTime := LastUpdateTime m;
         TotalBytesSent := TotalBytesSent m;
         TotalPacketsSent := TotalPacketsSent m;
         LatencyCount := 0; LatencySum := 0;
         MinLatency := 0; MaxLatency := 0;
         LatencyDistribution := (fun _ => 0) <$> LatencyDistribution m |}
  | WriteLastUpdate =>
      {| StartTime := StartTime m; LastUpdateTime := now;
         TotalBytesSent := TotalBytesSent m;
         TotalPacketsSent := TotalPacketsSent m;
         LatencyCount := LatencyCount m; LatencySum := LatencySum m;
         MinLatency := MinLatency m; MaxLatency := MaxLatency m;
         LatencyDistribution := LatencyDistribution m |}
  end.

Definition reset_program : list ResetStep :=
  [ExchangeBytes; ExchangePackets; ClearLatencyUnderLock; WriteLastUpdate].

Definition Reset (now : Z) (m : PerformanceMetrics) : PerformanceMetrics :=
  foldl (reset_step now) m reset_program.

(** The states between the steps of [Reset], which a reader running beside
    it can find even when it takes [LatencyLock] for its reads: the state
    after [k] of the four steps, for [k] from 0 to 4. *)
Definition Reset_states (now : Z) (m : PerformanceMetrics)
    : list PerformanceMetrics :=
  (fun k => foldl (reset_step now) m (take k reset_program)) <$> seq 0 5.

(** A metrics object with some traffic: three packets of 100 bytes and one
    latency of 2 ms, recorded at clock readings 1 to 3. *)
Definition busy_metrics : PerformanceMetrics :=
  UpdateLatencyStats
    (RecordDataSent 3 100 (RecordDataSent 2 100 (RecordDataSent 1 100 (create 0))))
    2.

(** The six counted fields all read zero. *)
Definition cleared (m : PerformanceMetrics) : Prop :=
  TotalBytesSent m = 0 /\ TotalPacketsSent m = 0 /\
  LatencyCount m = 0 /\ LatencySum m = 0%Q /\
  MinLatency m = 0%Q /\ MaxLatency m = 0%Q /\
  LatencyDistribution m = [0; 0; 0; 0; 0; 0].

End Metrics.

(** ** The browser's decoder: RealDataService.convertDataChunkToFloat32Arrays *)

Module Client.

(** [chunk.payload[index]] on a [Uint8Array], inside a bitwise expression
    (where [undefined] counts as 0). *)
Definition byte_at (payload : list Z) (index : Z) : Z :=
  if index <? 0 then 0 else default 0 (payload !! Z.to_nat index).

(** The entry [channelData[i]] of channel [ch]: the two bytes are combined
    without sign extension and divided by 32768; an entry whose bytes lie
    outside the payload keeps the 0 of the fresh array.  The quotient of an
    integer below [2 ^ 16] by [2 ^ 15] is a single-precision number, so the
    store into the [Float32Array] keeps it as it is. *)
Definition channel_entry (payload : list Z) (channels ch i : Z) : Q :=
  let byteIndex := (i * channels + ch) * 2 in
  if byteIndex + 1 <? Z.of_nat (length payload) then
    let value :=
      Z.lor (byte_at payload byteIndex)
            (Z.shiftl (byte_at payload (byteIndex + 1)) 8) in
    (inject_Z value / 32768)%Q
  else 0%Q.

(** For [channels <= 0] the loop over the channels does not run. *)
Definition convertDataChunkToFloat32Arrays (payload : list Z) (channels : Z)
    : list (list Q) :=
  if channels <=? 0 then []
  else
    let samplesPerChannel := Z.of_nat (length payload) / (2 * channels) in
    (fun ch => channel_entry payload channels ch <$> seqZ 0 samplesPerChannel)
      <$> seqZ 0 channels.

End Client.

(** ** The producer task: DAQDataService.GenerateDataForClient *)

Module Producer.

(** The tags every generated chunk carries. *)
Definition chunk_tags (clientId : string) (request : DataRequest)
    : gmap string string :=
  <["bufferSize" := pretty (BufferSize request)]>
    (<["sampleRate" := pretty (SampleRate request)]>
       (<["channels" := pretty (Channels request)]>
          (<["clientId" := clientId]> ∅))).

Record Producer := mkProducer {
  sequenceNumber : Z;                (* uint *)
  delivered : list DataChunk;        (* what the subscriber was handed *)
  faulted : bool                     (* the generator threw: the task ended *)
}.

Definition producer_start : Producer :=
  {| sequenceNumber := 0; delivered := []; faulted := false |}.

(** What the loop meets on one turn: the global flag, whether a subscriber
    is registered for the client, the clock reading of [TickNs], and the
    values [Random.Shared.NextDouble()] returns while the chunk is
    generated. *)
Record Turn := mkTurn {
  shouldGenerate : bool;
  subscribed : bool;
  tickNs : Z;
  noise : Z -> R
}.

(** One turn of the [while] loop.  With the flag off the turn waits and
    changes nothing; an exception of the generator ends the task. *)
Definition turn (clientId : string) (request : DataRequest)
    (p : Producer) (t : Turn) : Producer :=
  if faulted p then p
  else if shouldGenerate t then
    match Synth.GenerateHighPerformanceData (noise t) request
            (sequenceNumber p) with
    | None =>
        {| sequenceNumber := sequenceNumber p;
           delivered := delivered p;
           faulted := true |}
    | Some payload =>
        let chunk := {| Payload := payload;
                        Seq := sequenceNumber p;
                        TickNs := tickNs t;
                        Tags := chunk_tags clientId request |} in
        {| sequenceNumber := Int.to_uint32 (sequenceNumber p + 1);
           delivered := if subscribed t then delivered p ++ [chunk]
                        else delivered p;
           faulted := false |}
    end
  else p.

Definition run (clientId : string) (request : DataRequest)
    (turns : list Turn) : Producer :=
  foldl (turn clientId request) producer_start turns.




End Producer.

(** ** The monitor service: PerformanceMonitorService *)

Module Monitor.

Import Metrics.

Record PerformanceMonitorService := mkMonitor {
  _globalMetrics : PerformanceMetrics;
  _clientMetrics : gmap string PerformanceMetrics
}.

(** [!string.IsNullOrEmpty(clientId)]: [None] is [null]. *)
Definition names_client (clientId : option string) : option string :=
  match clientId with
  | Some id => if decide (id = ""%string) then None else Some id
  | None => None
  end.

(** [_clientMetrics.GetOrAdd(clientId, _ => new PerformanceMetrics())];
    [createdAt] is the clock reading of a new object. *)
Definition GetOrAdd (createdAt : Z) (id : string)
    (clients : gmap string PerformanceMetrics) : PerformanceMetrics :=
  default (create createdAt) (clients !! id).

Definition RecordDataSent (now createdAt : Z) (bytes : Z)
    (clientId : option string) (s : PerformanceMonitorService)
    : PerformanceMonitorService :=
  {| _globalMetrics := Metrics.RecordDataSent now bytes (_globalMetrics s);
     _clientMetrics :=
       match names_client clientId with
       | Some id =>
           <[id := Metrics.RecordDataSent now bytes
                     (GetOrAdd createdAt id (_clientMetrics s))]>
             (_clientMetrics s)
       | None => _clientMetrics s
       end |}.

Definition RecordLatency (createdAt : Z) (latencyMs : Q)
    (clientId : option string) (s : PerformanceMonitorService)
    : PerformanceMonitorService :=
  {| _globalMetrics := UpdateLatencyStats (_globalMetrics s) latencyMs;
     _clientMetrics :=
       match names_client clientId with
       | Some id =>
           <[id := UpdateLatencyStats
                     (GetOrAdd createdAt id (_clientMetrics s)) latencyMs]>
             (_clientMetrics s)
       | None => _clientMetrics s
       end |}.

(** [GetClientMetrics]: the metrics object the snapshot is taken of, [None]
    for [null]. *)
Definition GetClientMetrics (clientId : string) (s : PerformanceMonitorService)
    : option PerformanceMetrics :=
  _clientMetrics s !! clientId.

Definition ClearClientMetrics (clientId : string)
    (s : PerformanceMonitorService) : PerformanceMonitorService :=
  {| _globalMetrics := _globalMetrics s;
     _clientMetrics := delete clientId (_clientMetrics s) |}.

Definition ResetMetrics (now : Z) (s : PerformanceMonitorService)
    : PerformanceMonitorService :=
  {| _globalMetrics := Reset now (_globalMetrics s);
     _clientMetrics := ∅ |}.

(** [TimeSpan.FromMinutes(5)], in the unit of the clock readings
    (ticks of 100 ns). *)
Definition five_minutes : Z := 5 * 60 * 10000000.

(** The timer callback [UpdateMetrics]: clients without an update for more
    than five minutes are removed. *)
Definition UpdateMetrics (now : Z) (s : PerformanceMonitorService)
    : PerformanceMonitorService :=
  {| _globalMetrics := _globalMetrics s;
     _clientMetrics :=
       filter (fun kv => ¬ (five_minutes < now - LastUpdateTime kv.2))
              (_clientMetrics s) |}.

(** The rates and the average [GetMetricsSnapshot] reports. *)
Record Rates := mkRates {
  RateMBps : Q;
  PacketRate : Q;
  EfficiencyPercent : Q;
  AverageLatency : Q
}.

Definition GetMetricsSnapshot (m : PerformanceMetrics) (totalSeconds : Q)
    : Rates :=
  let dataRateMBps :=
    if Qlt_le_dec 0 totalSeconds
    then (inject_Z (TotalBytesSent m) / totalSeconds / (1024 * 1024))%Q
    else 0%Q in
  let packetRate :=
    if Qlt_le_dec 0 totalSeconds
    then (inject_Z (TotalPacketsSent m) / totalSeconds)%Q
    else 0%Q in
  let avgLatency :=
    if 0 <? LatencyCount m
    then (LatencySum m / inject_Z (LatencyCount m))%Q
    else 0%Q in
  {| RateMBps := dataRateMBps;
     PacketRate := packetRate;
     EfficiencyPercent := Qmin 100 (dataRateMBps / 640 * 100);
     AverageLatency := avgLatency |}.

(** Sums of the entries of a list. *)
Definition total (l : list Z) : Z := foldr Z.add 0 l.

Definition Qtotal (l : list Q) : Q := foldr Qplus 0%Q l.

(** The number of latencies that fall into bucket [k]. *)
Definition in_bucket (k : nat) (ls : list Q) : Z :=
  Z.of_nat (length (filter (fun l => bucket l = k) ls)).

(** What holds of a metrics object after the latencies [ls] were recorded
    into a cleared one. *)
Definition histogram_inv (ls : list Q) (m : PerformanceMetrics) : Prop :=
  LatencyCount m = Z.of_nat (length ls)
  /\ (forall k : nat, (k < 6)%nat ->
        LatencyDistribution m !! k = Some (in_bucket k ls))
  /\ length (LatencyDistribution m) = 6%nat
  /\ total (LatencyDistribution m) = Z.of_nat (length ls)
  /\ (LatencySum m == Qtotal ls)%Q.

Definition max_inv (ls : list Q) (m : PerformanceMetrics) : Prop :=
  (0 <= MaxLatency m)%Q
  /\ Forall (fun l => (l <= MaxLatency m)%Q) ls
  /\ (MaxLatency m = 0%Q \/ MaxLatency m ∈ ls).

Definition min_inv (ls : list Q) (m : PerformanceMetrics) : Prop :=
  match ls with
  | [] => MinLatency m = 0%Q
  | _ => (0 < MinLatency m)%Q
         /\ Forall (fun l => (MinLatency m <= l)%Q) ls
         /\ MinLatency m ∈ ls
  end.

(** The calls [RecordDataSent(bytes)] without a client name, as the
    transport loop of [Subscribe] makes them after each write: [calls] holds
    the clock reading and the byte count of each. *)
Definition record_calls (calls : list (Z * Z)) (s : PerformanceMonitorService)
    : PerformanceMonitorService :=
  foldl (fun s call => RecordDataSent call.1 call.1 call.2 None s) s calls.

End Monitor.

(** ** What the transport loop keeps of a dequeued chunk *)

Module TransportLoop.

Import Service.

(** The fields of a chunk the loop does not overwrite. *)
Definition content (chunk : DataChunk) : list Z * gmap string string :=
  (Payload chunk, Tags chunk).

(** The state of the loop after [chunks] were dequeued one right after the
    other, the queue never found empty. *)
Definition backlog_inv (chunks : list DataChunk) (t : Transport) : Prop :=
  chunksSent t = Z.of_nat (length chunks) mod 11
  /\ Z.of_nat (length (written t))
     = Z.of_nat (length chunks) - Z.of_nat (length chunks) / 11
  /\ forall i : nat,
       (i < length chunks)%nat -> Z.of_nat i mod 11 <> 10 ->
       (content <$> written t) !! Z.to_nat (Z.of_nat i - Z.of_nat i / 11)
       = (content <$> chunks) !! i.

End TransportLoop.

(** ** The frame loop of HighPerformanceStreamer *)

Module Streamer.

(** The part of [performanceStats] the loop reads and writes. *)
Record Stats := mkStats {
  lastUpdateTime : Q;
  frameCount : Z
}.

(** [start(onData)] at clock reading [startTime]. *)
Definition start (startTime : Q) : Stats :=
  {| lastUpdateTime := startTime; frameCount := 0 |}.

(** One call of [animationLoop] at clock reading [now], while a callback is
    set: when the interval has elapsed, [generateData] produces a chunk and
    counts the frame. *)
Definition animationLoop (chunkInterval : Q) (stats : Stats) (now : Q) : Stats :=
  if Pacer.due now (lastUpdateTime stats) chunkInterval
  then {| lastUpdateTime := now; frameCount := frameCount stats + 1 |}
  else stats.

(** The animation frames at the clock readings [frames], in order. *)
Definition run (chunkInterval startTime : Q) (frames : list Q) : Stats :=
  foldl (animationLoop chunkInterval) (start startTime) frames.

End Streamer.

(** ** The state of MockDataGenerator: generateChunk and reset *)

Module MockGenerator.

Record State := mkState {
  sampleCounter : Z;
  sequenceNumber : Z
}.

Record Metadata := mkMetadata {
  seq : Z;
  timestamp : R;
  sampleRate : Z;
  channels : Z;
  bytesPerSecond : Z
}.

Record Chunk := mkChunk {
  data : list (list R);
  metadata : Metadata
}.

(** A new generator, and [reset()]. *)
Definition initial : State := {| sampleCounter := 0; sequenceNumber := 0 |}.

Definition reset (st : State) : State := initial.

Section Chunks.

(** The rounding a store into a [Float32Array] applies, and the values of
    [Math.random()]: [random1 seq ch i] is what [generateSample] draws for
    the [noise] waveform and [random2 seq ch i] what the additive noise draws,
    for sample [i] of channel [ch] of chunk [seq]. *)
Variable fround : R -> R.
Variables random1 random2 : Z -> Z -> Z -> R.

(** [generateChunk()]; [elapsed] is [performance.now() - this.startTime].
    [None] stands for the [RangeError] of [new Float32Array(bufferSize)] for
    a negative size. *)
Definition generateChunk (config : Mock.MockConfig) (elapsed : R) (st : State)
    : option (Chunk * State) :=
  if (0 <? Mock.channels config) && (Mock.bufferSize config <? 0) then None
  else
    let samples ch :=
      (fun i =>
         fround (Mock.chunk_sample config (sampleCounter st)
                   (random1 (sequenceNumber st) ch i)
                   (random2 (sequenceNumber st) ch i) ch i))
        <$> seqZ 0 (Mock.bufferSize config) in
    Some ({| data := samples <$> seqZ 0 (Mock.channels config);
             metadata :=
               {| seq := sequenceNumber st;
                  timestamp := elapsed;
                  sampleRate := Mock.sampleRate config;
                  channels := Mock.channels config;
                  bytesPerSecond :=
                    Mock.channels config * Mock.sampleRate config * 2 |} |},
          {| sampleCounter := sampleCounter st + Mock.bufferSize config;
             sequenceNumber := sequenceNumber st + 1 |}).

(** Successive calls of [generateChunk()], one per clock reading. *)
Fixpoint generateChunks (config : Mock.MockConfig) (elapsed : list R)
    (st : State) : option (list Chunk * State) :=
  match elapsed with
  | [] => Some ([], st)
  | e :: rest =>
      match generateChunk config e st with
      | Some (chunk, st') =>
          match generateChunks config rest st' with
          | Some (chunks, st'') => Some (chunk :: chunks, st'')
          | None => None
          end
      | None => None
      end
  end.

(** What holds of the chunks successive calls return, starting with chunk
    number [first]. *)
Definition continues (config : Mock.MockConfig) (elapsed : list R)
    (first : Z) (chunks : list Chunk) : Prop :=
  length chunks = length elapsed
  /\ forall (k : nat) (chunk : Chunk),
       chunks !! k = Some chunk ->
       seq (metadata chunk) = first + Z.of_nat k
       /\ Some (timestamp (metadata chunk)) = elapsed !! k
       /\ bytesPerSecond (metadata chunk)
          = Mock.channels config * Mock.sampleRate config * 2
       /\ length (data chunk) = Z.to_nat (Mock.channels config)
       /\ forall ch i : Z,
            0 <= ch < Mock.channels config ->
            0 <= i < Mock.bufferSize config ->
            exists samples,
              data chunk !! Z.to_nat ch = Some samples
              /\ length samples = Z.to_nat (Mock.bufferSize config)
              /\ samples !! Z.to_nat i
                 = Some (fround
                           (Mock.chunk_sample config 0
                              (random1 (first + Z.of_nat k) ch i)
                              (random2 (first + Z.of_nat k) ch i) ch
                              ((first + Z.of_nat k) * Mock.bufferSize config
                               + i))).

End Chunks.

End MockGenerator.

(** * Properties *)

(** ** Machine integers *)

Lemma to_int32_small z : - 2 ^ 31 <= z <= Int.max_int32 -> Int.to_int32 z = z.
Proof.
  unfold Int.to_int32, Int.max_int32. intros Hz.
  rewrite Z.mod_small by lia. lia.
Qed.

Lemma to_uint32_small z : 0 <= z < 2 ^ 32 -> Int.to_uint32 z = z.
Proof. intros Hz. unfold Int.to_uint32. now apply Z.mod_small. Qed.

Lemma to_uint32_range z : 0 <= Int.to_uint32 z < 2 ^ 32.
Proof. unfold Int.to_uint32. apply Z.mod_pos_bound. lia. Qed.

(** ** Level of detail *)

Section LODProperties.

Import JS LOD.

Lemma floor_div_pos (a : Z) (b : Q) :
  (0 < b)%Q -> floor_div a b = Fin (Qfloor (inject_Z a / b)).
Proof.
  intros Hb. unfold floor_div.
  destruct (Qeq_bool b 0) eqn:E; [|reflexivity].
  apply Qeq_bool_iff in E. rewrite E in Hb. now apply Qlt_irrefl in Hb.
Qed.

Lemma plot_step_formula (length : Z) (maxPoints : Q) :
  (0 < maxPoints)%Q -> plot_step length maxPoints = Fin (lod_step_formula length maxPoints).
Proof. intros H. unfold plot_step. now rewrite floor_div_pos. Qed.

Lemma calculateOptimalStep_formula (dataLength : Z) (targetPoints : Q) :
  (0 < targetPoints)%Q ->
  calculateOptimalStep dataLength targetPoints
  = Fin (lod_step_formula dataLength targetPoints).
Proof.
  intros Hpos. unfold calculateOptimalStep, lod_step_formula.
  destruct (Qle_bool (inject_Z dataLength) targetPoints) eqn:E.
  - apply Qle_bool_iff in E. f_equal.
    assert (H1 : (inject_Z dataLength / targetPoints <= 1)%Q).
    { apply Qle_shift_div_r; [exact Hpos|]. now rewrite Qmult_1_l. }
    apply Qfloor_resp_le in H1. change (Qfloor 1) with 1 in H1. lia.
  - now rewrite floor_div_pos.
Qed.

(** The loop leaves by its own test once the index has reached the length:
    with a step of at least 1, [length] turns are enough. *)
Lemma kept_from_fuel (fuel : nat) (i length step : Z) :
  1 <= step -> 0 <= i -> length - i <= Z.of_nat fuel ->
  exists kept, kept_from fuel (Fin i) length (Fin step) = Some kept
    /\ kept = (fun k => Fin (i + step * k)) <$> seqZ 0 ((length - i + step - 1) / step).
Proof.
  intros Hs. revert i. induction fuel as [|fuel IH]; intros i Hi Hfuel.
  - cbn [kept_from lt_int]. destruct (i <? length) eqn:E; [lia|].
    eexists; split; [reflexivity|].
    assert (Hq : (length - i + step - 1) / step <= 0).
    { apply Z.lt_succ_r. apply Z.div_lt_upper_bound; lia. }
    now rewrite seqZ_nil by lia.
  - cbn [kept_from lt_int add]. destruct (i <? length) eqn:E.
    + destruct (IH (i + step)) as (rest & Hrest & Heq); [lia|lia|].
      rewrite Hrest. eexists; split; [reflexivity|]. subst rest.
      assert (Hq : (length - i + step - 1) / step
                   = Z.succ ((length - (i + step) + step - 1) / step)).
      { replace (length - i + step - 1)
          with ((length - (i + step) + step - 1) + 1 * step) by lia.
        rewrite Z.div_add by lia. lia. }
      rewrite Hq.
      assert (Hn : 0 <= (length - (i + step) + step - 1) / step).
      { apply Z.div_pos; lia. }
      rewrite (seqZ_cons 0 (Z.succ _)) by lia.
      rewrite Z.pred_succ. cbn [fmap list_fmap]. f_equal; [f_equal; lia|].
      rewrite <- (fmap_add_seqZ 1 0), <- list_fmap_compose.
      apply list_fmap_ext. intros _ k _. cbn. f_equal. lia.
    + eexists; split; [reflexivity|].
      assert (Hq : (length - i + step - 1) / step <= 0).
      { apply Z.lt_succ_r. apply Z.div_lt_upper_bound; lia. }
      now rewrite seqZ_nil by lia.
Qed.

End LODProperties.

(** C4.  The level-of-detail step is [max(1, floor(sourceLength /
    targetPointCount))] for every length and every positive target, in
    [calculateOptimalStep] and in the step of [convertDataToPlot]; for
    [sourceLength = 100000] and [targetPointCount = 500] the step is 200, and
    the loop [for (i = 0; i < 100000; i += 200)] keeps the indices
    [0, 200, ..., 99800]: 500 points, at most [targetPointCount + 1]. *)
Theorem lod_step_and_count :
  (forall (sourceLength : Z) (targetPointCount : Q),
      (0 < targetPointCount)%Q ->
      LOD.calculateOptimalStep sourceLength targetPointCount
      = JS.Fin (LOD.lod_step_formula sourceLength targetPointCount)
      /\ LOD.plot_step sourceLength targetPointCount
         = JS.Fin (LOD.lod_step_formula sourceLength targetPointCount))
  /\ LOD.calculateOptimalStep 100000 500%Q = JS.Fin 200
  /\ LOD.plot_step 100000 500%Q = JS.Fin 200
  /\ exists kept,
       LOD.kept_indices (Z.to_nat 100000) 100000 (JS.Fin 200) = Some kept
       /\ kept = (fun k => JS.Fin (200 * k)) <$> seqZ 0 500
       /\ (length kept <= 500 + 1)%nat.
Proof.
  split; [|split; [|split]].
  - intros len target Hpos. split.
    + now apply calculateOptimalStep_formula.
    + now apply plot_step_formula.
  - reflexivity.
  - reflexivity.
  - destruct (kept_from_fuel (Z.to_nat 100000) 0 100000 200) as (kept & Hk & Heq);
      [lia|lia|lia|].
    exists kept. split; [exact Hk|].
    change ((100000 - 0 + 200 - 1) / 200) with 500 in Heq.
    split.
    + rewrite Heq. apply list_fmap_ext. intros _ k _. reflexivity.
    + rewrite Heq, length_fmap, length_seqZ. lia.
Qed.

Lemma lod_step_and_count_witness :
  LOD.calculateOptimalStep 999 500%Q = JS.Fin (LOD.lod_step_formula 999 500%Q)
  /\ (0 < 500)%Q.
Proof.
  split; [apply (proj1 lod_step_and_count 999 500%Q); reflexivity | reflexivity].
Defined.

(** The bound [targetPointCount + 1] belongs to that instance: a length just
    below twice the target is kept whole. *)
Lemma lod_count_just_below_twice_the_target :
  LOD.calculateOptimalStep 999 500%Q = JS.Fin 1
  /\ exists kept,
       LOD.kept_indices (Z.to_nat 999) 999 (JS.Fin 1) = Some kept
       /\ length kept = 999%nat.
Proof.
  split; [reflexivity|].
  destruct (kept_from_fuel (Z.to_nat 999) 0 999 1) as (kept & Hk & Heq);
    [lia|lia|lia|].
  exists kept. split; [exact Hk|].
  change ((999 - 0 + 1 - 1) / 1) with 999 in Heq.
  rewrite Heq, length_fmap, length_seqZ. lia.
Qed.

(** ** Control *)

Section ControlProperties.

Import Service.

Lemma cancel_session_idemp (session : ClientSession) :
  cancel_session (cancel_session session) = cancel_session session.
Proof. reflexivity. Qed.

Lemma cancel_all_idemp (sessions : gmap string ClientSession) :
  cancel_session <$> (cancel_session <$> sessions) = cancel_session <$> sessions.
Proof.
  apply map_eq. intros k. rewrite !lookup_fmap.
  destruct (sessions !! k) as [session|]; reflexivity.
Qed.

Lemma command_name_unknown (cmd : Z) :
  cmd < 0 \/ 4 < cmd -> command_name cmd = pretty cmd.
Proof.
  intros H. unfold command_name.
  destruct cmd as [|p|p]; [lia| |reflexivity].
  repeat (match goal with p : positive |- _ => destruct p end;
          try reflexivity; try lia).
Qed.

Lemma Control_unknown (now : Z) (request : ControlCmd) (s : DAQDataService) :
  Cmd request < 0 \/ 4 < Cmd request ->
  Control now request s
  = ({| Success := false;
        Message := ("命令 " ++ pretty (Cmd request) ++ " 执行失败")%string;
        Timestamp := now |}, s).
Proof.
  intros H. unfold Control. rewrite (command_name_unknown _ H).
  destruct (Cmd request) as [|p|p]; [lia| |reflexivity].
  repeat (match goal with p : positive |- _ => destruct p end;
          try reflexivity; try lia).
Qed.

Lemma Control_known_success (now : Z) (request : ControlCmd) (s : DAQDataService) :
  known_command (Cmd request) ->
  (Control now request s).1
  = {| Success := true;
       Message := ("命令 " ++ command_name (Cmd request) ++ " 执行成功")%string;
       Timestamp := now |}.
Proof.
  unfold known_command, Start, Stop, Pause, Resume, Reset, Control.
  intros [H|[H|[H|[H|H]]]]; rewrite H; reflexivity.
Qed.

Lemma Control_known_idemp (now now' : Z) (request : ControlCmd) (s : DAQDataService) :
  known_command (Cmd request) ->
  (Control now' request (Control now request s).2).2 = (Control now request s).2.
Proof.
  unfold known_command, Start, Stop, Pause, Resume, Reset, Control.
  intros [H|[H|[H|[H|H]]]]; rewrite H; cbn; try reflexivity.
  - unfold set_global; cbn. now rewrite cancel_all_idemp.
  - unfold set_global; cbn. now rewrite cancel_all_idemp.
Qed.

End ControlProperties.

(** C8.  [Control] answers an unknown command with [Success = false] and the
    message "命令 <number> 执行失败", leaving the service as it was; it
    answers each of START, STOP, PAUSE, RESUME and RESET with
    [Success = true] and a message, whatever the state of the service;
    repeating a known command leaves the state the first one produced, and
    START while generation is already enabled changes nothing. *)
Theorem Control_ack :
  (forall (now : Z) (request : ControlCmd) (s : Service.DAQDataService),
      Cmd request < 0 \/ 4 < Cmd request ->
      let '(ack, s') := Service.Control now request s in
      Success ack = false
      /\ Message ack = ("命令 " ++ pretty (Cmd request) ++ " 执行失败")%string
      /\ Message ack <> ""%string
      /\ s' = s)
  /\ (forall (now : Z) (request : ControlCmd) (s : Service.DAQDataService),
         Service.known_command (Cmd request) ->
         let '(ack, s') := Service.Control now request s in
         Success ack = true
         /\ Message ack
            = ("命令 " ++ Service.command_name (Cmd request) ++ " 执行成功")%string
         /\ forall now', (Service.Control now' request s').2 = s')
  /\ (forall (now : Z) (params : gmap string string) (s : Service.DAQDataService),
         Service._globalDataGeneration s = true ->
         Service.Control now {| Cmd := Service.Start; Params := params |} s
         = ({| Success := true; Message := "命令 Start 执行成功"; Timestamp := now |},
            s)).
Proof.
  split; [|split].
  - intros now request s H. rewrite (Control_unknown now request s H); cbn.
    repeat split. discriminate.
  - intros now request s H.
    pose proof (Control_known_success now request s H) as Hs.
    pose proof (fun now' => Control_known_idemp now now' request s H) as Hi.
    destruct (Service.Control now request s) as [ack s']. cbn in Hs, Hi.
    subst ack. cbn. repeat split. exact Hi.
  - intros now params s H. unfold Service.Control; cbn.
    f_equal. destruct s as [sessions subs flag]. cbn in H. now subst flag.
Qed.

Lemma Control_ack_witness :
  (Service.Control 0 {| Cmd := 9; Params := ∅ |}
     {| Service._sessions := ∅; Service._subscribers := ∅;
        Service._globalDataGeneration := false |}).1
  = {| Success := false; Message := "命令 9 执行失败"; Timestamp := 0 |}
  /\ Success
       (Service.Control 0 {| Cmd := Service.Reset; Params := ∅ |}
          {| Service._sessions := ∅; Service._subscribers := ∅;
             Service._globalDataGeneration := false |}).1 = true.
Proof.
  split.
  - reflexivity.
  - pose proof (proj1 (proj2 Control_ack) 0 {| Cmd := Service.Reset; Params := ∅ |}
                  {| Service._sessions := ∅; Service._subscribers := ∅;
                     Service._globalDataGeneration := false |}) as H.
    cbv beta in H.
    destruct (Service.Control 0 _ _) as [ack s'].
    apply H. unfold Service.known_command. auto.
Defined.

(** ** Subscribe: validation *)

Section SubscribeValidation.

Import Service.

Lemma Subscribe_zero_parameter (clientId : string) (clock : nat -> Z)
    (dequeues : list (option DataChunk)) (ending : option Exception)
    (request : DataRequest) (s : DAQDataService) :
  Channels request = 0 \/ SampleRate request = 0 \/ BufferSize request = 0 ->
  Subscribe clientId clock dequeues ending request s
  = {| thrown := Some invalid_argument_as_internal;
       session_started := false;
       stream := [];
       service := StopDataGeneration clientId s |}.
Proof.
  intros H. unfold Subscribe.
  assert (E : (Channels request =? 0) || (SampleRate request =? 0)
              || (BufferSize request =? 0) = true).
  { destruct H as [H|[H|H]]; rewrite H; cbn;
      rewrite ?orb_true_r; reflexivity. }
  rewrite E. reflexivity.
Qed.

Lemma Subscribe_positive_parameters (clientId : string) (clock : nat -> Z)
    (dequeues : list (option DataChunk)) (ending : option Exception)
    (request : DataRequest) (s : DAQDataService) :
  0 < Channels request -> 0 < SampleRate request -> 0 < BufferSize request ->
  let r := Subscribe clientId clock dequeues ending request s in
  session_started r = true
  /\ stream r = written (transport_loop clock dequeues)
  /\ (ending = None \/ ending = Some OperationCanceledException -> thrown r = None).
Proof.
  intros Hc Hr Hb. unfold Subscribe.
  assert (E : (Channels request =? 0) || (SampleRate request =? 0)
              || (BufferSize request =? 0) = false).
  { rewrite !orb_false_iff, !Z.eqb_neq. lia. }
  rewrite E. cbn. repeat split.
  intros [->| ->]; reflexivity.
Qed.

End SubscribeValidation.

(** C5.  What [Subscribe] does with a request whose channel count is zero:
    no session is started and nothing is streamed, and the call throws an
    [RpcException] whose status is [Internal], not [InvalidArgument]: the
    exception thrown by the validation is caught by [catch (Exception ex)] of
    the same [try] and wrapped. *)
Theorem Subscribe_zero_channels_throws_internal
    (clientId : string) (clock : nat -> Z)
    (dequeues : list (option DataChunk)) (ending : option Service.Exception)
    (config : gmap string string) (s : Service.DAQDataService) :
  let request := {| Channels := 0; SampleRate := 1000; BufferSize := 4;
                    Config := config |} in
  let r := Service.Subscribe clientId clock dequeues ending request s in
  Service.thrown r
  = Some (Service.RpcException Service.Internal
            "数据流传输错误: Status(StatusCode=InvalidArgument, Detail=无效的请求参数)")
  /\ Service.session_started r = false
  /\ Service.stream r = [].
Proof.
  intros request r. subst r.
  rewrite Subscribe_zero_parameter by (left; reflexivity).
  repeat split.
Qed.

(** ** Telemetry *)

Section MetricsProperties.

Import Metrics.

Lemma Reset_unfold (now : Z) (m : PerformanceMetrics) :
  Reset now m
  = {| StartTime := StartTime m; LastUpdateTime := now;
       TotalBytesSent := 0; TotalPacketsSent := 0;
       LatencyCount := 0; LatencySum := 0;
       MinLatency := 0; MaxLatency := 0;
       LatencyDistribution := (fun _ => 0) <$> LatencyDistribution m |}.
Proof. reflexivity. Qed.

Lemma fmap_zero_six (l : list Z) :
  length l = 6%nat -> (fun _ : Z => 0) <$> l = [0; 0; 0; 0; 0; 0].
Proof.
  intros H. do 7 (destruct l as [|? l]; try discriminate H). reflexivity.
Qed.

Lemma UpdateLatencyStats_length (m : PerformanceMetrics) (latencyMs : Q) :
  length (LatencyDistribution (UpdateLatencyStats m latencyMs))
  = length (LatencyDistribution m).
Proof. cbn. apply length_alter. Qed.

Lemma bucket_bounds (latencyMs : Q) :
  ((latencyMs <= 1)%Q -> bucket latencyMs = 0%nat)
  /\ ((1 < latencyMs)%Q -> (latencyMs <= 5)%Q -> bucket latencyMs = 1%nat)
  /\ ((5 < latencyMs)%Q -> (latencyMs <= 10)%Q -> bucket latencyMs = 2%nat)
  /\ ((10 < latencyMs)%Q -> (latencyMs <= 50)%Q -> bucket latencyMs = 3%nat)
  /\ ((50 < latencyMs)%Q -> (latencyMs <= 100)%Q -> bucket latencyMs = 4%nat)
  /\ ((100 < latencyMs)%Q -> bucket latencyMs = 5%nat).
Proof.
  unfold bucket.
  destruct (Qle_bool latencyMs 1) eqn:E1;
  destruct (Qle_bool latencyMs 5) eqn:E5;
  destruct (Qle_bool latencyMs 10) eqn:E10;
  destruct (Qle_bool latencyMs 50) eqn:E50;
  destruct (Qle_bool latencyMs 100) eqn:E100;
  repeat match goal with
         | H : Qle_bool _ _ = true |- _ => apply Qle_bool_iff in H
         | H : Qle_bool ?a ?b = false |- _ =>
             assert (b < a)%Q
               by (apply Qnot_le_lt; intros C; apply Qle_bool_iff in C; congruence);
             clear H
         end;
  repeat split; intros; try reflexivity; exfalso; lra.
Qed.

End MetricsProperties.

(** C9, as the code has it.  When [Reset] has run to its end the bytes-sent
    and packets-sent counters, the latency count, sum, minimum and maximum and
    every bucket of the histogram read zero (all six of them, the array
    having six entries), and [LastUpdateTime] is the time of the reset.  The
    latency fields and the histogram are cleared together, in the one step
    that holds [LatencyLock]: in every state between the steps of a running
    [Reset] they are either all as before or all zero.  The buckets
    [UpdateLatencyStats] counts into are bounded inclusively: at most 1, 5,
    10, 50 and 100 ms, and above 100 ms. *)
Theorem Reset_clears_all_fields :
  (forall (now : Z) (m : Metrics.PerformanceMetrics),
      let m' := Metrics.Reset now m in
      Metrics.TotalBytesSent m' = 0 /\ Metrics.TotalPacketsSent m' = 0
      /\ Metrics.LatencyCount m' = 0 /\ Metrics.LatencySum m' = 0%Q
      /\ Metrics.MinLatency m' = 0%Q /\ Metrics.MaxLatency m' = 0%Q
      /\ Forall (fun n => n = 0) (Metrics.LatencyDistribution m')
      /\ length (Metrics.LatencyDistribution m')
         = length (Metrics.LatencyDistribution m)
      /\ Metrics.LastUpdateTime m' = now)
  /\ (forall (now : Z) (m : Metrics.PerformanceMetrics),
         length (Metrics.LatencyDistribution m) = 6%nat ->
         Metrics.cleared (Metrics.Reset now m))
  /\ (forall (now : Z) (m m' : Metrics.PerformanceMetrics),
         m' ∈ Metrics.Reset_states now m ->
         (Metrics.LatencyCount m' = Metrics.LatencyCount m
          /\ Metrics.LatencySum m' = Metrics.LatencySum m
          /\ Metrics.MinLatency m' = Metrics.MinLatency m
          /\ Metrics.MaxLatency m' = Metrics.MaxLatency m
          /\ Metrics.LatencyDistribution m' = Metrics.LatencyDistribution m)
         \/ (Metrics.LatencyCount m' = 0 /\ Metrics.LatencySum m' = 0%Q
             /\ Metrics.MinLatency m' = 0%Q /\ Metrics.MaxLatency m' = 0%Q
             /\ Forall (fun n => n = 0) (Metrics.LatencyDistribution m')))
  /\ (forall latencyMs : Q,
         ((latencyMs <= 1)%Q -> Metrics.bucket latencyMs = 0%nat)
         /\ ((1 < latencyMs)%Q -> (latencyMs <= 5)%Q -> Metrics.bucket latencyMs = 1%nat)
         /\ ((5 < latencyMs)%Q -> (latencyMs <= 10)%Q -> Metrics.bucket latencyMs = 2%nat)
         /\ ((10 < latencyMs)%Q -> (latencyMs <= 50)%Q -> Metrics.bucket latencyMs = 3%nat)
         /\ ((50 < latencyMs)%Q -> (latencyMs <= 100)%Q -> Metrics.bucket latencyMs = 4%nat)
         /\ ((100 < latencyMs)%Q -> Metrics.bucket latencyMs = 5%nat)).
Proof.
  assert (Hzero : forall l : list Z, Forall (fun n => n = 0) ((fun _ => 0) <$> l)).
  { intros l. apply Forall_fmap, Forall_forall. intros; reflexivity. }
  split; [|split; [|split]].
  - intros now m m'. subst m'. rewrite Reset_unfold; cbn.
    repeat split; [apply Hzero | apply length_fmap].
  - intros now m H6. rewrite Reset_unfold. unfold Metrics.cleared; cbn.
    repeat split. now apply fmap_zero_six.
  - intros now m m' Hin. unfold Metrics.Reset_states in Hin. cbn in Hin.
    repeat (apply elem_of_cons in Hin as [-> | Hin]); cbn;
      [left | left | left | right | right | ]; repeat split; try apply Hzero.
    now apply elem_of_nil in Hin.
  - apply bucket_bounds.
Qed.

Lemma Reset_clears_all_fields_witness :
  Metrics.cleared (Metrics.Reset 9 Metrics.busy_metrics)
  /\ Metrics.bucket 1 = 0%nat.
Proof.
  split.
  - apply (proj1 (proj2 Reset_clears_all_fields) 9 Metrics.busy_metrics).
    reflexivity.
  - apply (proj2 (proj2 (proj2 Reset_clears_all_fields)) 1%Q). discriminate.
Defined.

(** C9, as stated, fails on its last part: beside a running [Reset] a reader
    can find the bytes-sent counter already zero while the packets-sent
    counter and the latency count still hold their old values, because the
    two counters are exchanged one by one before the lock is taken.  The
    bounds of the buckets are inclusive: a latency of exactly 1 ms is counted
    in the first bucket and one of exactly 100 ms in the fifth. *)
Lemma Reset_shows_partial_state :
  Metrics.TotalBytesSent Metrics.busy_metrics = 300
  /\ exists m',
       Metrics.Reset_states 9 Metrics.busy_metrics !! 1%nat = Some m'
       /\ Metrics.TotalBytesSent m' = 0
       /\ Metrics.TotalPacketsSent m' = 3
       /\ Metrics.LatencyCount m' = 1
       /\ Metrics.bucket 1 = 0%nat
       /\ Metrics.bucket 100 = 4%nat.
Proof.
  split; [reflexivity|].
  eexists. split; [reflexivity|]. repeat split.
Qed.

(** ** Pacing *)

Section PacerProperties.

Import Pacer.

Lemma cycle_sleeps (targetIntervalMs generationDurationMs : Q) :
  (generationDurationMs < targetIntervalMs)%Q ->
  exists d, cycle true targetIntervalMs generationDurationMs = Generate (Some d)
    /\ d = targetDelay targetIntervalMs generationDurationMs
    /\ (d == targetIntervalMs - generationDurationMs)%Q.
Proof.
  intros H. unfold cycle.
  assert (Hd : (targetDelay targetIntervalMs generationDurationMs
                == targetIntervalMs - generationDurationMs)%Q).
  { unfold targetDelay. apply Q.max_r. lra. }
  destruct (Qlt_le_dec 0 _) as [Hlt|Hle].
  - eexists. split; [reflexivity|]. split; [reflexivity|exact Hd].
  - exfalso. rewrite Hd in Hle. lra.
Qed.

Lemma cycle_no_sleep (targetIntervalMs generationDurationMs : Q) :
  (targetIntervalMs <= generationDurationMs)%Q ->
  cycle true targetIntervalMs generationDurationMs = Generate None.
Proof.
  intros H. unfold cycle.
  assert (Hd : (targetDelay targetIntervalMs generationDurationMs == 0)%Q).
  { unfold targetDelay. apply Q.max_l. lra. }
  destruct (Qlt_le_dec 0 _) as [Hlt|Hle]; [|reflexivity].
  exfalso. rewrite Hd in Hlt. lra.
Qed.

Lemma chunkInterval_value (config : Mock.MockConfig) (targetDataRateMBps : Q) :
  0 < Mock.channels config * Mock.bufferSize config ->
  (0 < targetDataRateMBps)%Q ->
  exists interval,
    chunkInterval config targetDataRateMBps = Some interval
    /\ (interval ==
        Qmax 8 (1000 * inject_Z (Mock.channels config * Mock.bufferSize config * 2)
                / (targetDataRateMBps * 1024 * 1024)))%Q.
Proof.
  intros Hb Ht. unfold chunkInterval.
  set (bytes := inject_Z (Mock.channels config * Mock.bufferSize config * 2)).
  assert (Hbytes : (0 < bytes)%Q).
  { unfold bytes. change 0%Q with (inject_Z 0). rewrite <- Zlt_Qlt. lia. }
  assert (Hrate : (0 < targetDataRateMBps * 1024 * 1024)%Q) by lra.
  destruct (Qeq_bool bytes 0) eqn:E1.
  { apply Qeq_bool_iff in E1. rewrite E1 in Hbytes. lra. }
  destruct (Qeq_bool (targetDataRateMBps * 1024 * 1024) 0) eqn:E2.
  { apply Qeq_bool_iff in E2. rewrite E2 in Hrate. lra. }
  eexists. split; [reflexivity|].
  apply Q.max_compat; [reflexivity|].
  field. split; lra.
Qed.

Lemma chunkInterval_earlier_value (config : Mock.MockConfig)
    (targetDataRateMBps : Q) :
  0 < Mock.channels config * Mock.bufferSize config ->
  (0 < targetDataRateMBps)%Q ->
  exists interval,
    chunkInterval_earlier config targetDataRateMBps = Some interval
    /\ (interval ==
        1000 * inject_Z (Mock.channels config * Mock.bufferSize config * 2)
        / (targetDataRateMBps * 1024 * 1024))%Q.
Proof.
  intros Hb Ht. unfold chunkInterval_earlier.
  set (bytes := inject_Z (Mock.channels config * Mock.bufferSize config * 2)).
  assert (Hbytes : (0 < bytes)%Q).
  { unfold bytes. change 0%Q with (inject_Z 0). rewrite <- Zlt_Qlt. lia. }
  assert (Hrate : (0 < targetDataRateMBps * 1024 * 1024)%Q) by lra.
  destruct (Qeq_bool bytes 0) eqn:E1.
  { apply Qeq_bool_iff in E1. rewrite E1 in Hbytes. lra. }
  destruct (Qeq_bool (targetDataRateMBps * 1024 * 1024) 0) eqn:E2.
  { apply Qeq_bool_iff in E2. rewrite E2 in Hrate. lra. }
  eexists. split; [reflexivity|]. field. split; lra.
Qed.

(** The server derives its interval from the request alone:
    [1000 / (sampleRate * channels / bufferSize)] milliseconds. *)
Lemma targetIntervalMs_value (request : DataRequest) :
  0 < Channels request -> 0 < SampleRate request ->
  SampleRate request * Channels request < 2 ^ 32 ->
  0 < BufferSize request <= Int.max_int32 ->
  exists interval,
    targetIntervalMs request = Some interval
    /\ (interval ==
        1000 * inject_Z (BufferSize request)
        / inject_Z (SampleRate request * Channels request))%Q.
Proof.
  intros Hc Hr Hw Hb. unfold targetIntervalMs, samplesPerSecond, samplesPerChunk.
  rewrite to_uint32_small by lia.
  rewrite to_int32_small by (unfold Int.max_int32 in *; lia).
  destruct (Z.eqb_spec (BufferSize request) 0) as [E|_]; [lia|].
  destruct (Z.eqb_spec (SampleRate request * Channels request) 0) as [E|_]; [lia|].
  eexists. split; [reflexivity|].
  assert (H1 : (0 < inject_Z (SampleRate request * Channels request))%Q).
  { change 0%Q with (inject_Z 0). rewrite <- Zlt_Qlt. lia. }
  assert (H2 : (0 < inject_Z (BufferSize request))%Q).
  { change 0%Q with (inject_Z 0). rewrite <- Zlt_Qlt. lia. }
  field. split; lra.
Qed.

End PacerProperties.

(** C7, as the code has it.  A cycle of the server's pacer that generates a
    chunk then sleeps [max(0, targetIntervalMs - generationDurationMs)]: the
    difference when generation took less than the interval, and no sleep at
    all when generation alone took the interval or more; while generation is
    disabled the cycle generates nothing and waits 10 ms.  In the browser's
    [HighPerformanceStreamer] the interval is
    [max(8, 1000 * bytesPerChunk / targetBytesPerSecond)] with
    [bytesPerChunk = channels * bufferSize * 2] and
    [targetBytesPerSecond = targetDataRateMBps * 1024 * 1024]; the earlier
    copy of the class has the same interval without the floor of 8 ms. *)
Theorem pacer_cycle_and_interval :
  (forall targetIntervalMs generationDurationMs : Q,
      Pacer.targetDelay targetIntervalMs generationDurationMs
      = Qmax 0 (targetIntervalMs - generationDurationMs)
      /\ ((generationDurationMs < targetIntervalMs)%Q ->
          exists d,
            Pacer.cycle true targetIntervalMs generationDurationMs
            = Pacer.Generate (Some d)
            /\ d = Pacer.targetDelay targetIntervalMs generationDurationMs
            /\ (d == targetIntervalMs - generationDurationMs)%Q)
      /\ ((targetIntervalMs <= generationDurationMs)%Q ->
          Pacer.cycle true targetIntervalMs generationDurationMs
          = Pacer.Generate None)
      /\ Pacer.cycle false targetIntervalMs generationDurationMs
         = Pacer.Idle 10)
  /\ (forall (config : Mock.MockConfig) (targetDataRateMBps : Q),
         0 < Mock.channels config * Mock.bufferSize config ->
         (0 < targetDataRateMBps)%Q ->
         exists interval,
           Pacer.chunkInterval config targetDataRateMBps = Some interval
           /\ (interval ==
               Qmax 8 (1000
                       * inject_Z (Mock.channels config * Mock.bufferSize config * 2)
                       / (targetDataRateMBps * 1024 * 1024)))%Q)
  /\ (forall (config : Mock.MockConfig) (targetDataRateMBps : Q),
         0 < Mock.channels config * Mock.bufferSize config ->
         (0 < targetDataRateMBps)%Q ->
         exists interval,
           Pacer.chunkInterval_earlier config targetDataRateMBps = Some interval
           /\ (interval ==
               1000 * inject_Z (Mock.channels config * Mock.bufferSize config * 2)
               / (targetDataRateMBps * 1024 * 1024))%Q).
Proof.
  split; [|split].
  - intros i d. split; [reflexivity|]. split; [apply cycle_sleeps|].
    split; [apply cycle_no_sleep|reflexivity].
  - apply chunkInterval_value.
  - apply chunkInterval_earlier_value.
Qed.

Lemma pacer_cycle_and_interval_witness :
  Pacer.cycle true 25 30 = Pacer.Generate None
  /\ exists d, Pacer.cycle true 25 5 = Pacer.Generate (Some d) /\ (d == 20)%Q.
Proof.
  destruct (proj1 pacer_cycle_and_interval 25%Q 30%Q) as (_ & _ & Hno & _).
  destruct (proj1 pacer_cycle_and_interval 25%Q 5%Q) as (_ & Hsleep & _ & _).
  split.
  - apply Hno. discriminate.
  - destruct Hsleep as (d & Hc & _ & Hd); [reflexivity|].
    exists d. split; [exact Hc|]. rewrite Hd. reflexivity.
Defined.

(** C7, as stated, fails on the interval.  In the browser's streamer, for the
    specification's own example (4 channels, 100000 samples, 640 MB/s) the
    formula gives about 1.19 ms and the interval is 8 ms.  In the server, for
    4 channels at 1000 Hz with 100 samples per chunk, the chunk has 800 bytes
    and the target rate [Subscribe] logs is 8000 bytes per second, so that
    the formula gives 100 ms, and the pacer's interval is 25 ms. *)
Lemma pacer_interval_is_not_the_formula :
  Pacer.chunkInterval Pacer.card_PXIe_69846H 640 = Some 8%Q
  /\ (1000 * inject_Z (4 * 100000 * 2) / (640 * 1024 * 1024) < 1.2)%Q
  /\ (1.2 < 8)%Q
  /\ exists interval,
       Pacer.targetIntervalMs
         {| Channels := 4; SampleRate := 1000; BufferSize := 100; Config := ∅ |}
       = Some interval
       /\ (interval == 25)%Q
       /\ Pacer.bytesPerChunk
            {| Channels := 4; SampleRate := 1000; BufferSize := 100; Config := ∅ |}
          = 800
       /\ Service.targetDataRate
            {| Channels := 4; SampleRate := 1000; BufferSize := 100; Config := ∅ |}
          = 8000
       /\ (1000 * inject_Z 800 / inject_Z 8000 == 100)%Q.
Proof.
  repeat split. eexists. repeat split.
Qed.

(** ** The transport loop *)

Section TransportProperties.

Import Service.

Variable clock : nat -> Z.

Lemma transport_inv_start : transport_inv clock transport_start.
Proof. repeat split. Qed.

Lemma transport_inv_step (t : Transport) (dequeued : option DataChunk) :
  transport_inv clock t -> transport_inv clock (dequeue_step clock t dequeued).
Proof.
  intros (Hs & Hw & Hk). unfold dequeue_step.
  destruct dequeued as [chunk|]; [|repeat split; assumption].
  destruct (chunksSent t <? 10); [|repeat split; assumption].
  split; [|split]; cbn.
  - rewrite length_app, Hs. cbn. unfold Int.to_uint32.
    rewrite Nat2Z.inj_add. cbn.
    rewrite Zplus_mod_idemp_l. reflexivity.
  - rewrite length_app, fmap_app, Hw. cbn.
    rewrite Nat.add_1_r, seq_S, fmap_app. cbn.
    now rewrite Hs.
  - rewrite length_app, fmap_app, Hk. cbn.
    now rewrite Nat.add_1_r, seq_S, fmap_app.
Qed.

Lemma transport_inv_run (dequeues : list (option DataChunk)) (t : Transport) :
  transport_inv clock t ->
  transport_inv clock (foldl (dequeue_step clock) t dequeues).
Proof.
  revert t. induction dequeues as [|d ds IH]; intros t Ht; [exact Ht|].
  cbn. apply IH. now apply transport_inv_step.
Qed.

Lemma transport_seq_list (dequeues : list (option DataChunk)) :
  Seq <$> written (transport_loop clock dequeues)
  = (fun n => Z.of_nat n mod 2 ^ 32)
      <$> seq 0 (length (written (transport_loop clock dequeues))).
Proof. apply (transport_inv_run dequeues _ transport_inv_start). Qed.

Lemma transport_tick_list (dequeues : list (option DataChunk)) :
  TickNs <$> written (transport_loop clock dequeues)
  = clock <$> seq 0 (length (written (transport_loop clock dequeues))).
Proof. apply (transport_inv_run dequeues _ transport_inv_start). Qed.

Lemma transport_seq_nth (dequeues : list (option DataChunk)) (n : nat)
    (chunk : DataChunk) :
  written (transport_loop clock dequeues) !! n = Some chunk ->
  Seq chunk = Z.of_nat n mod 2 ^ 32.
Proof.
  intros H.
  pose proof (transport_seq_list dequeues) as Hl.
  apply (f_equal (fun l => l !! n)) in Hl.
  rewrite !list_lookup_fmap, H in Hl. cbn in Hl.
  rewrite lookup_seq_lt in Hl by (eapply lookup_lt_Some; eassumption).
  cbn in Hl. congruence.
Qed.

(** Chunks that arrive one by one are all written. *)
Lemma one_by_one_step (chunk : DataChunk) (t : Transport) :
  chunksSent t = 0 ->
  let t' := dequeue_step clock (dequeue_step clock t (Some chunk)) None in
  length (written t') = S (length (written t)) /\ chunksSent t' = 0.
Proof.
  intros Ht. unfold dequeue_step. rewrite Ht. cbn.
  rewrite length_app. cbn. split; [lia|reflexivity].
Qed.

Lemma one_by_one_S (count : nat) :
  one_by_one (S count) = Some empty_chunk :: None :: one_by_one count.
Proof. reflexivity. Qed.

Lemma one_by_one_written (count : nat) (t : Transport) :
  chunksSent t = 0 ->
  let t' := foldl (dequeue_step clock) t (one_by_one count) in
  length (written t') = (length (written t) + count)%nat /\ chunksSent t' = 0.
Proof.
  revert t. induction count as [|count IH]; intros t Ht.
  - cbn. split; [lia|exact Ht].
  - rewrite one_by_one_S. cbn [foldl].
    destruct (one_by_one_step empty_chunk t Ht) as [Hlen1 Hsent1].
    destruct (IH _ Hsent1) as [Hlen Hsent].
    cbv zeta in *.
    split; [|exact Hsent]. rewrite Hlen, Hlen1. lia.
Qed.

Lemma one_by_one_all_written (count : nat) :
  length (written (transport_loop clock (one_by_one count))) = count.
Proof.
  unfold transport_loop.
  destruct (one_by_one_written count transport_start eq_refl) as [Hlen _].
  exact Hlen.
Qed.

End TransportProperties.

(** C2, as the code has it.  Whatever sequence numbers the generator gave the
    chunks and however they were queued, the [seq] fields of the chunks
    [Subscribe] writes are, in the order of writing, [0, 1, 2, ...] counted
    modulo [2 ^ 32] (the counter is a [uint]): the [n]-th chunk written
    carries [(n - 1) mod 2 ^ 32], which is [n - 1] for the first [2 ^ 32]
    chunks of a stream.  The number and the tick are assigned when the chunk
    is written. *)
Theorem Subscribe_seq_in_write_order :
  (forall (clientId : string) (clock : nat -> Z)
          (dequeues : list (option DataChunk))
          (ending : option Service.Exception) (request : DataRequest)
          (s : Service.DAQDataService),
      let sent := Service.stream
                    (Service.Subscribe clientId clock dequeues ending request s) in
      Seq <$> sent = (fun n => Z.of_nat n mod 2 ^ 32) <$> seq 0 (length sent)
      /\ TickNs <$> sent = clock <$> seq 0 (length sent))
  /\ (forall (clientId : string) (clock : nat -> Z)
             (dequeues : list (option DataChunk))
             (ending : option Service.Exception) (request : DataRequest)
             (s : Service.DAQDataService) (n : nat) (chunk : DataChunk),
         Service.stream
           (Service.Subscribe clientId clock dequeues ending request s) !! n
         = Some chunk ->
         Z.of_nat n < 2 ^ 32 ->
         Seq chunk = Z.of_nat n).
Proof.
  assert (Hstream : forall clientId clock dequeues ending request s,
             Service.stream
               (Service.Subscribe clientId clock dequeues ending request s) = []
             \/ Service.stream
                  (Service.Subscribe clientId clock dequeues ending request s)
                = Service.written (Service.transport_loop clock dequeues)).
  { intros. unfold Service.Subscribe.
    destruct (_ || _); [left|right]; reflexivity. }
  split.
  - intros clientId clock dequeues ending request s sent. subst sent.
    destruct (Hstream clientId clock dequeues ending request s) as [-> | ->].
    + split; reflexivity.
    + split; [apply transport_seq_list | apply transport_tick_list].
  - intros clientId clock dequeues ending request s n chunk Hn Hlt.
    destruct (Hstream clientId clock dequeues ending request s) as [E|E];
      rewrite E in Hn.
    + rewrite lookup_nil in Hn. discriminate.
    + rewrite (transport_seq_nth clock dequeues n chunk Hn).
      apply Z.mod_small. lia.
Qed.

Lemma Subscribe_seq_in_write_order_witness :
  exists chunk,
    Service.stream
      (Service.Subscribe "client" (fun _ => 0)
         [Some {| Payload := []; Seq := 5; TickNs := 0; Tags := ∅ |};
          Some {| Payload := []; Seq := 7; TickNs := 0; Tags := ∅ |}]
         None
         {| Channels := 1; SampleRate := 1000; BufferSize := 4; Config := ∅ |}
         {| Service._sessions := ∅; Service._subscribers := ∅;
            Service._globalDataGeneration := true |}) !! 1%nat
    = Some chunk
    /\ Seq chunk = 1.
Proof.
  eexists. split; [reflexivity|].
  refine (proj2 Subscribe_seq_in_write_order "client" (fun _ => 0)
            [Some {| Payload := []; Seq := 5; TickNs := 0; Tags := ∅ |};
             Some {| Payload := []; Seq := 7; TickNs := 0; Tags := ∅ |}]
            None
            {| Channels := 1; SampleRate := 1000; BufferSize := 4; Config := ∅ |}
            {| Service._sessions := ∅; Service._subscribers := ∅;
               Service._globalDataGeneration := true |} 1%nat _ _ _).
  - reflexivity.
  - reflexivity.
Defined.

(** C2, as stated, fails once the counter has gone round: in a session whose
    chunks are written one by one, the chunk written after [2 ^ 32] others
    (the [n]-th with [n = 2 ^ 32 + 1]) carries [seq = 0], the number the first
    chunk carried, and not [n - 1 = 2 ^ 32]. *)
Lemma Subscribe_seq_wraps_around :
  exists first chunk,
    let sent :=
      Service.stream
        (Service.Subscribe "client" (fun _ => 0) Service.long_session None
           {| Channels := 1; SampleRate := 1000; BufferSize := 4; Config := ∅ |}
           {| Service._sessions := ∅; Service._subscribers := ∅;
              Service._globalDataGeneration := true |}) in
    sent !! 0%nat = Some first /\ Seq first = 0
    /\ sent !! Z.to_nat (2 ^ 32) = Some chunk /\ Seq chunk = 0.
Proof.
  pose proof (Subscribe_positive_parameters "client" (fun _ => 0)
                Service.long_session None
                {| Channels := 1; SampleRate := 1000; BufferSize := 4; Config := ∅ |}
                {| Service._sessions := ∅; Service._subscribers := ∅;
                   Service._globalDataGeneration := true |}) as Hp.
  destruct Hp as (_ & Hs & _); [reflexivity|reflexivity|reflexivity|].
  unfold Service.long_session in *.
  pose proof (one_by_one_all_written (fun _ => 0) (Z.to_nat (2 ^ 32 + 1))) as Hlen.
  destruct (lookup_lt_is_Some_2
              (Service.written
                 (Service.transport_loop (fun _ => 0)
                    (Service.one_by_one (Z.to_nat (2 ^ 32 + 1)))))
              0%nat) as [first Hfirst]; [lia|].
  destruct (lookup_lt_is_Some_2
              (Service.written
                 (Service.transport_loop (fun _ => 0)
                    (Service.one_by_one (Z.to_nat (2 ^ 32 + 1)))))
              (Z.to_nat (2 ^ 32))) as [chunk Hchunk]; [lia|].
  exists first, chunk. cbv zeta. rewrite Hs.
  split; [exact Hfirst|]. split.
  { rewrite (transport_seq_nth _ _ _ _ Hfirst). reflexivity. }
  split; [exact Hchunk|].
  rewrite (transport_seq_nth _ _ _ _ Hchunk).
  rewrite Z2Nat.id by lia. apply Z_mod_same_full.
Qed.

(** ** The ring buffer *)

Section RingProperties.

Import JS Ring.

Context {number float32 : Type}.
Variable fround : number -> float32.
Variables f32_zero f32_nan : float32.

Lemma mod_slots_differ (c p n : Z) :
  0 < c -> 0 <= p < n -> n < p + c -> p mod c <> n mod c.
Proof.
  intros Hc Hp Hn E.
  pose proof (Z.div_mod p c ltac:(lia)) as Dp.
  pose proof (Z.div_mod n c ltac:(lia)) as Dn.
  assert (Hd : n - p = c * (n / c - p / c)) by lia.
  assert (0 < n / c - p / c) by nia.
  nia.
Qed.

Lemma holds_recent_create (c : Z) :
  holds_recent c [] (replicate (Z.to_nat c) f32_zero).
Proof.
  split; [apply length_replicate|]. intros p Hp. cbn in Hp. lia.
Qed.

Lemma holds_recent_store (c : Z) (stored array : list float32) (value : number) :
  0 < c -> holds_recent c stored array ->
  holds_recent c (stored ++ [fround value])
    (store fround array (Fin (Z.of_nat (length stored) mod c)) value).
Proof.
  intros Hc [Hlen Hslots]. unfold store.
  pose proof (Z.mod_pos_bound (Z.of_nat (length stored)) c Hc) as Hw.
  assert (E : (0 <=? Z.of_nat (length stored) mod c)
              && (Z.of_nat (length stored) mod c <? Z.of_nat (length array)) = true).
  { apply andb_true_iff. rewrite Z.leb_le, Z.ltb_lt. lia. }
  rewrite E. split; [now rewrite length_insert|].
  intros p Hp Hrecent. rewrite length_app in Hp, Hrecent. cbn in Hp, Hrecent.
  destruct (decide (p = length stored)) as [-> | Hne].
  - rewrite list_lookup_insert_eq by lia.
    rewrite lookup_app_r by lia. now rewrite Nat.sub_diag.
  - rewrite list_lookup_insert_ne.
    + rewrite lookup_app_l by lia. apply Hslots; lia.
    + intros Heq. apply Z2Nat.inj in Heq; [|lia|].
      * symmetry in Heq. revert Heq. apply mod_slots_differ; lia.
      * apply Z.mod_pos_bound; lia.
Qed.


Lemma rem_nonneg (a c : Z) :
  0 <= a -> 0 < c -> rem (Fin a) c = Fin (a mod c).
Proof.
  intros Ha Hc. unfold rem.
  destruct (c =? 0) eqn:E; [apply Z.eqb_eq in E; lia|].
  f_equal. apply Z.rem_mod_nonneg; lia.
Qed.

Lemma recent_from_write_index (c : Z) (stored array : list float32) (n : nat) :
  n = length stored ->
  0 < c -> c <= Z.of_nat n ->
  holds_recent c stored array ->
  (fun i => load f32_nan array (rem (add (Fin (Z.of_nat n mod c)) (Fin i)) c))
    <$> seqZ 0 c
  = drop (n - Z.to_nat c) stored.
Proof.
  intros -> Hc Hfull [Hlen Hslots]. apply list_eq. intros i.
  rewrite list_lookup_fmap, lookup_drop.
  destruct (decide (Z.of_nat i < c)) as [Hi|Hi].
  - rewrite lookup_seqZ_lt by exact Hi. cbn [fmap option_fmap option_map add].
    pose proof (Z.mod_pos_bound (Z.of_nat (length stored)) c Hc) as Hw.
    rewrite rem_nonneg by lia. unfold load.
    pose proof (Z.mod_pos_bound (Z.of_nat (length stored) mod c + (0 + Z.of_nat i)) c Hc)
      as Hidx.
    destruct (0 <=? _) eqn:E; [|apply Z.leb_gt in E; lia].
    assert (Hp : (Z.of_nat (length stored) mod c + (0 + Z.of_nat i)) mod c
                 = Z.of_nat (length stored - Z.to_nat c + i) mod c).
    { rewrite Zplus_mod_idemp_l.
      replace (Z.of_nat (length stored - Z.to_nat c + i))
        with (Z.of_nat (length stored) + (0 + Z.of_nat i) + (-1) * c) by lia.
      now rewrite Z.mod_add by lia. }
    rewrite Hp, Hslots by lia.
    destruct (lookup_lt_is_Some_2 stored (length stored - Z.to_nat c + i))
      as [x Hx]; [lia|].
    now rewrite Hx.
  - rewrite lookup_seqZ_ge by lia. cbn.
    symmetry. apply lookup_ge_None_2. lia.
Qed.

Lemma written_prefix (c : Z) (stored array : list float32) (n : nat) :
  n = length stored ->
  Z.of_nat n < c ->
  holds_recent c stored array ->
  take n array = stored.
Proof.
  intros -> Hn [Hlen Hslots]. apply list_eq. intros i.
  destruct (decide (i < length stored)%nat) as [Hi|Hi].
  - rewrite lookup_take_lt by exact Hi.
    rewrite <- Hslots by lia.
    rewrite Z.mod_small by lia. now rewrite Nat2Z.id.
  - rewrite lookup_take_ge by lia. symmetry. apply lookup_ge_None_2. lia.
Qed.

Lemma ring_inv_push (c : Z) (pushes : list (number * number))
    (b : CircularBuffer float32) (value time : number) :
  0 < c -> ring_inv fround c pushes b ->
  ring_inv fround c (pushes ++ [(value, time)]) (push fround b value time).
Proof.
  intros Hc (Hsize & Hw & Hfull & Hv & Ht).
  pose proof (Z.mod_pos_bound (Z.of_nat (length pushes)) c Hc) as Hwb.
  assert (Hw' : rem (add (writeIndex b) (Fin 1)) (size b)
                = Fin (Z.of_nat (length (pushes ++ [(value, time)])) mod c)).
  { rewrite Hw, Hsize. cbn [add]. rewrite rem_nonneg by lia.
    rewrite Zplus_mod_idemp_l, length_app. cbn. f_equal. f_equal. lia. }
  unfold ring_inv, push. cbn [size writeIndex isFull buffer timeBuffer].
  rewrite Hw'. split; [exact Hsize|]. split; [reflexivity|]. split; [|split].
  - cbn [is_zero]. rewrite length_app in *. cbn [length] in *.
    pose proof (Z.div_mod (Z.of_nat (length pushes + 1)) c ltac:(lia)) as D.
    pose proof (Z.mod_pos_bound (Z.of_nat (length pushes + 1)) c Hc) as B.
    destruct (_ =? 0) eqn:E.
    + apply Z.eqb_eq in E. symmetry. apply bool_decide_eq_true.
      assert (0 < Z.of_nat (length pushes + 1) / c) by nia. nia.
    + apply Z.eqb_neq in E. rewrite Hfull.
      apply bool_decide_ext. split; [lia|]. intros Hle.
      destruct (decide (c = Z.of_nat (length pushes + 1))) as [Hc1|Hc1]; [|lia].
      exfalso. apply E. rewrite <- Hc1. apply Z_mod_same_full.
  - rewrite Hw, fmap_app. cbn [fmap list_fmap fst].
    replace (length pushes) with (length ((fun p : number * number => fround p.1) <$> pushes))
      by apply length_fmap.
    now apply holds_recent_store.
  - rewrite Hw, fmap_app. cbn [fmap list_fmap snd].
    replace (length pushes) with (length ((fun p : number * number => fround p.2) <$> pushes))
      by apply length_fmap.
    now apply holds_recent_store.
Qed.

Lemma ring_inv_push_all (c : Z) (pushes : list (number * number))
    (b0 : CircularBuffer float32) :
  0 < c -> create f32_zero c = Some b0 ->
  ring_inv fround c pushes (push_all fround b0 pushes).
Proof.
  intros Hc Hb0. unfold create in Hb0.
  destruct (c <? 0) eqn:E; [apply Z.ltb_lt in E; lia|].
  injection Hb0 as <-.
  induction pushes as [|[value time] pushes IH] using rev_ind.
  - unfold ring_inv; cbn. rewrite Z.mod_0_l by lia.
    split; [reflexivity|]. split; [reflexivity|]. split.
    + symmetry. apply bool_decide_eq_false. lia.
    + split; apply holds_recent_create.
  - unfold push_all. rewrite foldl_snoc. apply ring_inv_push; assumption.
Qed.

Lemma store_empty (index : jsnum) (value : number) :
  store fround [] index value = [].
Proof.
  destruct index as [i| | |]; try reflexivity. unfold store. cbn [length].
  destruct ((0 <=? i) && (i <? Z.of_nat 0)) eqn:E; [|reflexivity].
  apply andb_true_iff in E. rewrite Z.leb_le, Z.ltb_lt in E. lia.
Qed.

Lemma empty_inv_push (pushes : list (number * number))
    (b : CircularBuffer float32) (value time : number) :
  empty_inv pushes b ->
  empty_inv (pushes ++ [(value, time)]) (push fround b value time).
Proof.
  intros (Hb & Ht & Hs & Hf & Hw).
  unfold empty_inv, push. cbn [size writeIndex isFull buffer timeBuffer].
  rewrite Hb, Ht, Hs, Hf, !store_empty.
  assert (Hrem : rem (add (writeIndex b) (Fin 1)) 0 = NaN).
  { destruct (add _ _); reflexivity. }
  rewrite Hrem. repeat split.
  destruct pushes; reflexivity.
Qed.

Lemma empty_inv_push_all (pushes : list (number * number))
    (b0 : CircularBuffer float32) :
  create f32_zero 0 = Some b0 ->
  empty_inv pushes (push_all fround b0 pushes).
Proof.
  intros Hb0. injection Hb0 as <-.
  induction pushes as [|[value time] pushes IH] using rev_ind.
  - repeat split.
  - unfold push_all. rewrite foldl_snoc. now apply empty_inv_push.
Qed.


Lemma slice0_empty (end_ : jsnum) : slice0 ([] : list float32) end_ = [].
Proof.
  destruct end_ as [e| | |]; try reflexivity. unfold slice0.
  destruct (e <? 0); apply take_nil.
Qed.

Lemma getData_after_pushes (capacity : nat) (pushes : list (number * number))
    (b0 : CircularBuffer float32) :
  create f32_zero (Z.of_nat capacity) = Some b0 ->
  let snapshot := getData f32_nan (push_all fround b0 pushes) in
  values snapshot
  = drop (length pushes - capacity) ((fun p => fround p.1) <$> pushes)
  /\ times snapshot
     = drop (length pushes - capacity) ((fun p => fround p.2) <$> pushes)
  /\ length_ snapshot
     = match capacity, pushes with
       | O, [] => Fin 0
       | O, _ => NaN
       | _, _ => Fin (Z.of_nat (min (length pushes) capacity))
       end.
Proof.
  intros Hb0 snapshot. subst snapshot.
  destruct capacity as [|capacity'].
  - destruct (empty_inv_push_all pushes b0 Hb0) as (Hb & Ht & Hs & Hf & Hw).
    unfold getData. rewrite Hf, Hb, Ht, Hw, !slice0_empty. cbn [values times length_].
    rewrite Nat.sub_0_r, !drop_ge by (rewrite length_fmap; lia).
    repeat split.
  - set (capacity := S capacity') in *.
    assert (Hc : 0 < Z.of_nat capacity) by lia.
    destruct (ring_inv_push_all (Z.of_nat capacity) pushes b0 Hc Hb0)
      as (Hsize & Hw & Hfull & Hv & Ht).
    pose proof (length_fmap (fun p : number * number => fround p.1) pushes) as Lv.
    pose proof (length_fmap (fun p : number * number => fround p.2) pushes) as Lt.
    unfold getData. rewrite Hfull, Hsize, Hw.
    destruct (bool_decide (Z.of_nat capacity <= Z.of_nat (length pushes))) eqn:E.
    + apply bool_decide_eq_true in E. cbn [values times length_].
      split; [|split].
      * rewrite (recent_from_write_index _ _ _ _ (eq_sym Lv) Hc E Hv).
        now rewrite Nat2Z.id.
      * rewrite (recent_from_write_index _ _ _ _ (eq_sym Lt) Hc E Ht).
        now rewrite Nat2Z.id.
      * subst capacity. cbn [Nat.min]. f_equal. lia.
    + apply bool_decide_eq_false in E. cbn [values times length_].
      rewrite Z.mod_small by lia. unfold slice0.
      destruct (Z.of_nat (length pushes) <? 0) eqn:E0; [apply Z.ltb_lt in E0; lia|].
      rewrite Nat2Z.id.
      replace (length pushes - capacity)%nat with 0%nat by lia. cbn [drop].
      split; [|split].
      * apply (written_prefix (Z.of_nat capacity)); [now symmetry|lia|exact Hv].
      * apply (written_prefix (Z.of_nat capacity)); [now symmetry|lia|exact Ht].
      * subst capacity. f_equal. lia.
Qed.


(** C3.  For a [CircularBuffer] of capacity [c] and any sequence of pushes,
    [getData()] returns arrays of at most [c] entries and a [length] that
    does not exceed [c]; the arrays are the last [min(n, c)] pushed
    (value, time) pairs, as stored in the [Float32Array]s, in push order.  So
    after [n < c] pushes they are exactly the [n] pushed pairs (the written
    prefix, no stale slot), and after [c + k] pushes exactly the most recent
    [c], read starting at the write index.  Read back as numbers ([widen])
    they are the pushed numbers themselves whenever those are single-precision
    values, which a store leaves unchanged. *)
Theorem CircularBuffer_getData_recent (capacity : nat)
    (pushes : list (number * number)) :
  exists b0,
    create f32_zero (Z.of_nat capacity) = Some b0
    /\ let snapshot := getData f32_nan (push_all fround b0 pushes) in
       (length (values snapshot) <= capacity)%nat
       /\ (length (times snapshot) <= capacity)%nat
       /\ gt_int (length_ snapshot) (Z.of_nat capacity) = false
       /\ values snapshot
          = drop (length pushes - capacity) ((fun p => fround p.1) <$> pushes)
       /\ times snapshot
          = drop (length pushes - capacity) ((fun p => fround p.2) <$> pushes)
       /\ ((length pushes < capacity)%nat ->
           values snapshot = (fun p => fround p.1) <$> pushes
           /\ times snapshot = (fun p => fround p.2) <$> pushes
           /\ length_ snapshot = Fin (Z.of_nat (length pushes)))
       /\ (forall older recent : list (number * number),
              pushes = older ++ recent -> length recent = capacity ->
              values snapshot = (fun p => fround p.1) <$> recent
              /\ times snapshot = (fun p => fround p.2) <$> recent
              /\ ((0 < capacity)%nat ->
                  length_ snapshot = Fin (Z.of_nat capacity)))
       /\ (forall widen : float32 -> number,
              Forall (fun p => widen (fround p.1) = p.1
                               /\ widen (fround p.2) = p.2) pushes ->
              widen <$> values snapshot
              = fst <$> drop (length pushes - capacity) pushes
              /\ widen <$> times snapshot
                 = snd <$> drop (length pushes - capacity) pushes).
Proof.
  destruct (create f32_zero (Z.of_nat capacity)) as [b0|] eqn:Hb0.
  2:{ unfold create in Hb0. destruct (Z.of_nat capacity <? 0) eqn:E;
        [apply Z.ltb_lt in E; lia | discriminate]. }
  exists b0. split; [reflexivity|].
  destruct (getData_after_pushes capacity pushes b0 Hb0) as (Hv & Ht & Hl).
  cbv zeta. rewrite Hv, Ht, Hl.
  split; [rewrite length_drop, length_fmap; lia|].
  split; [rewrite length_drop, length_fmap; lia|].
  split.
  { destruct capacity as [|c']; [destruct pushes; reflexivity|].
    cbn [gt_int]. apply Z.ltb_ge. lia. }
  split; [reflexivity|]. split; [reflexivity|]. split; [|split].
  - intros Hlt. replace (length pushes - capacity)%nat with 0%nat by lia.
    cbn [drop]. repeat split.
    destruct capacity as [|c']; [lia|]. f_equal. lia.
  - intros older recent -> Hrecent.
    rewrite length_app, !fmap_app.
    replace (length older + length recent - capacity)%nat
      with (length older) by lia.
    rewrite !drop_app_length' by (now rewrite length_fmap).
    repeat split. intros Hpos.
    destruct capacity as [|c']; [lia|]. f_equal. lia.
  - intros widen Hexact.
    assert (H1 : widen <$> ((fun p => fround p.1) <$> pushes) = fst <$> pushes).
    { rewrite <- list_fmap_compose. apply list_fmap_ext.
      intros i p Hp. cbn. eapply Forall_lookup_1 in Hexact; [|exact Hp].
      apply Hexact. }
    assert (H2 : widen <$> ((fun p => fround p.2) <$> pushes) = snd <$> pushes).
    { rewrite <- list_fmap_compose. apply list_fmap_ext.
      intros i p Hp. cbn. eapply Forall_lookup_1 in Hexact; [|exact Hp].
      apply Hexact. }
    rewrite !fmap_drop, H1, H2. split; reflexivity.
Qed.

End RingProperties.

Lemma CircularBuffer_getData_recent_witness :
  Ring.values
    (Ring.getData (-1)
       (Ring.push_all (fun x : Z => x)
          {| Ring.buffer := [0; 0; 0]; Ring.timeBuffer := [0; 0; 0];
             Ring.writeIndex := JS.Fin 0; Ring.size := 3;
             Ring.isFull := false |}
          [(1, 10); (2, 20); (3, 30); (4, 40); (5, 50)]))
  = [3; 4; 5]
  /\ Ring.times
       (Ring.getData (-1)
          (Ring.push_all (fun x : Z => x)
             {| Ring.buffer := [0; 0; 0]; Ring.timeBuffer := [0; 0; 0];
                Ring.writeIndex := JS.Fin 0; Ring.size := 3;
                Ring.isFull := false |}
             [(1, 10); (2, 20); (3, 30); (4, 40); (5, 50)]))
     = [30; 40; 50].
Proof.
  destruct (CircularBuffer_getData_recent (fun x : Z => x) 0 (-1) 3
              [(1, 10); (2, 20); (3, 30); (4, 40); (5, 50)])
    as (b & Hb & _ & _ & _ & _ & _ & _ & Hrecent & _).
  injection Hb as <-.
  destruct (Hrecent [(1, 10); (2, 20)] [(3, 30); (4, 40); (5, 50)]
              eq_refl eq_refl) as (Hv & Ht & _).
  split; [exact Hv | exact Ht].
Defined.

(** ** The waveform synthesizer *)

Section SynthProperties.

Import Synth.

Lemma truncate_range (x : R) (lo hi : Z) :
  lo <= 0 <= hi -> (IZR lo <= x <= IZR hi)%R -> lo <= truncate x <= hi.
Proof.
  intros Hz [Hlo Hhi]. unfold truncate.
  destruct (Rle_dec 0 x) as [Hx|Hx].
  - destruct (base_Int_part x) as [H1 H2].
    split.
    + assert (-1 < IZR (Int_part x))%R by lra.
      apply lt_IZR in H. lia.
    + apply le_IZR. lra.
  - destruct (base_Int_part (- x)) as [H1 H2].
    split.
    + assert (IZR (Int_part (- x)) <= IZR (- lo))%R by (rewrite opp_IZR; lra).
      apply le_IZR in H. lia.
    + assert (-1 < IZR (Int_part (- x)))%R by lra.
      apply lt_IZR in H. lia.
Qed.

Lemma clamp_range (value lo hi : R) :
  (lo <= hi)%R -> (lo <= clamp value lo hi <= hi)%R.
Proof.
  intros H. unfold clamp.
  destruct (Rlt_dec value lo); [lra|].
  destruct (Rlt_dec hi value); lra.
Qed.

Lemma to_sample16_range (value : R) : -32768 <= to_sample16 value <= 32767.
Proof.
  unfold to_sample16. apply truncate_range; [lia|].
  apply clamp_range. lra.
Qed.

Lemma truncate_0 : truncate 0 = 0.
Proof.
  unfold truncate. destruct (Rle_dec 0 0) as [_|H]; [|lra].
  symmetry. apply Int_part_spec. lra.
Qed.

Lemma low_byte_range (s : Z) : 0 <= low_byte s < 256.
Proof.
  unfold low_byte. change 255 with (Z.ones 8).
  rewrite Z.land_ones by lia. apply Z.mod_pos_bound. lia.
Qed.

Lemma high_byte_range (s : Z) : 0 <= high_byte s < 256.
Proof.
  unfold high_byte. change 255 with (Z.ones 8).
  rewrite Z.land_ones by lia. apply Z.mod_pos_bound. lia.
Qed.

Lemma bytes_recombine (s : Z) :
  Z.lor (low_byte s) (Z.shiftl (high_byte s) 8) = s mod 2 ^ 16.
Proof.
  rewrite <- Z.land_ones by lia. unfold low_byte, high_byte.
  change 255 with (Z.ones 8).
  apply Z.bits_inj'. intros n Hn.
  rewrite Z.lor_spec, !Z.land_spec, Z.shiftl_spec by lia.
  rewrite !Z.testbit_ones_nonneg by lia.
  destruct (Z.ltb_spec n 8).
  - rewrite (Z.testbit_neg_r _ (n - 8)) by lia.
    destruct (Z.ltb_spec n 16); [|lia]. now rewrite orb_false_r.
  - rewrite Z.land_spec, Z.shiftr_spec by lia.
    rewrite Z.testbit_ones_nonneg by lia.
    replace (n - 8 + 8) with n by lia.
    rewrite andb_false_r. cbn [orb].
    destruct (Z.ltb_spec (n - 8) 8), (Z.ltb_spec n 16); try lia; reflexivity.
Qed.

Lemma decode_sample_bytes (s : Z) :
  -32768 <= s <= 32767 -> decode_int16_le (low_byte s) (high_byte s) = s.
Proof.
  intros Hs. unfold decode_int16_le. rewrite bytes_recombine.
  destruct (Z.ltb_spec (s mod 2 ^ 16) (2 ^ 15)) as [H|H].
  - destruct (Z_lt_le_dec s 0) as [Hneg|Hpos].
    + rewrite <- (Z.mod_add s 1) in H by lia. rewrite Z.mod_small in H; lia.
    + apply Z.mod_small. lia.
  - destruct (Z_lt_le_dec s 0) as [Hneg|Hpos].
    + rewrite <- (Z.mod_add s 1) by lia. rewrite Z.mod_small; lia.
    + rewrite Z.mod_small in H; lia.
Qed.


Variable rnd : Z -> R.

Lemma write_sample_slot (pre rest : list Z) (lo hi a b idx : Z) :
  Z.of_nat (length pre) = 2 * idx ->
  Z.of_nat (length pre) + 2 + Z.of_nat (length rest) <= Int.max_int32 ->
  write_byte (pre ++ a :: b :: rest) (Int.to_int32 (idx * 2)) lo
  = Some (pre ++ lo :: b :: rest)
  /\ write_byte (pre ++ lo :: b :: rest)
       (Int.to_int32 (Int.to_int32 (idx * 2) + 1)) hi
     = Some (pre ++ lo :: hi :: rest)
  /\ Int.to_int32 (idx + 1) = idx + 1.
Proof.
  intros Hpre Hmax. unfold Int.max_int32 in Hmax.
  rewrite (to_int32_small (idx * 2)) by (unfold Int.max_int32; lia).
  rewrite (to_int32_small (idx * 2 + 1)) by (unfold Int.max_int32; lia).
  rewrite (to_int32_small (idx + 1)) by (unfold Int.max_int32; lia).
  unfold write_byte. rewrite !length_app. cbn [length].
  assert (E1 : (0 <=? idx * 2)
               && (idx * 2 <? Z.of_nat (length pre + S (S (length rest)))) = true).
  { apply andb_true_iff. rewrite Z.leb_le, Z.ltb_lt. lia. }
  assert (E2 : (0 <=? idx * 2 + 1)
               && (idx * 2 + 1 <? Z.of_nat (length pre + S (S (length rest)))) = true).
  { apply andb_true_iff. rewrite Z.leb_le, Z.ltb_lt. lia. }
  rewrite E1, E2.
  replace (Z.to_nat (idx * 2)) with (length pre + 0)%nat by lia.
  replace (Z.to_nat (idx * 2 + 1)) with (length pre + 1)%nat by lia.
  rewrite !insert_app_r. repeat split.
Qed.

Lemma channel_loop (time : R) (channels : list Z) :
  forall (pre rest : list Z) (idx : Z),
    Z.of_nat (length pre) = 2 * idx ->
    Z.of_nat (length pre) + 2 * Z.of_nat (length channels)
    + Z.of_nat (length rest) <= Int.max_int32 ->
    for_each (channel_body rnd time) channels
      (pre ++ replicate (2 * length channels) 0 ++ rest, idx)
    = Some (pre ++ mjoin (slot_bytes <$> row_samples rnd time channels idx) ++ rest,
            idx + Z.of_nat (length channels)).
Proof.
  induction channels as [|channel channels IH]; intros pre rest idx Hpre Hmax.
  - cbn. now rewrite Z.add_0_r.
  - cbn [for_each length row_samples fmap list_fmap mjoin list_join].
    replace (2 * S (length channels))%nat with (S (S (2 * length channels)))
      by lia.
    cbn [replicate app]. unfold channel_body at 1.
    destruct (write_sample_slot pre (replicate (2 * length channels) 0 ++ rest)
                (low_byte (sample16_at rnd time channel idx))
                (high_byte (sample16_at rnd time channel idx)) 0 0 idx Hpre)
      as (W1 & W2 & W3).
    { rewrite length_app, length_replicate. cbn [length] in Hmax. lia. }
    rewrite W1, W2, W3.
    set (lo := low_byte (sample16_at rnd time channel idx)).
    set (hi := high_byte (sample16_at rnd time channel idx)).
    replace (pre ++ lo :: hi :: replicate (2 * length channels) 0 ++ rest)
      with ((pre ++ [lo; hi]) ++ replicate (2 * length channels) 0 ++ rest)
      by (now rewrite <- app_assoc).
    rewrite IH.
    + unfold slot_bytes at 2. fold lo hi. rewrite <- !app_assoc. cbn [app].
      f_equal. f_equal. lia.
    + rewrite length_app. cbn [length]. lia.
    + rewrite length_app. cbn [length] in *. lia.
Qed.

Lemma length_row_samples (time : R) (channels : list Z) (idx : Z) :
  length (row_samples rnd time channels idx) = length channels.
Proof.
  revert idx. induction channels as [|c cs IH]; intros idx; cbn; [|rewrite IH];
    reflexivity.
Qed.

Lemma length_chunk_samples (seq spc rate : Z) (channels samples : list Z)
    (idx : Z) :
  length (chunk_samples rnd seq spc rate channels samples idx)
  = (length samples * length channels)%nat.
Proof.
  revert idx. induction samples as [|s ss IH]; intros idx; cbn; [reflexivity|].
  now rewrite length_app, length_row_samples, IH.
Qed.

Lemma length_sample_bytes (samples : list Z) :
  length (mjoin (slot_bytes <$> samples)) = (2 * length samples)%nat.
Proof.
  induction samples as [|s ss IH]; [reflexivity|].
  change (mjoin (slot_bytes <$> s :: ss))
    with (slot_bytes s ++ mjoin (slot_bytes <$> ss)).
  rewrite length_app, IH. cbn [slot_bytes length]. lia.
Qed.

Lemma sample_loop (seq spc rate channels : Z) (samples : list Z) :
  forall (pre rest : list Z) (idx : Z),
    Z.of_nat (length pre) = 2 * idx ->
    Z.of_nat (length pre)
    + 2 * Z.of_nat (length samples * length (seqZ 0 channels))
    + Z.of_nat (length rest) <= Int.max_int32 ->
    for_each (sample_body rnd seq spc rate channels) samples
      (pre ++ replicate (2 * (length samples * length (seqZ 0 channels))) 0 ++ rest,
       idx)
    = Some (pre
            ++ mjoin (slot_bytes
                        <$> chunk_samples rnd seq spc rate (seqZ 0 channels)
                              samples idx)
            ++ rest,
            idx + Z.of_nat (length samples * length (seqZ 0 channels))).
Proof.
  induction samples as [|sample samples IH]; intros pre rest idx Hpre Hmax.
  - cbn. now rewrite Z.add_0_r.
  - cbn [for_each length chunk_samples]. unfold sample_body at 1.
    set (cs := seqZ 0 channels) in *.
    set (time := sample_time seq spc sample rate).
    replace (2 * (S (length samples) * length cs))%nat
      with (2 * length cs + 2 * (length samples * length cs))%nat by lia.
    rewrite replicate_add, <- app_assoc.
    rewrite channel_loop; [|exact Hpre|].
    2:{ rewrite length_app, length_replicate. cbn [length] in Hmax. lia. }
    rewrite app_assoc.
    rewrite IH.
    + rewrite fmap_app, join_app, <- !app_assoc. f_equal. f_equal. lia.
    + rewrite length_app, length_sample_bytes, length_row_samples. lia.
    + rewrite length_app, length_sample_bytes, length_row_samples.
      cbn [length] in Hmax. lia.
Qed.


Lemma row_samples_lookup (time : R) (channels : list Z) :
  forall (idx : Z) (k : nat) (channel : Z),
    channels !! k = Some channel ->
    row_samples rnd time channels idx !! k
    = Some (sample16_at rnd time channel (idx + Z.of_nat k)).
Proof.
  induction channels as [|c cs IH]; intros idx k channel Hk.
  - now rewrite lookup_nil in Hk.
  - destruct k as [|k]; cbn in *.
    + injection Hk as ->. now rewrite Z.add_0_r.
    + rewrite (IH _ _ _ Hk). do 2 f_equal. lia.
Qed.

Lemma chunk_samples_lookup (seq spc rate : Z) (channels samples : list Z) :
  forall (idx : Z) (i j : nat) (sample channel : Z),
    samples !! i = Some sample -> channels !! j = Some channel ->
    chunk_samples rnd seq spc rate channels samples idx
      !! (i * length channels + j)%nat
    = Some (sample16_at rnd (sample_time seq spc sample rate) channel
              (idx + Z.of_nat (i * length channels + j))).
Proof.
  induction samples as [|s ss IH]; intros idx i j sample channel Hi Hj.
  - now rewrite lookup_nil in Hi.
  - pose proof (lookup_lt_Some _ _ _ Hj) as Hjlt.
    destruct i as [|i]; cbn [chunk_samples].
    + cbn in Hi. injection Hi as ->. cbn [Nat.mul Nat.add].
      rewrite lookup_app_l by (now rewrite length_row_samples).
      now apply row_samples_lookup.
    + cbn in Hi.
      rewrite lookup_app_r by (rewrite length_row_samples; cbn; lia).
      rewrite length_row_samples.
      replace (S i * length channels + j - length channels)%nat
        with (i * length channels + j)%nat by (cbn; lia).
      rewrite (IH _ _ _ _ _ Hi Hj). do 2 f_equal. cbn. lia.
Qed.

Lemma sample_bytes_lookup (samples : list Z) :
  forall (k : nat) (s : Z),
    samples !! k = Some s ->
    mjoin (slot_bytes <$> samples) !! (2 * k)%nat = Some (low_byte s)
    /\ mjoin (slot_bytes <$> samples) !! (2 * k + 1)%nat = Some (high_byte s).
Proof.
  induction samples as [|x xs IH]; intros k s Hk.
  - now rewrite lookup_nil in Hk.
  - change (mjoin (slot_bytes <$> x :: xs))
      with (low_byte x :: high_byte x :: mjoin (slot_bytes <$> xs)).
    destruct k as [|k]; cbn in Hk.
    + injection Hk as ->. split; reflexivity.
    + destruct (IH k s Hk) as [H0 H1].
      replace (2 * S k)%nat with (S (S (2 * k))) by lia.
      replace (S (S (2 * k)) + 1)%nat with (S (S (2 * k + 1))) by lia.
      cbn [lookup list_lookup]. split; assumption.
Qed.

Lemma decode_sample_bytes_all (samples : list Z) :
  Forall (fun s => -32768 <= s <= 32767) samples ->
  decode_samples (mjoin (slot_bytes <$> samples)) = samples.
Proof.
  induction 1 as [|x xs Hx _ IH]; [reflexivity|].
  change (mjoin (slot_bytes <$> x :: xs))
    with (low_byte x :: high_byte x :: mjoin (slot_bytes <$> xs)).
  cbn [decode_samples]. now rewrite decode_sample_bytes, IH.
Qed.

Lemma chunk_samples_range (seq spc rate : Z) (channels samples : list Z) (idx : Z) :
  Forall (fun s => -32768 <= s <= 32767)
    (chunk_samples rnd seq spc rate channels samples idx).
Proof.
  revert idx. induction samples as [|s ss IH]; intros idx; cbn; [constructor|].
  apply Forall_app. split; [|apply IH].
  generalize idx. clear.
  induction channels as [|c cs IH]; intros idx; cbn; constructor.
  - apply to_sample16_range.
  - apply IH.
Qed.

(** The payload of a request whose buffer size fits an [int]. *)
Lemma GenerateHighPerformanceData_payload (request : DataRequest) (seq : Z) :
  0 < Channels request -> 0 < BufferSize request ->
  Channels request * BufferSize request * 2 <= Int.max_int32 ->
  GenerateHighPerformanceData rnd request seq
  = Some (mjoin (slot_bytes
                   <$> chunk_samples rnd seq (BufferSize request)
                         (SampleRate request)
                         (seqZ 0 (Channels request))
                         (seqZ 0 (BufferSize request)) 0)).
Proof.
  intros HC HS Hmax. unfold GenerateHighPerformanceData.
  assert (HCS : Channels request <= Int.max_int32
                /\ BufferSize request <= Int.max_int32
                /\ Channels request * BufferSize request <= Int.max_int32).
  { unfold Int.max_int32 in *. nia. }
  destruct HCS as (HC' & HS' & HCS').
  rewrite (to_int32_small (Channels request)) by (unfold Int.max_int32 in *; lia).
  rewrite (to_int32_small (BufferSize request)) by (unfold Int.max_int32 in *; lia).
  rewrite (to_int32_small (Channels request * BufferSize request))
    by (unfold Int.max_int32 in *; nia).
  rewrite (to_int32_small (Channels request * BufferSize request * 2))
    by (unfold Int.max_int32 in *; nia).
  destruct (Z.ltb_spec (Channels request * BufferSize request * 2) 0) as [H|_];
    [nia|].
  pose proof (sample_loop seq (BufferSize request) (SampleRate request)
                (Channels request) (seqZ 0 (BufferSize request)) [] [] 0) as L.
  rewrite !length_seqZ in L. cbn [app length] in L. rewrite app_nil_r in L.
  replace (2 * (Z.to_nat (BufferSize request) * Z.to_nat (Channels request)))%nat
    with (Z.to_nat (Channels request * BufferSize request * 2)) in L by nia.
  rewrite L; [now rewrite app_nil_r | reflexivity | nia].
Qed.


(** Slot [(sample, channel)] of the chunk is sample number
    [sample * channels + channel] in buffer order. *)
Lemma chunk_samples_slot (request : DataRequest) (seq sample channel : Z) :
  0 < Channels request -> 0 < BufferSize request ->
  Channels request * BufferSize request * 2 <= Int.max_int32 ->
  0 <= sample < BufferSize request ->
  0 <= channel < Channels request ->
  chunk_samples rnd seq (BufferSize request) (SampleRate request)
    (seqZ 0 (Channels request)) (seqZ 0 (BufferSize request)) 0
    !! Z.to_nat (sample * Channels request + channel)
  = Some (sample16_of rnd request seq sample channel).
Proof.
  intros HC HS Hmax Hs Hc. unfold sample16_of.
  pose proof (chunk_samples_lookup seq (BufferSize request)
                (SampleRate request) (seqZ 0 (Channels request))
                (seqZ 0 (BufferSize request)) 0
                (Z.to_nat sample) (Z.to_nat channel) sample channel) as L.
  rewrite length_seqZ in L.
  replace (Z.to_nat sample * Z.to_nat (Channels request) + Z.to_nat channel)%nat
    with (Z.to_nat (sample * Channels request + channel)) in L by nia.
  rewrite L.
  - unfold Int.max_int32 in Hmax.
    rewrite !to_int32_small by (unfold Int.max_int32; nia).
    do 2 f_equal. nia.
  - rewrite lookup_seqZ_lt by lia. f_equal. lia.
  - rewrite lookup_seqZ_lt by lia. f_equal. lia.
Qed.

End SynthProperties.

(** C1, as the code has it.  For every request with [channels > 0],
    [sampleRate > 0], [bufferSize > 0] and a chunk size
    [channels * bufferSize * 2] that fits a C# [int], the generator returns a
    payload of exactly [channels * bufferSize * 2] bytes; the sample of slot
    [(sample, channel)] occupies bytes [2 k] and [2 k + 1] with
    [k = sample * channels + channel] (channel-interleaved), low byte first
    (little-endian), and reads back as the signed 16-bit value the generator
    computed, which lies in [-32768, 32767]. *)
Theorem GenerateHighPerformanceData_layout (rnd : Z -> R)
    (request : DataRequest) (sequenceNumber : Z) :
  0 < Channels request -> 0 < SampleRate request -> 0 < BufferSize request ->
  Channels request * BufferSize request * 2 <= Int.max_int32 ->
  exists payload,
    Synth.GenerateHighPerformanceData rnd request sequenceNumber = Some payload
    /\ Z.of_nat (length payload) = Channels request * BufferSize request * 2
    /\ Forall (fun b => 0 <= b < 256) payload
    /\ Forall (fun s => -32768 <= s <= 32767) (Synth.decode_samples payload)
    /\ forall sample channel : Z,
         0 <= sample < BufferSize request ->
         0 <= channel < Channels request ->
         let k := Z.to_nat (sample * Channels request + channel) in
         let sample16 :=
           Synth.sample16_of rnd request sequenceNumber sample channel in
         payload !! (2 * k)%nat = Some (Synth.low_byte sample16)
         /\ payload !! (2 * k + 1)%nat = Some (Synth.high_byte sample16)
         /\ Synth.decode_samples payload !! k = Some sample16
         /\ Synth.decode_int16_le (Synth.low_byte sample16)
              (Synth.high_byte sample16) = sample16
         /\ -32768 <= sample16 <= 32767.
Proof.
  intros HC HR HS Hmax.
  rewrite (GenerateHighPerformanceData_payload rnd request sequenceNumber HC HS Hmax).
  set (samples := Synth.chunk_samples rnd sequenceNumber (BufferSize request)
                    (SampleRate request) (seqZ 0 (Channels request))
                    (seqZ 0 (BufferSize request)) 0).
  assert (Hrange : Forall (fun s => -32768 <= s <= 32767) samples)
    by apply chunk_samples_range.
  eexists. split; [reflexivity|].
  split.
  { rewrite length_sample_bytes. unfold samples.
    rewrite length_chunk_samples, !length_seqZ. nia. }
  split.
  { clear. induction samples as [|s ss IH]; [constructor|].
    change (mjoin (Synth.slot_bytes <$> s :: ss))
      with (Synth.low_byte s :: Synth.high_byte s
            :: mjoin (Synth.slot_bytes <$> ss)).
    repeat constructor; try apply low_byte_range; try apply high_byte_range.
    exact IH. }
  rewrite (decode_sample_bytes_all samples Hrange).
  split; [exact Hrange|].
  intros sample channel Hs Hc k sample16.
  assert (Hk : samples !! k = Some sample16)
    by (now apply chunk_samples_slot).
  destruct (sample_bytes_lookup samples k sample16 Hk) as [H0 H1].
  split; [exact H0|]. split; [exact H1|]. split; [exact Hk|].
  assert (Hr : -32768 <= sample16 <= 32767) by apply to_sample16_range.
  split; [now apply decode_sample_bytes | exact Hr].
Qed.

Lemma GenerateHighPerformanceData_layout_witness :
  exists payload,
    Synth.GenerateHighPerformanceData (fun _ => 0%R)
      {| Channels := 2; SampleRate := 1000; BufferSize := 2; Config := ∅ |} 0
    = Some payload
    /\ Z.of_nat (length payload) = 8.
Proof.
  destruct (GenerateHighPerformanceData_layout (fun _ => 0%R)
              {| Channels := 2; SampleRate := 1000; BufferSize := 2; Config := ∅ |}
              0) as (payload & Hp & Hl & _);
    [reflexivity | reflexivity | reflexivity | discriminate |].
  exists payload. split; [exact Hp | exact Hl].
Defined.

(** C1, as stated, fails when the size does not fit an [int]: the casts
    [(int)request.Channels] and the product [channels * samplesPerChannel * 2]
    wrap around.  With [2 ^ 31 + 1] channels and one sample per channel the
    channel count is negative as an [int], the inner loop never runs, and the
    payload has 2 bytes instead of 4294967298. *)
Lemma GenerateHighPerformanceData_wrapped_size :
  Synth.GenerateHighPerformanceData (fun _ => 0%R)
    {| Channels := 2147483649; SampleRate := 1; BufferSize := 1; Config := ∅ |} 0
  = Some [0; 0]
  /\ 2147483649 * 1 * 2 = 4294967298.
Proof.
  split; reflexivity.
Qed.

Section Aliasing.

Import Synth.

Lemma truncate_strict_range (x : R) (lo hi : Z) :
  lo <= 0 <= hi -> (IZR lo - 1 < x < IZR hi + 1)%R -> lo <= truncate x <= hi.
Proof.
  intros Hz [Hlo Hhi]. unfold truncate.
  destruct (Rle_dec 0 x) as [Hx|Hx].
  - destruct (base_Int_part x) as [H1 H2]. split.
    + assert (H : (-1 < IZR (Int_part x))%R) by lra.
      apply lt_IZR in H. lia.
    + assert (H : (IZR (Int_part x) < IZR (hi + 1))%R) by (rewrite plus_IZR; lra).
      apply lt_IZR in H. lia.
  - destruct (base_Int_part (- x)) as [H1 H2]. split.
    + assert (H : (IZR (Int_part (- x)) < IZR (- lo + 1))%R)
        by (rewrite plus_IZR, opp_IZR; lra).
      apply lt_IZR in H. lia.
    + assert (H : (-1 < IZR (Int_part (- x)))%R) by lra.
      apply lt_IZR in H. lia.
Qed.

(** Sampled at 1000 Hz, channel 0 of the server's 1 kHz wave is zero at
    every sample: only the noise is left. *)
Lemma mixed_wave_aliased (n : Z) :
  mixed_wave (channel_phase (IZR n / 1000) 0) = 0%R.
Proof.
  unfold mixed_wave, channel_phase, baseFrequency.
  assert (H1 : sin (2 * PI * (1000 * (1 + 0 * 0.1)) * (IZR n / 1000)) = 0%R).
  { apply sin_eq_0_1. exists (2 * n). rewrite mult_IZR. field. }
  assert (H2 : sin (2 * (2 * PI * (1000 * (1 + 0 * 0.1)) * (IZR n / 1000))) = 0%R).
  { apply sin_eq_0_1. exists (4 * n). rewrite mult_IZR. field. }
  assert (H3 : sin (3 * (2 * PI * (1000 * (1 + 0 * 0.1)) * (IZR n / 1000))) = 0%R).
  { apply sin_eq_0_1. exists (6 * n). rewrite mult_IZR. field. }
  rewrite H1, H2, H3. ring.
Qed.

Lemma aliased_sample_value (n : Z) (noise : R) :
  sample_value (IZR n / 1000) 0 noise = ((noise - 0.5) * amplitude * 0.02)%R.
Proof. unfold sample_value. rewrite mixed_wave_aliased. ring. Qed.

Lemma aliased_sample_small (n : Z) (noise : R) :
  (0 <= noise < 1)%R ->
  -262 <= to_sample16 (sample_value (IZR n / 1000) 0 noise) <= 262.
Proof.
  intros Hn. rewrite aliased_sample_value. unfold to_sample16, amplitude.
  set (v := ((noise - 0.5) * (32767 * 0.8) * 0.02)%R).
  assert (Hv : (-262.136 <= v < 262.136)%R) by (unfold v; lra).
  apply truncate_strict_range; [lia|].
  unfold clamp.
  destruct (Rlt_dec v (-32768)); [lra|].
  destruct (Rlt_dec 32767 v); lra.
Qed.

Lemma aliased_sample_silent (n : Z) :
  to_sample16 (sample_value (IZR n / 1000) 0 0.5) = 0.
Proof.
  rewrite aliased_sample_value. unfold to_sample16.
  replace ((0.5 - 0.5) * amplitude * 0.02)%R with 0%R by ring.
  unfold clamp.
  destruct (Rlt_dec 0 (-32768)); [lra|].
  destruct (Rlt_dec 32767 0); [lra|].
  apply truncate_0.
Qed.

(** The first chunk of the scenario's request, sample by sample. *)
Lemma scenario_payload (rnd : Z -> R) (config : gmap string string) :
  GenerateHighPerformanceData rnd
    {| Channels := 1; SampleRate := 1000; BufferSize := 4; Config := config |} 0
  = Some (mjoin (slot_bytes
                   <$> [to_sample16 (sample_value (IZR 0 / 1000) 0 (rnd 0));
                        to_sample16 (sample_value (IZR 1 / 1000) 0 (rnd 1));
                        to_sample16 (sample_value (IZR 2 / 1000) 0 (rnd 2));
                        to_sample16 (sample_value (IZR 3 / 1000) 0 (rnd 3))])).
Proof.
  rewrite GenerateHighPerformanceData_payload; [|reflexivity|reflexivity|discriminate].
  reflexivity.
Qed.

End Aliasing.

Section MockScenario.

Import Mock.
Local Open Scope R_scope.

Lemma scenario_phase (i : Z) :
  2 * PI * (frequency scenario_config * (1 + IZR 0 * 0.1))
  * (IZR (0 + i) / IZR (sampleRate scenario_config))
  = IZR i * (PI / 2).
Proof. cbn [frequency sampleRate scenario_config]. rewrite Z.add_0_l. field. Qed.

Lemma mock_scenario_samples (random1 random2 : R) :
  chunk_sample scenario_config 0 random1 random2 0 <$> [0; 1; 2; 3]%Z
  = [0; 1; 0; -1].
Proof.
  assert (H : forall i, chunk_sample scenario_config 0 random1 random2 0 i
                        = sin (IZR i * (PI / 2))).
  { intros i. unfold chunk_sample, generateSample.
    rewrite scenario_phase. cbn [noiseLevel waveformType amplitude scenario_config].
    destruct (Rlt_dec 0 0) as [H|_]; [lra|]. ring. }
  cbn [fmap list_fmap]. rewrite !H.
  replace (0 * (PI / 2)) with 0 by ring.
  replace (1 * (PI / 2)) with (PI / 2) by ring.
  replace (2 * (PI / 2)) with PI by field.
  now rewrite sin_0, sin_PI2, sin_PI, sin_3PI2.
Qed.

End MockScenario.

(** C6, as the code has it.  The server does not read the waveform kind, the
    amplitude or the base frequency of a request.  For the scenario's request
    (1 channel, 1000 Hz, 4 samples) its first chunk holds four 16-bit samples
    of the fixed 1 kHz wave, which sampled at 1000 Hz is zero at every sample:
    whatever the noise source draws in [0, 1), each decoded sample lies
    within 262 of zero.  The browser-side [MockDataGenerator], configured
    with a sine of amplitude 1.0 at 250 Hz sampled at 1000 Hz, produces the
    samples 0, 1, 0, -1 (one period), as numbers that are not scaled to 16
    bits. *)
Theorem scenario_first_chunk :
  (forall (rnd : Z -> R) (config : gmap string string),
      (forall k, (0 <= rnd k < 1)%R) ->
      exists s0 s1 s2 s3,
        Synth.GenerateHighPerformanceData rnd
          {| Channels := 1; SampleRate := 1000; BufferSize := 4;
             Config := config |} 0
        = Some (mjoin (Synth.slot_bytes <$> [s0; s1; s2; s3]))
        /\ Synth.decode_samples (mjoin (Synth.slot_bytes <$> [s0; s1; s2; s3]))
           = [s0; s1; s2; s3]
        /\ Forall (fun s => -262 <= s <= 262) [s0; s1; s2; s3])
  /\ (forall random1 random2 : R,
         Mock.chunk_sample Mock.scenario_config 0 random1 random2 0
           <$> [0; 1; 2; 3]
         = [0; 1; 0; -1]%R).
Proof.
  split; [|apply mock_scenario_samples].
  intros rnd config Hrnd.
  do 4 eexists. split; [apply scenario_payload|].
  assert (Hsmall : Forall (fun s => -262 <= s <= 262)
            [Synth.to_sample16 (Synth.sample_value (IZR 0 / 1000) 0 (rnd 0));
             Synth.to_sample16 (Synth.sample_value (IZR 1 / 1000) 0 (rnd 1));
             Synth.to_sample16 (Synth.sample_value (IZR 2 / 1000) 0 (rnd 2));
             Synth.to_sample16 (Synth.sample_value (IZR 3 / 1000) 0 (rnd 3))]).
  { repeat constructor; apply aliased_sample_small, Hrnd. }
  split; [|exact Hsmall].
  apply decode_sample_bytes_all.
  repeat constructor; apply to_sample16_range.
Qed.

Lemma scenario_first_chunk_witness :
  exists s0 s1 s2 s3,
    Synth.GenerateHighPerformanceData (fun _ => 0.5%R) Synth.scenario_request 0
    = Some (mjoin (Synth.slot_bytes <$> [s0; s1; s2; s3]))
    /\ Forall (fun s => -262 <= s <= 262) [s0; s1; s2; s3].
Proof.
  destruct (proj1 scenario_first_chunk (fun _ => 0.5%R)
              (Config Synth.scenario_request))
    as (s0 & s1 & s2 & s3 & Hp & _ & Hs).
  - intros _. lra.
  - exists s0, s1, s2, s3. split; [exact Hp | exact Hs].
Defined.

(** C6, as stated, fails on the server: with a noise source that always
    draws 0.5 (no perturbation) the first chunk of the scenario's request
    decodes to four zeros, not to a period [0, A, 0, -A] of a sine of 16-bit
    amplitude [A]. *)
Lemma scenario_first_chunk_is_silent :
  Synth.GenerateHighPerformanceData (fun _ => 0.5%R) Synth.scenario_request 0
  = Some [0; 0; 0; 0; 0; 0; 0; 0]
  /\ Synth.decode_samples [0; 0; 0; 0; 0; 0; 0; 0] = [0; 0; 0; 0].
Proof.
  split; [|reflexivity].
  unfold Synth.scenario_request. rewrite scenario_payload.
  rewrite !aliased_sample_silent. reflexivity.
Qed.

(** C10.  The payload the server generates is the same for two requests
    that differ only in their configuration map, for every noise source and
    sequence number: it depends on the channel count, the sample rate, the
    buffer size, the sequence number and the noise alone.  Every sample is
    the 16-bit conversion of
    [A * (0.6 sin t + 0.3 sin 2t + 0.1 sin 3t) + (noise - 0.5) * A * 0.02]
    with [A = 32767 * 0.8] and [t = 2 pi * 1000 * (1 + 0.1 channel) * time]:
    the mixed harmonic at a 1 kHz base frequency, 0.8 of full scale, with a
    uniform noise 2 % of the amplitude wide.  For a request whose chunk size
    fits an [int], that value is what slot [(sample, channel)] of the payload
    decodes to. *)
Theorem generator_ignores_config :
  (forall (rnd : Z -> R) (channels sampleRate bufferSize : Z)
          (config1 config2 : gmap string string) (sequenceNumber : Z),
      Synth.GenerateHighPerformanceData rnd
        {| Channels := channels; SampleRate := sampleRate;
           BufferSize := bufferSize; Config := config1 |} sequenceNumber
      = Synth.GenerateHighPerformanceData rnd
          {| Channels := channels; SampleRate := sampleRate;
             BufferSize := bufferSize; Config := config2 |} sequenceNumber)
  /\ (forall (rnd : Z -> R) (request : DataRequest)
             (sequenceNumber sample channel : Z),
         let time :=
           (IZR (sequenceNumber * Int.to_int32 (BufferSize request) + sample)
            / IZR (SampleRate request))%R in
         let theta := (2 * PI * (1000 * (1 + IZR channel * 0.1)) * time)%R in
         let noise := rnd (sample * Int.to_int32 (Channels request) + channel) in
         Synth.sample16_of rnd request sequenceNumber sample channel
         = Synth.to_sample16
             (32767 * 0.8
              * (0.6 * sin theta + 0.3 * sin (2 * theta) + 0.1 * sin (3 * theta))
              + (noise - 0.5) * (32767 * 0.8) * 0.02)%R)
  /\ (forall (rnd : Z -> R) (request : DataRequest)
             (sequenceNumber sample channel : Z),
         0 < Channels request -> 0 < BufferSize request ->
         Channels request * BufferSize request * 2 <= Int.max_int32 ->
         0 <= sample < BufferSize request ->
         0 <= channel < Channels request ->
         exists payload,
           Synth.GenerateHighPerformanceData rnd request sequenceNumber
           = Some payload
           /\ Synth.decode_samples payload
                !! Z.to_nat (sample * Channels request + channel)
              = Some (Synth.sample16_of rnd request sequenceNumber sample channel)).
Proof.
  split; [|split].
  - intros. reflexivity.
  - intros. reflexivity.
  - intros rnd request seq sample channel HC HS Hmax Hs Hc.
    rewrite (GenerateHighPerformanceData_payload rnd request seq HC HS Hmax).
    eexists. split; [reflexivity|].
    rewrite decode_sample_bytes_all by apply chunk_samples_range.
    now apply chunk_samples_slot.
Qed.

Lemma generator_ignores_config_witness :
  exists payload,
    Synth.GenerateHighPerformanceData (fun _ => 0.5%R) Synth.scenario_request 0
    = Some payload
    /\ Synth.decode_samples payload !! 3%nat
       = Some (Synth.sample16_of (fun _ => 0.5%R) Synth.scenario_request 0 3 0).
Proof.
  apply (proj2 (proj2 generator_ignores_config) (fun _ => 0.5%R)
           Synth.scenario_request 0 3 0);
    unfold Synth.scenario_request, Int.max_int32; cbn [Channels BufferSize]; lia.
Defined.

(** * Further properties of the code *)

(** ** The ring buffer: clear *)

Section RingClear.

Import JS Ring.

Context {number float32 : Type}.
Variable fround : number -> float32.
Variables f32_zero f32_nan : float32.

Lemma ring_inv_clear (c : Z) (pushes : list (number * number))
    (b : CircularBuffer float32) :
  0 < c -> ring_inv fround c pushes b -> ring_inv fround c [] (clear b).
Proof.
  intros Hc (Hsize & _ & _ & [Hv _] & [Ht _]).
  unfold ring_inv, clear. cbn [size writeIndex isFull buffer timeBuffer length fmap list_fmap].
  rewrite Z.mod_0_l by lia.
  split; [exact Hsize|]. split; [reflexivity|]. split.
  - symmetry. apply bool_decide_eq_false. cbn. lia.
  - split; (split; [assumption|]); intros p Hp; cbn in Hp; lia.
Qed.

Lemma ring_inv_push_more (c : Z) (pushes : list (number * number))
    (b : CircularBuffer float32) :
  0 < c -> ring_inv fround c [] b ->
  ring_inv fround c pushes (push_all fround b pushes).
Proof.
  intros Hc Hb.
  induction pushes as [|[value time] pushes IH] using rev_ind.
  - exact Hb.
  - unfold push_all. rewrite foldl_snoc. apply ring_inv_push; assumption.
Qed.

Lemma empty_inv_push_more (pushes : list (number * number))
    (b : CircularBuffer float32) :
  empty_inv ([] : list (number * number)) b ->
  empty_inv pushes (push_all fround b pushes).
Proof.
  intros Hb.
  induction pushes as [|[value time] pushes IH] using rev_ind.
  - exact Hb.
  - unfold push_all. rewrite foldl_snoc. now apply empty_inv_push.
Qed.

Lemma empty_inv_clear (pushes : list (number * number))
    (b : CircularBuffer float32) :
  empty_inv pushes b -> empty_inv ([] : list (number * number)) (clear b).
Proof.
  intros (Hb & Ht & Hs & _ & _). unfold empty_inv, clear.
  cbn [size writeIndex isFull buffer timeBuffer]. repeat split; assumption.
Qed.

(** What [getData] returns is fixed by the invariant alone. *)
Lemma getData_ring_inv (c : Z) (pushes : list (number * number))
    (b b' : CircularBuffer float32) :
  0 < c -> ring_inv fround c pushes b -> ring_inv fround c pushes b' ->
  getData f32_nan b = getData f32_nan b'.
Proof.
  intros Hc (Hsize & Hw & Hfull & Hv & Ht) (Hsize' & Hw' & Hfull' & Hv' & Ht').
  pose proof (length_fmap (fun p : number * number => fround p.1) pushes) as Lv.
  pose proof (length_fmap (fun p : number * number => fround p.2) pushes) as Lt.
  unfold getData. rewrite Hfull, Hsize, Hw, Hfull', Hsize', Hw'.
  destruct (bool_decide (c <= Z.of_nat (length pushes))) eqn:E.
  - apply bool_decide_eq_true in E.
    rewrite (recent_from_write_index f32_nan _ _ _ _ (eq_sym Lv) Hc E Hv).
    rewrite (recent_from_write_index f32_nan _ _ _ _ (eq_sym Lt) Hc E Ht).
    rewrite (recent_from_write_index f32_nan _ _ _ _ (eq_sym Lv) Hc E Hv').
    rewrite (recent_from_write_index f32_nan _ _ _ _ (eq_sym Lt) Hc E Ht').
    reflexivity.
  - apply bool_decide_eq_false in E.
    rewrite Z.mod_small by lia. unfold slice0.
    destruct (Z.of_nat (length pushes) <? 0) eqn:E0; [apply Z.ltb_lt in E0; lia|].
    rewrite Nat2Z.id.
    rewrite (written_prefix c _ (buffer b) _ (eq_sym Lv) ltac:(lia) Hv).
    rewrite (written_prefix c _ (timeBuffer b) _ (eq_sym Lt) ltac:(lia) Ht).
    rewrite (written_prefix c _ (buffer b') _ (eq_sym Lv) ltac:(lia) Hv').
    rewrite (written_prefix c _ (timeBuffer b') _ (eq_sym Lt) ltac:(lia) Ht').
    reflexivity.
Qed.

Lemma getData_empty_inv (pushes : list (number * number))
    (b b' : CircularBuffer float32) :
  empty_inv pushes b -> empty_inv pushes b' ->
  getData f32_nan b = getData f32_nan b'.
Proof.
  intros (Hb & Ht & Hs & Hf & Hw) (Hb' & Ht' & Hs' & Hf' & Hw').
  unfold getData. now rewrite Hf, Hb, Ht, Hw, Hf', Hb', Ht', Hw'.
Qed.

(** X1.  [clear()] forgets everything that was pushed: right after it
    [getData()] is empty with length 0, and whatever is pushed afterwards is
    reported exactly as a fresh buffer of the same capacity would report it,
    although the storage still holds the old samples. *)
Theorem CircularBuffer_clear_forgets (capacity : nat)
    (before after : list (number * number)) :
  exists b0,
    create f32_zero (Z.of_nat capacity) = Some b0
    /\ let cleared := clear (push_all fround b0 before) in
       buffer cleared = buffer (push_all fround b0 before)
       /\ values (getData f32_nan cleared) = []
       /\ times (getData f32_nan cleared) = []
       /\ length_ (getData f32_nan cleared) = Fin 0
       /\ getData f32_nan (push_all fround cleared after)
          = getData f32_nan (push_all fround b0 after).
Proof.
  destruct (create f32_zero (Z.of_nat capacity)) as [b0|] eqn:Hb0.
  2:{ unfold create in Hb0. destruct (Z.of_nat capacity <? 0) eqn:E;
        [apply Z.ltb_lt in E; lia | discriminate]. }
  exists b0. split; [reflexivity|]. cbv zeta.
  split; [reflexivity|].
  unfold getData at 1 2 3. cbn [clear isFull writeIndex values times length_ buffer timeBuffer slice0].
  cbn [Z.ltb Z.compare Z.to_nat]. rewrite !take_0.
  do 3 (split; [reflexivity|]).
  destruct capacity as [|capacity'].
  - apply (getData_empty_inv after).
    + apply empty_inv_push_more. eapply empty_inv_clear.
      apply (empty_inv_push_all fround f32_zero before b0 Hb0).
    + apply (empty_inv_push_all fround f32_zero after b0 Hb0).
  - set (capacity := S capacity') in *.
    assert (Hc : 0 < Z.of_nat capacity) by lia.
    apply (getData_ring_inv (Z.of_nat capacity) after); [exact Hc| |].
    + apply ring_inv_push_more; [exact Hc|].
      eapply ring_inv_clear; [exact Hc|].
      apply (ring_inv_push_all fround f32_zero _ before b0 Hc Hb0).
    + apply (ring_inv_push_all fround f32_zero _ after b0 Hc Hb0).
Qed.

End RingClear.

(** ** The transport loop: what is written *)

Section TransportDrops.

Import Service TransportLoop.

Variable clock : nat -> Z.

Lemma dequeue_step_sublist (t : Transport) (dequeued : option DataChunk)
    (offered : list DataChunk) :
  content <$> written t `sublist_of` content <$> offered ->
  content <$> written (dequeue_step clock t dequeued)
    `sublist_of` content <$> (offered ++ option_list dequeued).
Proof.
  intros H. destruct dequeued as [chunk|]; cbn [option_list dequeue_step].
  - destruct (chunksSent t <? 10); cbn [written].
    + rewrite !fmap_app. apply sublist_app; [exact H|]. reflexivity.
    + rewrite fmap_app. now apply sublist_inserts_r.
  - now rewrite app_nil_r.
Qed.

Lemma transport_loop_sublist (dequeues : list (option DataChunk)) :
  content <$> written (transport_loop clock dequeues)
    `sublist_of` content <$> (dequeues ≫= option_list).
Proof.
  induction dequeues as [|d dequeues IH] using rev_ind.
  - reflexivity.
  - unfold transport_loop. rewrite foldl_snoc, bind_app. cbn [mbind list_bind].
    rewrite app_nil_r. now apply dequeue_step_sublist.
Qed.

Lemma backlog_inv_step (chunks : list DataChunk) (t : Transport)
    (chunk : DataChunk) :
  backlog_inv chunks t ->
  backlog_inv (chunks ++ [chunk]) (dequeue_step clock t (Some chunk)).
Proof.
  intros (Hsent & Hlen & Hat). unfold backlog_inv.
  rewrite length_app. cbn [length dequeue_step].
  set (n := length chunks) in *.
  replace (Z.of_nat (n + 1)) with (Z.of_nat n + 1) by lia.
  pose proof (Z.mod_pos_bound (Z.of_nat n) 11 ltac:(lia)) as Hm.
  pose proof (Z.div_mod (Z.of_nat n) 11 ltac:(lia)) as Hd.
  pose proof (Z.mod_pos_bound (Z.of_nat n + 1) 11 ltac:(lia)) as Hm'.
  pose proof (Z.div_mod (Z.of_nat n + 1) 11 ltac:(lia)) as Hd'.
  destruct (chunksSent t <? 10) eqn:E.
  - apply Z.ltb_lt in E. cbn [chunksSent written].
    assert (Hq : (Z.of_nat n + 1) / 11 = Z.of_nat n / 11) by lia.
    split; [lia|]. split; [rewrite length_app; cbn [length]; lia|].
    intros i Hi Hne.
    pose proof (Z.mod_pos_bound (Z.of_nat i) 11 ltac:(lia)) as Hmi.
    pose proof (Z.div_mod (Z.of_nat i) 11 ltac:(lia)) as Hdi.
    rewrite !fmap_app.
    destruct (decide (i = n)) as [->|Hin].
    + rewrite !lookup_app_r by (rewrite length_fmap; lia).
      rewrite !length_fmap.
      replace (Z.to_nat (Z.of_nat n - Z.of_nat n / 11) - length (written t))%nat
        with 0%nat by lia.
      fold n. rewrite Nat.sub_diag. reflexivity.
    + rewrite (lookup_app_l (content <$> chunks)) by (rewrite length_fmap; lia).
      rewrite lookup_app_l.
      * apply Hat; [lia|exact Hne].
      * rewrite length_fmap.
        assert (Z.of_nat i / 11 <= Z.of_nat n / 11)
          by (apply Z.div_le_mono; lia).
        lia.
  - apply Z.ltb_ge in E. cbn [chunksSent written].
    assert (Hq : (Z.of_nat n + 1) / 11 = Z.of_nat n / 11 + 1) by lia.
    split; [lia|]. split; [lia|].
    intros i Hi Hne.
    destruct (decide (i = n)) as [->|Hin]; [lia|].
    rewrite fmap_app, lookup_app_l by (rewrite length_fmap; lia).
    apply Hat; [lia|exact Hne].
Qed.

Lemma backlog_inv_run (chunks : list DataChunk) :
  backlog_inv chunks (transport_loop clock (Some <$> chunks)).
Proof.
  induction chunks as [|chunk chunks IH] using rev_ind.
  - repeat split.
  - unfold transport_loop. rewrite fmap_app. cbn [fmap list_fmap].
    rewrite foldl_snoc. now apply backlog_inv_step.
Qed.

(** X2.  The transport loop writes only what it dequeued: the chunks on the
    stream carry, in order, the payload and tags of a subsequence of the
    dequeued chunks, so there are never more of them. *)
Theorem transport_writes_subsequence (dequeues : list (option DataChunk)) :
  let sent := written (transport_loop clock dequeues) in
  (fun chunk => (Payload chunk, Tags chunk)) <$> sent
    `sublist_of` (fun chunk => (Payload chunk, Tags chunk))
                   <$> (dequeues ≫= option_list)
  /\ (length sent <= length (dequeues ≫= option_list))%nat.
Proof.
  cbv zeta. pose proof (transport_loop_sublist dequeues) as H.
  split; [exact H|].
  apply sublist_length in H. now rewrite !length_fmap in H.
Qed.

(** X3.  Under a backlog, when every [TryDequeue] finds a chunk, the loop
    loses one chunk in eleven: the chunk dequeued when the batch of ten is
    full is taken off the queue and never written.  Of [n] dequeued chunks
    [n - n / 11] are written; chunk [i] is written, as number
    [i - i / 11], unless [i mod 11 = 10]. *)
Theorem transport_backlog_drops_every_eleventh (chunks : list DataChunk) :
  let sent := written (transport_loop clock (Some <$> chunks)) in
  Z.of_nat (length sent)
  = Z.of_nat (length chunks) - Z.of_nat (length chunks) / 11
  /\ (forall (i : nat) (chunk : DataChunk),
        chunks !! i = Some chunk -> Z.of_nat i mod 11 <> 10 ->
        exists chunk',
          sent !! Z.to_nat (Z.of_nat i - Z.of_nat i / 11) = Some chunk'
          /\ Payload chunk' = Payload chunk /\ Tags chunk' = Tags chunk
          /\ Seq chunk' = (Z.of_nat i - Z.of_nat i / 11) mod 2 ^ 32)
  /\ ((11 <= length chunks)%nat -> (length sent < length chunks)%nat).
Proof.
  cbv zeta. destruct (backlog_inv_run chunks) as (_ & Hlen & Hat).
  split; [exact Hlen|]. split.
  - intros i chunk Hi Hne.
    pose proof (lookup_lt_Some _ _ _ Hi) as Hlt.
    specialize (Hat i Hlt Hne). rewrite !list_lookup_fmap, Hi in Hat.
    destruct (written (transport_loop clock (Some <$> chunks))
                !! Z.to_nat (Z.of_nat i - Z.of_nat i / 11)) as [chunk'|] eqn:E;
      [|discriminate].
    exists chunk'. split; [reflexivity|].
    cbn in Hat. injection Hat as HP HT. split; [exact HP|]. split; [exact HT|].
    rewrite (transport_seq_nth clock _ _ _ E).
    rewrite Z2Nat.id; [reflexivity|].
    pose proof (Z.mod_pos_bound (Z.of_nat i) 11 ltac:(lia)).
    pose proof (Z.div_mod (Z.of_nat i) 11 ltac:(lia)). lia.
  - intros H11.
    assert (1 <= Z.of_nat (length chunks) / 11).
    { apply Z.div_le_lower_bound; lia. }
    lia.
Qed.

End TransportDrops.

(** ** Sessions and control commands *)

Section Lifecycle.

Import Service.

(** X4.  However [Subscribe] ends, its [finally] removes the session of the
    call's client and leaves every other session and the global flag as they
    were.  The subscription it registered is not disposed: once a session was
    started, the client's callback stays registered after the call. *)
Theorem Subscribe_cleans_session_keeps_subscriber (clientId : string)
    (clock : nat -> Z) (dequeues : list (option DataChunk))
    (ending : option Exception) (request : DataRequest) (s : DAQDataService) :
  let r := Subscribe clientId clock dequeues ending request s in
  _sessions (service r) !! clientId = None
  /\ (forall other : string,
        other <> clientId ->
        _sessions (service r) !! other = _sessions s !! other)
  /\ _globalDataGeneration (service r) = _globalDataGeneration s
  /\ _subscribers (service r)
     = (if session_started r then {[clientId]} ∪ _subscribers s
        else _subscribers s)
  /\ session_started r
     = negb ((Channels request =? 0) || (SampleRate request =? 0)
             || (BufferSize request =? 0)).
Proof.
  cbv zeta. unfold Subscribe.
  destruct ((Channels request =? 0) || (SampleRate request =? 0)
            || (BufferSize request =? 0));
    cbn [service session_started StopDataGeneration StartDataGeneration
         RegisterSubscriber _sessions _subscribers _globalDataGeneration negb].
  - split; [apply lookup_delete_eq|].
    split; [intros other Hne; now apply lookup_delete_ne|].
    repeat split.
  - split; [apply lookup_delete_eq|].
    split.
    + intros other Hne. rewrite lookup_delete_ne by congruence.
      now rewrite lookup_insert_ne by congruence.
    + repeat split.
Qed.

(** X5.  What the control commands do to the sessions.  No command adds or
    removes a session or a subscriber, and an undeclared command changes
    nothing.  STOP cancels every session; RESET, which is STOP followed by
    START, turns generation back on but leaves every session that existed
    cancelled and inactive; PAUSE and then RESUME leaves the sessions
    untouched with generation on. *)
Theorem Control_session_effects (now : Z) (params : gmap string string)
    (s : DAQDataService) :
  let run cmd s := (Control now {| Cmd := cmd; Params := params |} s).2 in
  (forall cmd, dom (_sessions (run cmd s)) = dom (_sessions s)
               /\ _subscribers (run cmd s) = _subscribers s)
  /\ (forall cmd clientId session,
        cmd = Stop \/ cmd = Reset ->
        _sessions (run cmd s) !! clientId = Some session ->
        IsActive session = false /\ CancellationRequested session = true)
  /\ _globalDataGeneration (run Stop s) = false
  /\ _globalDataGeneration (run Reset s) = true
  /\ _globalDataGeneration (run Pause s) = false
  /\ run Resume (run Pause s) = run Start s
  /\ _sessions (run Start s) = _sessions s
  /\ _sessions (run Start (run Stop s)) = cancel_session <$> _sessions s.
Proof.
  cbv zeta. split; [|split].
  - intros cmd.
    assert (Hcmd : cmd = 0 \/ cmd = 1 \/ cmd = 2 \/ cmd = 3 \/ cmd = 4
                   \/ (cmd < 0 \/ 4 < cmd)) by lia.
    destruct Hcmd as [->|[->|[->|[->|[->|Hcmd]]]]].
    + split; reflexivity.
    + split; [apply dom_fmap_L | reflexivity].
    + split; reflexivity.
    + split; reflexivity.
    + split; [apply dom_fmap_L | reflexivity].
    + rewrite Control_unknown by exact Hcmd. split; reflexivity.
  - intros cmd clientId session [-> | ->] Hs; cbn in Hs;
      rewrite lookup_fmap in Hs;
      destruct (_sessions s !! clientId) as [old|]; try discriminate;
      cbn in Hs; injection Hs as <-; split; reflexivity.
  - repeat split.
Qed.

End Lifecycle.


(** ** Latency statistics *)

Lemma to_int64_small z : - 2 ^ 63 <= z < 2 ^ 63 -> Int.to_int64 z = z.
Proof.
  unfold Int.to_int64. intros Hz. rewrite Z.mod_small by lia. lia.
Qed.

Section LatencyProperties.

Import Metrics Monitor.

Lemma total_alter (f : Z -> Z) (l : list Z) (i : nat) (x : Z) :
  l !! i = Some x -> total (alter f i l) = total l - x + f x.
Proof.
  revert i. induction l as [|y l IH]; intros [|i] H; try discriminate.
  - cbn in H. injection H as ->. cbn. lia.
  - cbn in H. cbn [alter list_alter total foldr]. fold (total (alter f i l)).
    fold (total l). rewrite (IH i H). lia.
Qed.

Lemma Qtotal_snoc (l : list Q) (x : Q) : (Qtotal (l ++ [x]) == Qtotal l + x)%Q.
Proof.
  induction l as [|y l IH]; cbn.
  - ring.
  - fold (Qtotal (l ++ [x])). fold (Qtotal l). rewrite IH. ring.
Qed.

Lemma bucket_lt_6 (latencyMs : Q) : (bucket latencyMs < 6)%nat.
Proof.
  unfold bucket.
  repeat match goal with |- context [if ?b then _ else _] => destruct b end; lia.
Qed.

Lemma in_bucket_snoc (k : nat) (ls : list Q) (x : Q) :
  in_bucket k (ls ++ [x])
  = in_bucket k ls + (if decide (bucket x = k) then 1 else 0).
Proof.
  unfold in_bucket. rewrite filter_app, length_app.
  destruct (decide (bucket x = k)) as [E|E].
  - rewrite filter_cons_True by exact E. cbn. lia.
  - rewrite filter_cons_False by exact E. cbn. lia.
Qed.

Lemma in_bucket_le (k : nat) (ls : list Q) :
  0 <= in_bucket k ls <= Z.of_nat (length ls).
Proof.
  unfold in_bucket. pose proof (length_filter (fun l => bucket l = k) ls). lia.
Qed.

Lemma histogram_inv_step (ls : list Q) (m : PerformanceMetrics) (x : Q) :
  Z.of_nat (length ls) + 1 < 2 ^ 63 ->
  histogram_inv ls m -> histogram_inv (ls ++ [x]) (UpdateLatencyStats m x).
Proof.
  intros Hn (Hc & Hk & Hl & Ht & Hs). unfold histogram_inv.
  cbn [UpdateLatencyStats LatencyCount LatencyDistribution LatencySum].
  rewrite length_app. cbn [length].
  pose proof (bucket_lt_6 x) as Hb.
  pose proof (Hk (bucket x) Hb) as Hx.
  pose proof (in_bucket_le (bucket x) ls) as Hle.
  split; [|split; [|split; [|split]]].
  - rewrite Hc, to_int64_small by lia. lia.
  - intros k Hk6. rewrite in_bucket_snoc.
    destruct (decide (bucket x = k)) as [<-|E].
    + rewrite list_lookup_alter_eq, Hx. cbn [fmap option_fmap option_map].
      now rewrite to_int64_small by lia.
    + rewrite list_lookup_alter_ne by exact E. rewrite (Hk k Hk6). f_equal. lia.
  - now rewrite length_alter.
  - rewrite (total_alter _ _ _ _ Hx), Ht, to_int64_small by lia. lia.
  - rewrite Hs, Qtotal_snoc. reflexivity.
Qed.

Lemma histogram_inv_run (m0 : PerformanceMetrics) (ls : list Q) :
  cleared m0 -> Z.of_nat (length ls) < 2 ^ 63 ->
  histogram_inv ls (foldl UpdateLatencyStats m0 ls).
Proof.
  intros (_ & _ & Hc & Hs & _ & _ & Hd).
  induction ls as [|x ls IH] using rev_ind; intros Hn.
  - unfold histogram_inv. cbn [foldl length]. rewrite Hc, Hs, Hd.
    split; [reflexivity|]. split.
    { intros k Hk. do 6 (destruct k as [|k]; [reflexivity|]). lia. }
    repeat split.
  - rewrite length_app in Hn. cbn [length] in Hn.
    rewrite foldl_snoc. apply histogram_inv_step; [lia|]. apply IH. lia.
Qed.

(** X6.  Latency bookkeeping.  Starting from a cleared metrics object, after
    any latencies have been recorded the count is their number, the sum is
    their sum, and the histogram partitions them: slot [k] holds the number
    of latencies that fall into bucket [k], so the six slots add up to the
    count. *)
Theorem latency_histogram_partitions (m0 : PerformanceMetrics) (ls : list Q) :
  cleared m0 -> Z.of_nat (length ls) < 2 ^ 63 ->
  let m := foldl UpdateLatencyStats m0 ls in
  LatencyCount m = Z.of_nat (length ls)
  /\ (forall k : nat, (k < 6)%nat ->
        LatencyDistribution m !! k
        = Some (Z.of_nat (length (filter (fun l => bucket l = k) ls))))
  /\ length (LatencyDistribution m) = 6%nat
  /\ total (LatencyDistribution m) = LatencyCount m
  /\ (LatencySum m == Qtotal ls)%Q.
Proof.
  intros Hm Hn. cbv zeta.
  destruct (histogram_inv_run m0 ls Hm Hn) as (Hc & Hk & Hl & Ht & Hs).
  rewrite Hc. repeat split; assumption.
Qed.

Lemma latency_histogram_partitions_witness :
  LatencyDistribution
    (foldl UpdateLatencyStats (create 0) [0.5; 3; 3; 200]%Q)
  = [1; 2; 0; 0; 0; 1]
  /\ total (LatencyDistribution
              (foldl UpdateLatencyStats (create 0) [0.5; 3; 3; 200]%Q))
     = LatencyCount (foldl UpdateLatencyStats (create 0) [0.5; 3; 3; 200]%Q).
Proof.
  split; [reflexivity|].
  apply (latency_histogram_partitions (create 0) [0.5; 3; 3; 200]%Q).
  - repeat split.
  - reflexivity.
Defined.

(** The extremes. *)
Lemma Qlt_bool_true (a b : Q) : Qlt_bool a b = true <-> (a < b)%Q.
Proof.
  unfold Qlt_bool. rewrite negb_true_iff.
  destruct (Qle_bool b a) eqn:E.
  - apply Qle_bool_iff in E. split; [discriminate|]. intros H.
    exfalso. apply (Qlt_not_le _ _ H E).
  - split; [|reflexivity]. intros _. apply Qnot_le_lt. intros H.
    apply Qle_bool_iff in H. congruence.
Qed.

Lemma Qlt_bool_false (a b : Q) : Qlt_bool a b = false <-> (b <= a)%Q.
Proof.
  unfold Qlt_bool. rewrite negb_false_iff. apply Qle_bool_iff.
Qed.

Lemma max_inv_step (ls : list Q) (m : PerformanceMetrics) (x : Q) :
  max_inv ls m -> max_inv (ls ++ [x]) (UpdateLatencyStats m x).
Proof.
  intros (H0 & Hall & Hin). unfold max_inv. cbn [UpdateLatencyStats MaxLatency].
  destruct (Qlt_bool (MaxLatency m) x) eqn:E.
  - apply Qlt_bool_true in E. split; [lra|]. split.
    + apply Forall_app. split.
      * eapply Forall_impl; [exact Hall|]. cbn. intros l Hl. lra.
      * constructor; [lra|constructor].
    + right. apply elem_of_app. right. constructor.
  - apply Qlt_bool_false in E. split; [exact H0|]. split.
    + apply Forall_app. split; [exact Hall|]. constructor; [exact E|constructor].
    + destruct Hin as [Hz|Hin]; [now left|]. right. apply elem_of_app. now left.
Qed.

Lemma min_inv_step (ls : list Q) (m : PerformanceMetrics) (x : Q) :
  (0 < x)%Q -> min_inv ls m -> min_inv (ls ++ [x]) (UpdateLatencyStats m x).
Proof.
  intros Hx H. unfold min_inv.
  destruct (ls ++ [x]) as [|y l'] eqn:El; [destruct ls; discriminate|].
  rewrite <- El. clear El y l'.
  cbn [UpdateLatencyStats MinLatency].
  destruct ls as [|l0 ls'].
  - cbn in H. rewrite H. cbn [app].
    replace (Qlt_bool x 0 || Qeq_bool 0 0) with true
      by (now rewrite orb_true_r).
    split; [exact Hx|]. split; [constructor; [lra|constructor]|constructor].
  - set (ls := l0 :: ls') in *. destruct H as (Hpos & Hall & Hin).
    destruct (Qlt_bool x (MinLatency m) || Qeq_bool (MinLatency m) 0) eqn:E.
    + apply orb_true_iff in E. destruct E as [E|E].
      * apply Qlt_bool_true in E. split; [exact Hx|]. split.
        -- apply Forall_app. split.
           ++ eapply Forall_impl; [exact Hall|]. cbn. intros l Hl. lra.
           ++ constructor; [lra|constructor].
        -- apply elem_of_app. right. constructor.
      * apply Qeq_bool_iff in E. lra.
    + apply orb_false_iff in E. destruct E as [E _].
      apply Qlt_bool_false in E. split; [exact Hpos|]. split.
      * apply Forall_app. split; [exact Hall|]. constructor; [exact E|constructor].
      * apply elem_of_app. now left.
Qed.

(** X7.  Latency extremes.  From a cleared metrics object, [MaxLatency] is
    never negative, bounds every recorded latency and is one of them unless
    it is still 0.  [MinLatency] treats 0 as "not set": when every recorded
    latency is positive it is the smallest of them. *)
Theorem latency_extremes (m0 : PerformanceMetrics) (ls : list Q) :
  cleared m0 ->
  let m := foldl UpdateLatencyStats m0 ls in
  (0 <= MaxLatency m)%Q
  /\ Forall (fun l => (l <= MaxLatency m)%Q) ls
  /\ (MaxLatency m = 0%Q \/ MaxLatency m ∈ ls)
  /\ (Forall (fun l => (0 < l)%Q) ls -> ls <> [] ->
      (0 < MinLatency m)%Q
      /\ Forall (fun l => (MinLatency m <= l)%Q) ls
      /\ MinLatency m ∈ ls).
Proof.
  intros (_ & _ & _ & _ & Hmin & Hmax & _). cbv zeta.
  assert (HM : max_inv ls (foldl UpdateLatencyStats m0 ls)).
  { induction ls as [|x ls IH] using rev_ind.
    - unfold max_inv. cbn [foldl]. rewrite Hmax. split; [lra|].
      split; [constructor|now left].
    - rewrite foldl_snoc. now apply max_inv_step. }
  destruct HM as (H0 & Hall & Hin).
  split; [exact H0|]. split; [exact Hall|]. split; [exact Hin|].
  intros Hpos Hne.
  assert (Hm : min_inv ls (foldl UpdateLatencyStats m0 ls)).
  { clear Hne H0 Hall Hin. induction ls as [|x ls IH] using rev_ind.
    - exact Hmin.
    - rewrite foldl_snoc. apply Forall_app in Hpos. destruct Hpos as [Hp Hx].
      apply min_inv_step; [now inversion Hx|now apply IH]. }
  unfold min_inv in Hm. destruct ls; [congruence|exact Hm].
Qed.

Lemma latency_extremes_witness :
  (0 <= MaxLatency (foldl UpdateLatencyStats (create 0) [3; 0.5; 7]%Q))%Q
  /\ (0 < MinLatency (foldl UpdateLatencyStats (create 0) [3; 0.5; 7]%Q))%Q.
Proof.
  destruct (latency_extremes (create 0) [3; 0.5; 7]%Q) as (H0 & _ & _ & Hmin).
  - repeat split.
  - split; [exact H0|]. apply Hmin.
    + repeat constructor.
    + discriminate.
Defined.

End LatencyProperties.

(** ** The monitor service *)

Section MonitorProperties.

Import Metrics Monitor.

Lemma names_client_Some (id : string) :
  id <> ""%string -> names_client (Some id) = Some id.
Proof.
  intros H. unfold names_client. destruct (decide (id = ""%string)); congruence.
Qed.

(** X8.  Client metrics and the five-minute sweep.  [RecordDataSent] for a
    named client makes its metrics available with the call's time as last
    update.  The sweep of [UpdateMetrics] keeps the client while at most five
    minutes have passed since then and removes it afterwards; it never
    touches the global metrics or the metrics of a client it keeps.
    [RecordLatency] does not refresh the last update, so latencies alone do
    not keep a client from being swept. *)
Theorem client_metrics_sweep (now createdAt bytes : Z) (id : string)
    (s : PerformanceMonitorService) :
  id <> ""%string ->
  let s1 := RecordDataSent now createdAt bytes (Some id) s in
  (exists m, GetClientMetrics id s1 = Some m /\ LastUpdateTime m = now)
  /\ (forall t, t - now <= five_minutes ->
        GetClientMetrics id (UpdateMetrics t s1) = GetClientMetrics id s1)
  /\ (forall t, five_minutes < t - now ->
        GetClientMetrics id (UpdateMetrics t s1) = None)
  /\ (forall t, _globalMetrics (UpdateMetrics t s1) = _globalMetrics s1)
  /\ (forall t other m,
        GetClientMetrics other (UpdateMetrics t s1) = Some m ->
        GetClientMetrics other s1 = Some m)
  /\ (forall t createdAt' latencyMs,
        GetClientMetrics id
          (UpdateMetrics t (RecordLatency createdAt' latencyMs (Some id) s1))
        = (fun m => UpdateLatencyStats m latencyMs)
            <$> GetClientMetrics id (UpdateMetrics t s1)).
Proof.
  intros Hid. cbv zeta.
  unfold RecordDataSent, RecordLatency, GetClientMetrics, UpdateMetrics.
  cbn [_clientMetrics _globalMetrics].
  rewrite (names_client_Some id Hid). cbn [_clientMetrics].
  set (m1 := Metrics.RecordDataSent now bytes
               (GetOrAdd createdAt id (_clientMetrics s))).
  assert (Hm1 : LastUpdateTime m1 = now) by reflexivity.
  split; [|split; [|split; [|split; [|split]]]].
  - exists m1. split; [apply lookup_insert_eq|exact Hm1].
  - intros t Ht. rewrite lookup_insert_eq.
    apply map_lookup_filter_Some. split; [apply lookup_insert_eq|].
    cbn. lia.
  - intros t Ht. apply map_lookup_filter_None. right.
    intros m Hm. rewrite lookup_insert_eq in Hm. injection Hm as <-.
    cbn. intros Hn. apply Hn. exact Ht.
  - reflexivity.
  - intros t other m Hm. apply map_lookup_filter_Some in Hm. apply Hm.
  - intros t createdAt' latencyMs.
    unfold GetOrAdd at 1. rewrite lookup_insert_eq. cbn [default].
    rewrite insert_insert_eq.
    destruct (decide (five_minutes < t - now)) as [Ht|Ht].
    + rewrite (proj2 (map_lookup_filter_None _ _ _)).
      * rewrite (proj2 (map_lookup_filter_None _ _ _)); [reflexivity|].
        right. intros m Hm. rewrite lookup_insert_eq in Hm. injection Hm as <-.
        cbn. intros Hn. apply Hn. exact Ht.
      * right. intros m Hm. rewrite lookup_insert_eq in Hm. injection Hm as <-.
        cbn. intros Hn. apply Hn. exact Ht.
    + rewrite (proj2 (map_lookup_filter_Some _ _ _ (UpdateLatencyStats m1 latencyMs))).
      * rewrite (proj2 (map_lookup_filter_Some _ _ _ m1)); [reflexivity|].
        split; [apply lookup_insert_eq|]. cbn. exact Ht.
      * split; [apply lookup_insert_eq|]. cbn. exact Ht.
Qed.

Lemma client_metrics_sweep_witness :
  GetClientMetrics "a"
    (UpdateMetrics 3000000000
       (RecordDataSent 0 0 100 (Some "a"%string)
          {| _globalMetrics := create 0; _clientMetrics := ∅ |}))
  = GetClientMetrics "a"
      (RecordDataSent 0 0 100 (Some "a"%string)
         {| _globalMetrics := create 0; _clientMetrics := ∅ |})
  /\ GetClientMetrics "a"
       (UpdateMetrics 3000000001
          (RecordDataSent 0 0 100 (Some "a"%string)
             {| _globalMetrics := create 0; _clientMetrics := ∅ |}))
     = None.
Proof.
  destruct (client_metrics_sweep 0 0 100 "a"
              {| _globalMetrics := create 0; _clientMetrics := ∅ |})
    as (_ & Hkeep & Hdrop & _); [discriminate|].
  split.
  - apply Hkeep. unfold five_minutes. lia.
  - apply Hdrop. unfold five_minutes. lia.
Defined.

(** X9.  Clearing.  [ClearClientMetrics] removes the one client and nothing
    else; [ResetMetrics] removes every client and clears the global
    counters. *)
Theorem clear_and_reset_metrics (now : Z) (id : string)
    (s : PerformanceMonitorService) :
  GetClientMetrics id (ClearClientMetrics id s) = None
  /\ (forall other, other <> id ->
        GetClientMetrics other (ClearClientMetrics id s)
        = GetClientMetrics other s)
  /\ _globalMetrics (ClearClientMetrics id s) = _globalMetrics s
  /\ (forall other, GetClientMetrics other (ResetMetrics now s) = None)
  /\ (length (LatencyDistribution (_globalMetrics s)) = 6%nat ->
      cleared (_globalMetrics (ResetMetrics now s))).
Proof.
  unfold GetClientMetrics, ClearClientMetrics, ResetMetrics.
  cbn [_clientMetrics _globalMetrics].
  split; [apply lookup_delete_eq|].
  split; [intros other Hne; apply lookup_delete_ne; congruence|].
  split; [reflexivity|].
  split; [intros other; apply lookup_empty|].
  intros H6. rewrite Reset_unfold. unfold cleared.
  cbn [TotalBytesSent TotalPacketsSent LatencyCount LatencySum MinLatency
       MaxLatency LatencyDistribution].
  rewrite (fmap_zero_six _ H6). repeat split.
Qed.

Lemma total_snoc (l : list Z) (x : Z) : total (l ++ [x]) = total l + x.
Proof.
  induction l as [|y l IH]; cbn; [lia|].
  fold (total (l ++ [x])). fold (total l). lia.
Qed.

Lemma total_nonneg (l : list Z) : Forall (fun x => 0 <= x) l -> 0 <= total l.
Proof.
  induction 1 as [|x l Hx _ IH]; cbn; [lia|]. fold (total l). lia.
Qed.

(** X10.  Traffic accounting of the stream.  The transport loop reports each
    written chunk with [RecordDataSent(length)] and no client name.  As long
    as the [long] counters do not overflow, the global byte counter grows by
    the sum of the reported lengths and the packet counter by their number;
    the last update is the time of the last call; no per-client metrics are
    created and the latency statistics are left alone. *)
Theorem stream_accounting (calls : list (Z * Z)) (s : PerformanceMonitorService) :
  Forall (fun call => 0 <= call.2) calls ->
  0 <= TotalBytesSent (_globalMetrics s) ->
  0 <= TotalPacketsSent (_globalMetrics s) ->
  TotalBytesSent (_globalMetrics s) + total (snd <$> calls) < 2 ^ 63 ->
  TotalPacketsSent (_globalMetrics s) + Z.of_nat (length calls) < 2 ^ 63 ->
  let s' := record_calls calls s in
  TotalBytesSent (_globalMetrics s')
  = TotalBytesSent (_globalMetrics s) + total (snd <$> calls)
  /\ TotalPacketsSent (_globalMetrics s')
     = TotalPacketsSent (_globalMetrics s) + Z.of_nat (length calls)
  /\ _clientMetrics s' = _clientMetrics s
  /\ LastUpdateTime (_globalMetrics s')
     = default (LastUpdateTime (_globalMetrics s)) (fst <$> last calls)
  /\ LatencyCount (_globalMetrics s') = LatencyCount (_globalMetrics s)
  /\ LatencyDistribution (_globalMetrics s')
     = LatencyDistribution (_globalMetrics s).
Proof.
  cbv zeta. intros Hpos Hb Hp.
  induction calls as [|[now bytes] calls IH] using rev_ind; intros Hsb Hsp.
  - cbn. repeat split; lia.
  - apply Forall_app in Hpos. destruct Hpos as [Hpos Hbytes].
    apply Forall_cons in Hbytes. destruct Hbytes as [Hbytes _]. cbn in Hbytes.
    rewrite fmap_app in Hsb. rewrite length_app in Hsp.
    cbn [fmap list_fmap snd length] in Hsb, Hsp. rewrite total_snoc in Hsb.
    pose proof (total_nonneg (snd <$> calls)) as Htot.
    rewrite Forall_fmap in Htot. specialize (Htot Hpos).
    destruct (IH Hpos) as (Ha & Hb1 & Hc & Hd & He & Hf); try lia.
    unfold record_calls in *. rewrite foldl_snoc.
    cbn [RecordDataSent names_client _globalMetrics _clientMetrics fst snd
         Metrics.RecordDataSent TotalBytesSent TotalPacketsSent LastUpdateTime
         LatencyCount LatencyDistribution].
    rewrite Ha, Hb1, Hc, He, Hf, fmap_app, length_app, last_snoc.
    cbn [fmap list_fmap option_fmap option_map snd fst length default].
    rewrite total_snoc.
    rewrite !to_int64_small by lia.
    repeat split; lia.
Qed.

Lemma stream_accounting_witness :
  TotalBytesSent
    (_globalMetrics
       (record_calls [(1, 800); (2, 800); (3, 400)]
          {| _globalMetrics := create 0; _clientMetrics := ∅ |})) = 0 + 2000
  /\ TotalPacketsSent
       (_globalMetrics
          (record_calls [(1, 800); (2, 800); (3, 400)]
             {| _globalMetrics := create 0; _clientMetrics := ∅ |}))
     = 0 + Z.of_nat 3.
Proof.
  destruct (stream_accounting [(1, 800); (2, 800); (3, 400)]
              {| _globalMetrics := create 0; _clientMetrics := ∅ |})
    as (Hb & Hp & _).
  - repeat constructor; cbn; lia.
  - cbn; lia.
  - cbn; lia.
  - cbn; lia.
  - cbn; lia.
  - split; [exact Hb | exact Hp].
Defined.

End MonitorProperties.

(** ** Sample ranges and the browser's decoder *)

Section Headroom.

Import Synth.

Lemma mixed_wave_bound (phase : R) :
  (- amplitude <= mixed_wave phase <= amplitude)%R.
Proof.
  unfold mixed_wave, amplitude.
  pose proof (SIN_bound phase). pose proof (SIN_bound (2 * phase)).
  pose proof (SIN_bound (3 * phase)). lra.
Qed.

Lemma clamp_inside (value lo hi : R) :
  (lo <= value <= hi)%R -> clamp value lo hi = value.
Proof.
  intros H. unfold clamp.
  destruct (Rlt_dec value lo); [lra|]. destruct (Rlt_dec hi value); lra.
Qed.

(** X11.  Headroom of the server's generator.  With the noise source in
    [0, 1) every value the synthesizer computes stays within 1.01 times the
    amplitude of 80 % of full scale, so [Math.Clamp] never changes it: the
    16-bit sample is the value truncated toward zero and lies within
    -26475 ... 26475, whatever the time, the channel and the chunk. *)
Theorem generator_never_clamps (rnd : Z -> R) (time : R)
    (channel sampleIndex : Z) :
  (0 <= rnd sampleIndex < 1)%R ->
  let value := sample_value time channel (rnd sampleIndex) in
  (Rabs value <= 1.01 * amplitude)%R
  /\ clamp value (-32768) 32767 = value
  /\ sample16_at rnd time channel sampleIndex = truncate value
  /\ -26475 <= sample16_at rnd time channel sampleIndex <= 26475.
Proof.
  intros Hn. cbv zeta.
  pose proof (mixed_wave_bound (channel_phase time channel)) as Hw.
  assert (Hv : (-26475.736 <= sample_value time channel (rnd sampleIndex)
                <= 26475.736)%R).
  { unfold sample_value, amplitude in *. lra. }
  assert (Hc : clamp (sample_value time channel (rnd sampleIndex)) (-32768) 32767
               = sample_value time channel (rnd sampleIndex)).
  { apply clamp_inside. lra. }
  split.
  { unfold amplitude. apply Rabs_le. lra. }
  split; [exact Hc|].
  unfold sample16_at, to_sample16. rewrite Hc. split; [reflexivity|].
  apply truncate_strict_range; [lia|]. lra.
Qed.

Lemma generator_never_clamps_witness :
  -26475 <= sample16_at (fun _ => 0%R) 0 0 0 <= 26475.
Proof.
  apply (generator_never_clamps (fun _ => 0%R) 0 0 0). lra.
Defined.

End Headroom.

Section MockBounds.

Import Mock.

Lemma sign_bound (x : R) : (-1 <= sign x <= 1)%R.
Proof.
  unfold sign. destruct (Rlt_dec 0 x); [lra|]. destruct (Rlt_dec x 0); lra.
Qed.

Lemma triangle_bound (x : R) : (-1 <= 2 / PI * asin x <= 1)%R.
Proof.
  pose proof PI_RGT_0 as Hpi. pose proof (asin_bound x) as [Hlo Hhi].
  assert (Hk : (0 < 2 / PI)%R) by (apply Rdiv_lt_0_compat; lra).
  assert (E : (2 / PI * (PI / 2) = 1)%R) by (field; lra).
  split.
  - apply (Rmult_le_compat_l (2 / PI)) in Hlo; [|lra].
    replace (2 / PI * - (PI / 2))%R with (- (2 / PI * (PI / 2)))%R in Hlo by ring.
    lra.
  - apply (Rmult_le_compat_l (2 / PI)) in Hhi; [|lra]. lra.
Qed.

(** X12.  Range of the browser's generator.  For a positive sample rate, a
    non-negative amplitude and random numbers in [0, 1), every waveform kind
    yields samples within the amplitude, and the sample of a chunk, with its
    additive noise, stays within the amplitude times [1 + noiseLevel / 2]. *)
Theorem mock_samples_within_amplitude (config : MockConfig)
    (sampleCounter : Z) (random1 random2 : R) (time : R) (ch i : Z) :
  0 < sampleRate config ->
  (0 <= amplitude config)%R ->
  (0 <= random1 < 1)%R -> (0 <= random2 < 1)%R ->
  (Rabs (generateSample config random1 time ch) <= amplitude config)%R
  /\ (Rabs (chunk_sample config sampleCounter random1 random2 ch i)
      <= amplitude config * (1 + Rmax 0 (noiseLevel config) / 2))%R.
Proof.
  intros _ HA H1 H2.
  assert (Hg : forall t, (- amplitude config
                          <= generateSample config random1 t ch
                          <= amplitude config)%R).
  { intros t. unfold generateSample.
    set (phase := (2 * PI * (frequency config * (1 + IZR ch * 0.1)) * t)%R).
    pose proof (SIN_bound phase). pose proof (SIN_bound (2 * phase)).
    pose proof (SIN_bound (3 * phase)). pose proof (sign_bound (sin phase)).
    pose proof (triangle_bound (sin phase)).
    destruct (waveformType config).
    - nra.
    - nra.
    - rewrite Rmult_assoc. nra.
    - nra.
    - nra. }
  split; [apply Rabs_le, Hg|].
  unfold chunk_sample.
  set (t := (IZR (sampleCounter + i) / IZR (sampleRate config))%R).
  specialize (Hg t).
  destruct (Rlt_dec 0 (noiseLevel config)) as [Hn|Hn].
  - rewrite Rmax_right by lra. apply Rabs_le.
    set (n := noiseLevel config) in *. set (A := amplitude config) in *.
    assert (Hu : (- (n / 2) <= (random2 - 0.5) * n <= n / 2)%R) by nra.
    assert (Hp : (- (n / 2) * A <= (random2 - 0.5) * n * A <= n / 2 * A)%R).
    { split; apply Rmult_le_compat_r; lra. }
    lra.
  - rewrite Rmax_left by lra. apply Rabs_le. lra.
Qed.

Lemma mock_samples_within_amplitude_witness :
  (Rabs (generateSample scenario_config 0 0 0) <= amplitude scenario_config)%R.
Proof.
  apply (mock_samples_within_amplitude scenario_config 0 0 0 0 0 0);
    cbn; (lia || lra).
Defined.

End MockBounds.

Section Decoder.

Import Synth Client.

Lemma byte_at_lookup (payload : list Z) (k : nat) (b : Z) :
  payload !! k = Some b -> byte_at payload (Z.of_nat k) = b.
Proof.
  intros H. unfold byte_at.
  destruct (Z.of_nat k <? 0) eqn:E; [apply Z.ltb_lt in E; lia|].
  now rewrite Nat2Z.id, H.
Qed.

Lemma channel_entry_sample (samples : list Z) (channels ch i s : Z) :
  0 <= i -> 0 <= ch -> 0 <= channels ->
  samples !! Z.to_nat (i * channels + ch) = Some s ->
  channel_entry (mjoin (slot_bytes <$> samples)) channels ch i
  = (inject_Z (s mod 2 ^ 16) / 32768)%Q.
Proof.
  intros Hi Hch Hc Hs. unfold channel_entry.
  pose proof (lookup_lt_Some _ _ _ Hs) as Hlt.
  destruct (sample_bytes_lookup samples _ s Hs) as [Hlo Hhi].
  rewrite length_sample_bytes.
  assert (Hk : 0 <= i * channels + ch) by nia.
  destruct (_ <? _) eqn:E; [|apply Z.ltb_ge in E; lia].
  replace ((i * channels + ch) * 2)
    with (Z.of_nat (2 * Z.to_nat (i * channels + ch))) by lia.
  rewrite (byte_at_lookup _ _ _ Hlo).
  replace (Z.of_nat (2 * Z.to_nat (i * channels + ch)) + 1)
    with (Z.of_nat (2 * Z.to_nat (i * channels + ch) + 1)) by lia.
  rewrite (byte_at_lookup _ _ _ Hhi).
  now rewrite bytes_recombine.
Qed.

(** Decoding what [slot_bytes] encoded, for any interleaved samples. *)
Lemma decode_interleaved_samples (samples : list Z)
    (channels samplesPerChannel : Z) :
  0 < channels -> 0 <= samplesPerChannel ->
  Z.of_nat (length samples) = samplesPerChannel * channels ->
  Forall (fun s => -32768 <= s <= 32767) samples ->
  let arrays :=
    convertDataChunkToFloat32Arrays (mjoin (slot_bytes <$> samples)) channels in
  Z.of_nat (length arrays) = channels
  /\ Forall (fun array => Z.of_nat (length array) = samplesPerChannel) arrays
  /\ forall ch i : Z,
       0 <= ch < channels -> 0 <= i < samplesPerChannel ->
       exists s array,
         samples !! Z.to_nat (i * channels + ch) = Some s
         /\ arrays !! Z.to_nat ch = Some array
         /\ array !! Z.to_nat i
            = Some (inject_Z (if s <? 0 then s + 65536 else s) / 32768)%Q.
Proof.
  intros Hc Hn Hlen Hrange. cbv zeta.
  unfold convertDataChunkToFloat32Arrays.
  destruct (channels <=? 0) eqn:E; [apply Z.leb_le in E; lia|].
  rewrite length_sample_bytes.
  replace (Z.of_nat (2 * length samples) / (2 * channels))
    with samplesPerChannel.
  2:{ apply Z.div_unique_exact; lia. }
  split; [rewrite length_fmap, length_seqZ; lia|].
  split.
  { apply Forall_fmap, Forall_forall. intros ch _. cbn.
    rewrite length_fmap, length_seqZ. lia. }
  intros ch i Hch Hi.
  assert (Hidx : 0 <= i * channels + ch < Z.of_nat (length samples)) by nia.
  destruct (lookup_lt_is_Some_2 samples (Z.to_nat (i * channels + ch)))
    as [s Hs]; [lia|].
  exists s. eexists. split; [exact Hs|]. split.
  { rewrite list_lookup_fmap.
    replace (Z.to_nat ch) with (Z.to_nat (ch - 0)) by (f_equal; lia).
    rewrite lookup_seqZ_lt by lia. cbn [fmap option_fmap option_map].
    reflexivity. }
  rewrite list_lookup_fmap.
  replace (Z.to_nat i) with (Z.to_nat (i - 0)) by (f_equal; lia).
  rewrite lookup_seqZ_lt by lia. cbn [fmap option_fmap option_map].
  replace (0 + Z.of_nat (Z.to_nat (ch - 0))) with ch by lia.
  replace (0 + Z.of_nat (Z.to_nat (i - 0))) with i by lia.
  rewrite (channel_entry_sample samples channels ch i s) by (lia || exact Hs).
  f_equal.
  eapply Forall_lookup_1 in Hrange; [|exact Hs]. cbn in Hrange.
  destruct (Z.ltb_spec s 0) as [Hneg|Hpos].
  - rewrite <- (Z.mod_add s 1) by lia. rewrite Z.mod_small by lia.
    reflexivity.
  - rewrite Z.mod_small by lia. reflexivity.
Qed.


Variable rnd : Z -> R.

(** X13.  The browser's decoder against the server's generator.  For a
    chunk the generator produced, [convertDataChunkToFloat32Arrays] with the
    request's channel count returns one array per channel, each with
    [BufferSize] entries; entry [i] of channel [ch] comes from the sample the
    generator computed for slot [(i, ch)].  The two bytes are read as an
    unsigned number: a sample [s >= 0] is shown as [s / 32768], a negative
    one as [(s + 65536) / 32768], which is [s / 32768 + 2], not as
    [s / 32768]. *)
Theorem decoder_reads_generated_chunk_unsigned (request : DataRequest)
    (sequenceNumber : Z) :
  0 < Channels request -> 0 < SampleRate request -> 0 < BufferSize request ->
  Channels request * BufferSize request * 2 <= Int.max_int32 ->
  exists payload,
    GenerateHighPerformanceData rnd request sequenceNumber = Some payload
    /\ let arrays :=
         convertDataChunkToFloat32Arrays payload (Channels request) in
       Z.of_nat (length arrays) = Channels request
       /\ Forall (fun array => Z.of_nat (length array) = BufferSize request)
            arrays
       /\ forall ch i : Z,
            0 <= ch < Channels request -> 0 <= i < BufferSize request ->
            exists array,
              arrays !! Z.to_nat ch = Some array
              /\ array !! Z.to_nat i
                 = Some (let s := sample16_of rnd request sequenceNumber i ch in
                         inject_Z (if s <? 0 then s + 65536 else s) / 32768)%Q.
Proof.
  intros HC _ HS Hmax.
  rewrite (GenerateHighPerformanceData_payload rnd request sequenceNumber HC HS Hmax).
  eexists. split; [reflexivity|].
  set (samples := chunk_samples rnd sequenceNumber (BufferSize request)
                    (SampleRate request) (seqZ 0 (Channels request))
                    (seqZ 0 (BufferSize request)) 0).
  assert (Hlen : Z.of_nat (length samples)
                 = BufferSize request * Channels request).
  { unfold samples. rewrite length_chunk_samples, !length_seqZ. nia. }
  destruct (decode_interleaved_samples samples (Channels request)
              (BufferSize request) HC ltac:(lia) Hlen
              (chunk_samples_range rnd _ _ _ _ _ _))
    as (Hn & Hall & Hat).
  cbv zeta. split; [exact Hn|]. split; [exact Hall|].
  intros ch i Hch Hi.
  destruct (Hat ch i Hch Hi) as (s & array & Hs & Harr & Hentry).
  exists array. split; [exact Harr|].
  rewrite Hentry. unfold samples in Hs.
  rewrite (chunk_samples_slot rnd request sequenceNumber i ch HC HS Hmax Hi Hch)
    in Hs.
  injection Hs as <-. reflexivity.
Qed.

End Decoder.

Lemma decoder_reads_generated_chunk_unsigned_witness :
  exists payload,
    Synth.GenerateHighPerformanceData (fun _ => 0%R) Synth.scenario_request 0
    = Some payload
    /\ Z.of_nat (length (Client.convertDataChunkToFloat32Arrays payload 1)) = 1.
Proof.
  destruct (decoder_reads_generated_chunk_unsigned (fun _ => 0%R)
              Synth.scenario_request 0) as (payload & Hp & Hn & _).
  - unfold Synth.scenario_request; cbn [Channels]; lia.
  - unfold Synth.scenario_request; cbn [SampleRate]; lia.
  - unfold Synth.scenario_request; cbn [BufferSize]; lia.
  - unfold Synth.scenario_request, Int.max_int32; cbn [Channels BufferSize]; lia.
  - exists payload. split; [exact Hp | exact Hn].
Defined.

(** ** Level of detail: the number of points kept *)

Section LODBound.

Import JS LOD.

Lemma lod_step_bounds (len : Z) (target : Q) :
  (0 < target)%Q ->
  let q := Qfloor (inject_Z len / target) in
  (inject_Z q * target <= inject_Z len)%Q
  /\ (inject_Z len < (inject_Z q + 1) * target)%Q.
Proof.
  intros Ht. cbv zeta.
  pose proof (Qfloor_le (inject_Z len / target)) as Hlo.
  pose proof (Qlt_floor (inject_Z len / target)) as Hhi.
  rewrite inject_Z_plus in Hhi. change (inject_Z 1) with 1%Q in Hhi.
  assert (E : (inject_Z len / target * target == inject_Z len)%Q)
    by (field; lra).
  set (x := (inject_Z len / target)%Q) in *.
  set (q := inject_Z (Qfloor x)) in *.
  split.
  - apply Qle_trans with (x * target)%Q; [|rewrite E; apply Qle_refl].
    apply Qmult_le_compat_r; [exact Hlo|lra].
  - apply Qle_lt_trans with (x * target)%Q; [rewrite E; apply Qle_refl|].
    apply Qmult_lt_compat_r; [exact Ht|exact Hhi].
Qed.

Lemma lod_count_bound (len : Z) (target : Q) :
  0 <= len -> (0 < target)%Q ->
  let step := lod_step_formula len target in
  let n := (len + step - 1) / step in
  1 <= step /\ 0 <= n <= len
  /\ (inject_Z n < 2 * target + 1)%Q
  /\ ((inject_Z len <= target)%Q -> n = len).
Proof.
  intros Hlen Ht. cbv zeta. unfold lod_step_formula.
  destruct (lod_step_bounds len target Ht) as [Hlo Hhi]. cbv zeta in Hlo, Hhi.
  set (q := Qfloor (inject_Z len / target)) in *.
  set (step := Z.max 1 q).
  assert (Hs : 1 <= step) by lia.
  pose proof (Z.div_mod (len + step - 1) step ltac:(lia)) as Hd.
  pose proof (Z.mod_pos_bound (len + step - 1) step ltac:(lia)) as Hm.
  set (n := (len + step - 1) / step) in *.
  assert (Hn0 : 0 <= n) by (apply Z.div_pos; lia).
  assert (Hnq : n * step <= len + step - 1) by lia.
  split; [exact Hs|]. split; [split; [exact Hn0|nia]|]. split.
  - destruct (Z_le_gt_dec q 1) as [Hq|Hq].
    + assert (Hstep : step = 1) by lia.
      assert (Hn : n = len) by (unfold n; rewrite Hstep, Z.div_1_r; lia).
      rewrite Hn.
      assert (Hq1 : (inject_Z q <= 1)%Q).
      { change 1%Q with (inject_Z 1). rewrite <- Zle_Qle. exact Hq. }
      nra.
    + assert (Hstep : step = q) by lia.
      assert (Hq2 : (2 <= inject_Z q)%Q).
      { change 2%Q with (inject_Z 2). rewrite <- Zle_Qle. lia. }
      assert (HnqQ : (inject_Z n * inject_Z q <= inject_Z len + inject_Z q - 1)%Q).
      { assert (Hz : n * q + 1 <= len + q) by lia.
        rewrite Zle_Qle, !inject_Z_plus, inject_Z_mult in Hz.
        change (inject_Z 1) with 1%Q in Hz. lra. }
      destruct (Qlt_le_dec (inject_Z n) (2 * target + 1)) as [H|H]; [exact H|].
      exfalso.
      assert (Hp : ((2 * target + 1) * inject_Z q <= inject_Z n * inject_Z q)%Q).
      { apply Qmult_le_compat_r; lra. }
      nra.
  - intros Hle.
    assert (Hq1 : q <= 1).
    { assert (H1 : (inject_Z len / target <= 1)%Q).
      { apply Qle_shift_div_r; [exact Ht|]. now rewrite Qmult_1_l. }
      apply Qfloor_resp_le in H1. exact H1. }
    assert (Hstep : step = 1) by lia.
    unfold n. rewrite Hstep, Z.div_1_r. lia.
Qed.

(** X14.  How many points the level of detail keeps.  For every length and
    every positive target, the step of [calculateOptimalStep] and of
    [convertDataToPlot] is at least 1, the loop
    [for (i = 0; i < length; i += step)] ends and keeps the multiples of the
    step below the length: never more points than there are, fewer than
    [2 * target + 1] of them, and all of them when the length does not
    exceed the target. *)
Theorem lod_keeps_fewer_than_twice_the_target (len : Z) (target : Q) :
  0 <= len -> (0 < target)%Q ->
  exists step kept,
    calculateOptimalStep len target = Fin step
    /\ plot_step len target = Fin step
    /\ 1 <= step
    /\ kept_indices (Z.to_nat len) len (Fin step) = Some kept
    /\ kept = (fun k => Fin (step * k)) <$> seqZ 0 ((len + step - 1) / step)
    /\ (length kept <= Z.to_nat len)%nat
    /\ (inject_Z (Z.of_nat (length kept)) < 2 * target + 1)%Q
    /\ ((inject_Z len <= target)%Q -> length kept = Z.to_nat len).
Proof.
  intros Hlen Ht.
  destruct (lod_count_bound len target Hlen Ht) as (Hs & Hn & Hb & Hall).
  cbv zeta in Hn, Hb, Hall.
  set (step := lod_step_formula len target) in *.
  destruct (kept_from_fuel (Z.to_nat len) 0 len step Hs ltac:(lia) ltac:(lia))
    as (kept & Hk & Heq).
  replace (len - 0 + step - 1) with (len + step - 1) in Heq by lia.
  exists step, kept.
  split; [now apply calculateOptimalStep_formula|].
  split; [now apply plot_step_formula|].
  split; [exact Hs|]. split; [exact Hk|].
  assert (Hl : Z.of_nat (length kept) = (len + step - 1) / step).
  { rewrite Heq, length_fmap, length_seqZ. lia. }
  split; [exact Heq|]. split; [lia|]. split; [now rewrite Hl|].
  intros Hle. specialize (Hall Hle). lia.
Qed.

Lemma lod_keeps_fewer_than_twice_the_target_witness :
  exists step kept,
    calculateOptimalStep 1000 (1000 / 3)%Q = Fin step
    /\ kept_indices (Z.to_nat 1000) 1000 (Fin step) = Some kept
    /\ (length kept <= Z.to_nat 1000)%nat.
Proof.
  destruct (lod_keeps_fewer_than_twice_the_target 1000 (1000 / 3)%Q)
    as (step & kept & H1 & _ & _ & H2 & _ & H3 & _).
  - lia.
  - reflexivity.
  - exists step, kept. split; [exact H1|]. split; [exact H2 | exact H3].
Defined.

End LODBound.

(** ** Pacing: rates *)

Section PacedRate.

Import Pacer.

(** X15.  What rate the server paces for.  For a request without overflow
    the interval between chunks is positive, and one chunk per interval
    amounts to [Channels] times the target rate that [Subscribe] computes and
    logs, [Channels * SampleRate * 2] bytes per second: the two agree only
    for a single channel. *)
Theorem server_paces_channels_times_the_logged_rate (request : DataRequest) :
  0 < Channels request -> 0 < SampleRate request ->
  SampleRate request * Channels request < 2 ^ 32 ->
  0 < BufferSize request ->
  Channels request * BufferSize request * 2 <= Int.max_int32 ->
  exists interval,
    targetIntervalMs request = Some interval
    /\ (0 < interval)%Q
    /\ Service.targetDataRate request
       = Channels request * SampleRate request * 2
    /\ (inject_Z (bytesPerChunk request) * 1000 / interval
        == inject_Z (Channels request * Service.targetDataRate request))%Q.
Proof.
  intros HC HR Hw HB Hmax.
  assert (HB' : BufferSize request <= Int.max_int32)
    by (unfold Int.max_int32 in *; nia).
  destruct (targetIntervalMs_value request HC HR Hw (conj HB HB'))
    as (interval & Hi & Hv).
  exists interval. split; [exact Hi|].
  assert (H1 : (0 < inject_Z (SampleRate request * Channels request))%Q).
  { change 0%Q with (inject_Z 0). rewrite <- Zlt_Qlt. lia. }
  assert (H2 : (0 < inject_Z (BufferSize request))%Q).
  { change 0%Q with (inject_Z 0). rewrite <- Zlt_Qlt. lia. }
  assert (Hpos : (0 < interval)%Q).
  { rewrite Hv. apply Qlt_shift_div_l; [exact H1|]. lra. }
  split; [exact Hpos|].
  assert (Hrate : Service.targetDataRate request
                  = Channels request * SampleRate request * 2).
  { unfold Service.targetDataRate.
    rewrite to_uint32_small by lia.
    unfold Int.to_int64. rewrite Z.mod_small by lia. lia. }
  split; [exact Hrate|].
  rewrite Hrate. unfold bytesPerChunk, samplesPerChunk.
  rewrite (to_int32_small (BufferSize request))
    by (unfold Int.max_int32 in *; lia).
  rewrite to_int32_small by (unfold Int.max_int32 in *; nia).
  rewrite Hv. rewrite !inject_Z_mult in *.
  set (c := inject_Z (Channels request)) in *.
  set (r := inject_Z (SampleRate request)) in *.
  set (b := inject_Z (BufferSize request)) in *.
  change (inject_Z 2) with 2%Q.
  assert (Hc : (0 < c)%Q).
  { unfold c. change 0%Q with (inject_Z 0). rewrite <- Zlt_Qlt. lia. }
  assert (Hr : (0 < r)%Q).
  { unfold r. change 0%Q with (inject_Z 0). rewrite <- Zlt_Qlt. lia. }
  field. repeat split; lra.
Qed.

Lemma server_paces_channels_times_the_logged_rate_witness :
  exists interval,
    targetIntervalMs {| Channels := 4; SampleRate := 1000; BufferSize := 100;
                        Config := ∅ |} = Some interval
    /\ (0 < interval)%Q.
Proof.
  destruct (server_paces_channels_times_the_logged_rate
              {| Channels := 4; SampleRate := 1000; BufferSize := 100;
                 Config := ∅ |})
    as (interval & Hi & Hpos & _).
  - cbn; lia.
  - cbn; lia.
  - cbn; lia.
  - cbn; lia.
  - unfold Int.max_int32; cbn; lia.
  - exists interval. split; [exact Hi | exact Hpos].
Defined.

End PacedRate.

Section StreamerCap.

Import Pacer Streamer.

Lemma chunkInterval_floor (config : Mock.MockConfig) (target interval : Q) :
  chunkInterval config target = Some interval -> (8 <= interval)%Q.
Proof.
  unfold chunkInterval.
  repeat match goal with
         | |- context [if ?b then _ else _] => destruct b
         end; intros H; try discriminate; injection H as <-;
    try apply Qle_refl; apply Q.le_max_l.
Qed.

Lemma animationLoop_inv (chunkInterval startTime tEnd : Q) (stats : Stats)
    (now : Q) :
  (now <= tEnd)%Q ->
  0 <= frameCount stats
  /\ (lastUpdateTime stats <= tEnd)%Q
  /\ (inject_Z (frameCount stats) * chunkInterval
      <= lastUpdateTime stats - startTime)%Q ->
  let stats' := animationLoop chunkInterval stats now in
  0 <= frameCount stats'
  /\ (lastUpdateTime stats' <= tEnd)%Q
  /\ (inject_Z (frameCount stats') * chunkInterval
      <= lastUpdateTime stats' - startTime)%Q.
Proof.
  intros Hnow (Hc & Hl & Hi). cbv zeta. unfold animationLoop, due.
  destruct (Qle_bool chunkInterval (now - lastUpdateTime stats)) eqn:E.
  - apply Qle_bool_iff in E. cbn [frameCount lastUpdateTime].
    split; [lia|]. split; [exact Hnow|].
    rewrite inject_Z_plus. change (inject_Z 1) with 1%Q. lra.
  - repeat split; assumption.
Qed.

(** X16.  The streamer's ceiling.  Between two generated chunks at least the
    chunk interval passes, and the interval is never below 8 ms.  So over
    animation frames that all fall between the start and a time [tEnd], the
    number of generated chunks times the interval, and hence times 8 ms, does
    not exceed the elapsed time: at most 125 chunks per second, whatever the
    target rate. *)
Theorem streamer_generates_at_most_one_chunk_per_interval
    (config : Mock.MockConfig) (targetDataRateMBps interval : Q)
    (startTime tEnd : Q) (frames : list Q) :
  chunkInterval config targetDataRateMBps = Some interval ->
  (startTime <= tEnd)%Q ->
  Forall (fun now => (now <= tEnd)%Q) frames ->
  let stats := run interval startTime frames in
  0 <= frameCount stats
  /\ (8 <= interval)%Q
  /\ (inject_Z (frameCount stats) * interval <= tEnd - startTime)%Q
  /\ (inject_Z (frameCount stats) * 8 <= tEnd - startTime)%Q.
Proof.
  intros Hi Hstart Hframes. cbv zeta.
  pose proof (chunkInterval_floor _ _ _ Hi) as H8.
  assert (Hinv : 0 <= frameCount (run interval startTime frames)
                 /\ (lastUpdateTime (run interval startTime frames) <= tEnd)%Q
                 /\ (inject_Z (frameCount (run interval startTime frames))
                     * interval
                     <= lastUpdateTime (run interval startTime frames)
                        - startTime)%Q).
  { induction frames as [|now frames IH] using rev_ind.
    - unfold run. cbn [foldl start frameCount lastUpdateTime].
      split; [lia|]. split; [exact Hstart|].
      change (inject_Z 0) with 0%Q. lra.
    - apply Forall_app in Hframes. destruct Hframes as [Hf Hn].
      apply Forall_cons in Hn. destruct Hn as [Hn _].
      unfold run. rewrite foldl_snoc.
      apply (animationLoop_inv interval startTime tEnd _ now Hn).
      apply IH. exact Hf. }
  destruct Hinv as (Hc & Hl & Hb).
  split; [exact Hc|]. split; [exact H8|].
  assert (Hq : (0 <= inject_Z (frameCount (run interval startTime frames)))%Q).
  { change 0%Q with (inject_Z 0). rewrite <- Zle_Qle. exact Hc. }
  split; [lra|].
  assert (Hp : (8 * inject_Z (frameCount (run interval startTime frames))
                <= interval
                   * inject_Z (frameCount (run interval startTime frames)))%Q).
  { apply Qmult_le_compat_r; assumption. }
  lra.
Qed.

Lemma streamer_generates_at_most_one_chunk_per_interval_witness :
  exists interval,
    chunkInterval card_PXIe_69846H 640 = Some interval
    /\ (inject_Z (frameCount (run interval 0 [4; 11; 16; 22; 35]%Q)) * 8
        <= 35 - 0)%Q.
Proof.
  eexists. split; [reflexivity|].
  apply (streamer_generates_at_most_one_chunk_per_interval
           card_PXIe_69846H 640 _ 0 35 [4; 11; 16; 22; 35]%Q).
  - reflexivity.
  - discriminate.
  - repeat constructor; discriminate.
Defined.

End StreamerCap.

(** ** The producer task *)

Section ProducerProperties.

Import Producer.

Variable clientId : string.
Variable request : DataRequest.





End ProducerProperties.


(** ** The browser's generator and the metrics snapshot *)

Section MockChunks.

Import MockGenerator.

Variable fround : R -> R.
Variables random1 random2 : Z -> Z -> Z -> R.

Lemma generateChunks_from (config : Mock.MockConfig) (elapsed : list R) :
  0 <= Mock.bufferSize config ->
  forall first : Z,
    exists chunks,
      generateChunks fround random1 random2 config elapsed
        {| sampleCounter := first * Mock.bufferSize config;
           sequenceNumber := first |}
      = Some (chunks,
              {| sampleCounter :=
                   (first + Z.of_nat (length elapsed)) * Mock.bufferSize config;
                 sequenceNumber := first + Z.of_nat (length elapsed) |})
      /\ continues fround random1 random2 config elapsed first chunks.
Proof.
  intros HB. induction elapsed as [|e elapsed IH]; intros first.
  - exists []. cbn [generateChunks length]. split.
    + do 3 f_equal; lia.
    + split; [reflexivity|]. intros k chunk Hk. now rewrite lookup_nil in Hk.
  - cbn [generateChunks]. unfold generateChunk.
    destruct (Z.ltb_spec (Mock.bufferSize config) 0) as [Hneg|_]; [lia|].
    rewrite andb_false_r. cbn [sampleCounter sequenceNumber].
    destruct (IH (first + 1)) as (chunks & Hrun & Hlen & Hat).
    replace (first * Mock.bufferSize config + Mock.bufferSize config)
      with ((first + 1) * Mock.bufferSize config) by lia.
    rewrite Hrun. eexists. split.
    { cbn [length]. do 3 f_equal; lia. }
    split; [cbn [length]; now rewrite Hlen|].
    intros [|k] chunk Hk.
    + cbn in Hk. injection Hk as <-. cbn [metadata seq timestamp bytesPerSecond data].
      rewrite Z.add_0_r.
      split; [reflexivity|]. split; [reflexivity|]. split; [reflexivity|].
      split; [rewrite length_fmap, length_seqZ; reflexivity|].
      intros ch i Hch Hi. eexists. split.
      { rewrite list_lookup_fmap.
        replace (Z.to_nat ch) with (Z.to_nat (ch - 0)) by (f_equal; lia).
        rewrite lookup_seqZ_lt by lia. cbn [fmap option_fmap option_map].
        reflexivity. }
      split; [rewrite length_fmap, length_seqZ; reflexivity|].
      rewrite list_lookup_fmap.
      replace (Z.to_nat i) with (Z.to_nat (i - 0)) by (f_equal; lia).
      rewrite lookup_seqZ_lt by lia. cbn [fmap option_fmap option_map].
      replace (0 + Z.of_nat (Z.to_nat (ch - 0))) with ch by lia.
      replace (0 + Z.of_nat (Z.to_nat (i - 0))) with i by lia.
      reflexivity.
    + cbn in Hk. destruct (Hat k chunk Hk) as (H1 & H2 & H3 & H4 & H5).
      replace (first + Z.of_nat (S k)) with (first + 1 + Z.of_nat k) by lia.
      split; [exact H1|]. split; [exact H2|]. split; [exact H3|].
      split; [exact H4|exact H5].
Qed.

(** X18.  The browser's generator keeps one time axis across chunks.  For a
    positive sample rate and a non-negative buffer size, successive calls of [generateChunk] on a new
    (or reset) generator all succeed; chunk number [k] carries [seq = k] and
    the clock reading of its call, has one array of [bufferSize] entries per
    channel, and its entry [i] is the sample number [k * bufferSize + i] of
    the signal, at time [(k * bufferSize + i) / sampleRate], as stored in the
    [Float32Array]. *)
Theorem generateChunk_continues_the_time_axis (config : Mock.MockConfig)
    (elapsed : list R) (st : State) :
  0 < Mock.sampleRate config -> 0 <= Mock.bufferSize config ->
  exists chunks,
    generateChunks fround random1 random2 config elapsed (reset st)
    = Some (chunks,
            {| sampleCounter :=
                 Z.of_nat (length elapsed) * Mock.bufferSize config;
               sequenceNumber := Z.of_nat (length elapsed) |})
    /\ length chunks = length elapsed
    /\ forall (k : nat) (chunk : Chunk),
         chunks !! k = Some chunk ->
         seq (metadata chunk) = Z.of_nat k
         /\ Some (timestamp (metadata chunk)) = elapsed !! k
         /\ bytesPerSecond (metadata chunk)
            = Mock.channels config * Mock.sampleRate config * 2
         /\ length (data chunk) = Z.to_nat (Mock.channels config)
         /\ forall ch i : Z,
              0 <= ch < Mock.channels config ->
              0 <= i < Mock.bufferSize config ->
              exists samples,
                data chunk !! Z.to_nat ch = Some samples
                /\ length samples = Z.to_nat (Mock.bufferSize config)
                /\ samples !! Z.to_nat i
                   = Some (fround
                             (Mock.chunk_sample config 0
                                (random1 (Z.of_nat k) ch i)
                                (random2 (Z.of_nat k) ch i) ch
                                (Z.of_nat k * Mock.bufferSize config + i))).
Proof.
  intros _ HB.
  destruct (generateChunks_from config elapsed HB 0) as (chunks & Hrun & Hlen & Hat).
  exists chunks. split; [exact Hrun|]. split; [exact Hlen|].
  intros k chunk Hk. apply (Hat k chunk Hk).
Qed.

End MockChunks.

Lemma generateChunk_continues_the_time_axis_witness :
  exists chunks,
    MockGenerator.generateChunks (fun x => x) (fun _ _ _ => 0%R)
      (fun _ _ _ => 0%R) Mock.scenario_config [0%R; 8%R]
      MockGenerator.initial
    = Some (chunks,
            {| MockGenerator.sampleCounter := Z.of_nat 2 * 4;
               MockGenerator.sequenceNumber := Z.of_nat 2 |})
    /\ length chunks = 2%nat.
Proof.
  destruct (generateChunk_continues_the_time_axis (fun x => x)
              (fun _ _ _ => 0%R) (fun _ _ _ => 0%R) Mock.scenario_config
              [0%R; 8%R] MockGenerator.initial) as (chunks & Hrun & Hlen & _).
  - cbn; lia.
  - cbn; lia.
  - exists chunks. split; [exact Hrun | exact Hlen].
Defined.

Section SnapshotProperties.

Import Metrics Monitor.

(** X19.  What a snapshot reports.  For a non-negative byte count the rate
    is not negative and the efficiency lies between 0 and 100: it is the
    rate as a percentage of 640 MB/s up to that rate and 100 beyond it.
    With no uptime both rates are 0, and with no latency recorded the
    average is 0, so nothing is divided by zero; otherwise the average times
    the count is the latency sum. *)
Theorem snapshot_rates_and_average (m : PerformanceMetrics) (totalSeconds : Q) :
  0 <= TotalBytesSent m ->
  let r := GetMetricsSnapshot m totalSeconds in
  (0 <= RateMBps r)%Q
  /\ (0 <= EfficiencyPercent r <= 100)%Q
  /\ ((640 <= RateMBps r)%Q -> (EfficiencyPercent r == 100)%Q)
  /\ ((RateMBps r <= 640)%Q ->
      (EfficiencyPercent r == RateMBps r / 640 * 100)%Q)
  /\ ((totalSeconds <= 0)%Q -> RateMBps r = 0%Q /\ PacketRate r = 0%Q)
  /\ (LatencyCount m <= 0 -> AverageLatency r = 0%Q)
  /\ (0 < LatencyCount m ->
      (AverageLatency r * inject_Z (LatencyCount m) == LatencySum m)%Q).
Proof.
  intros Hb. cbv zeta. unfold GetMetricsSnapshot.
  cbn [EfficiencyPercent RateMBps PacketRate AverageLatency].
  assert (HbQ : (0 <= inject_Z (TotalBytesSent m))%Q).
  { change 0%Q with (inject_Z 0). now rewrite <- Zle_Qle. }
  set (rate := if Qlt_le_dec 0 totalSeconds
               then (inject_Z (TotalBytesSent m) / totalSeconds / (1024 * 1024))%Q
               else 0%Q).
  assert (Hrate : (0 <= rate)%Q).
  { unfold rate. destruct (Qlt_le_dec 0 totalSeconds) as [Hpos|Hle]; [|lra].
    apply Qle_shift_div_l; [reflexivity|]. rewrite Qmult_0_l.
    apply Qle_shift_div_l; [exact Hpos|]. now rewrite Qmult_0_l. }
  assert (Hpct : (rate / 640 * 100 == rate * (5 # 32))%Q) by (field; lra).
  split; [exact Hrate|]. split; [|split; [|split; [|split; [|split]]]].
  - destruct (Q.min_spec 100 (rate / 640 * 100)) as [[H E]|[H E]];
      rewrite E; rewrite Hpct in *; lra.
  - intros H. apply Q.min_l. rewrite Hpct. lra.
  - intros H. apply Q.min_r. rewrite Hpct. lra.
  - intros Hle. unfold rate.
    destruct (Qlt_le_dec 0 totalSeconds) as [Hpos|_]; [lra|].
    split; reflexivity.
  - intros Hc. destruct (Z.ltb_spec 0 (LatencyCount m)) as [H0|_]; [lia|].
    reflexivity.
  - intros Hc. destruct (Z.ltb_spec 0 (LatencyCount m)) as [_|H0]; [|lia].
    assert (HcQ : (0 < inject_Z (LatencyCount m))%Q).
    { change 0%Q with (inject_Z 0). now rewrite <- Zlt_Qlt. }
    field. lra.
Qed.

Lemma snapshot_rates_and_average_witness :
  (0 <= EfficiencyPercent (GetMetricsSnapshot busy_metrics 2) <= 100)%Q.
Proof.
  apply (snapshot_rates_and_average busy_metrics 2). vm_compute. discriminate.
Defined.

End SnapshotProperties.
